(** * Alliance module: reward and rebalancing accounting engine

    A shallow embedding of the keeper code of [x/alliance] (asset registry,
    take-rate engine, reward-weight decay engine, weight-change snapshot log,
    rebalancer) and of the share/token conversions of [types/asset.go],
    followed by the properties established about them.

    Conventions of the embedding.
    - [LegacyDec] (cosmossdk.io/math) is an 18-decimal fixed-point number held
      in a big integer: a [Dec] is that integer ([Z]), so the decimal 1 is
      [10^18].  Multiplication and division round half to even on the
      magnitude, as [chopPrecisionAndRound] does.  The library panics with
      [Int overflow] when a product needs more than [maxDecBitLen] bits:
      [DecMul] and [DecPower] have no result then, and the decay hook, where
      a rate is compounded over any number of intervals, is written with
      them.  [DecMulRaw] and [DecPowerRaw] are the values that the two
      operations return when they return; the other engines are written
      with these, their operands being token amounts, shares and rates.
    - [time.Time] is the number of nanoseconds since the zero time
      [time.Time{}]; [time.Duration] is an [int64] number of nanoseconds.
    - A keeper method is a function from the store ([State]) to an outcome
      and the store it leaves behind; Go's [error] results and panics are
      the constructors of [Outcome].  A slice of asset pointers
      ([[]*types.AllianceAsset]) that a hook mutates in place is passed in
      and handed back. *)

From Stdlib Require Import ZArith Lia Bool Sorted.
From stdpp Require Import base option gmap strings list fin_maps.

Local Open Scope Z_scope.

(** ** Fixed-point decimals (cosmossdk.io/math LegacyDec) *)

Abbreviation Dec := Z.

Definition precisionReuse : Z := 1000000000000000000.
Definition fivePrecision : Z := 500000000000000000.

(** [chopPrecisionAndRound] on a non-negative argument: truncated quotient
    and remainder by [10^18], then round half to even. *)
Definition chopRoundMag (d : Z) : Z :=
  let quo := Z.quot d precisionReuse in
  let rem := Z.rem d precisionReuse in
  if rem =? 0 then quo
  else match rem ?= fivePrecision with
       | Lt => quo
       | Gt => quo + 1
       | Eq => if Z.testbit quo 0 then quo + 1 else quo
       end.

Definition chopPrecisionAndRound (d : Z) : Z :=
  if d <? 0 then - chopRoundMag (- d) else chopRoundMag d.

Definition LegacyNewDec (i : Z) : Dec := i * precisionReuse.
Definition LegacyNewDecFromInt (i : Z) : Dec := i * precisionReuse.
Definition LegacyZeroDec : Dec := 0.
Definition LegacyOneDec : Dec := precisionReuse.
(** [LegacyNewDecWithPrec(i, prec)] is [i * 10^(18 - prec)]. *)
Definition LegacyNewDecWithPrec (i : Z) (prec : Z) : Dec := i * 10 ^ (18 - prec).

(** The value of a product: [chopPrecisionAndRound] of the integer product. *)
Definition DecMulRaw (x y : Dec) : Dec := chopPrecisionAndRound (x * y).

(** The bit-length limit of the library: [MaxBitLen = 256] bits and
    [decimalTruncateBits = 59] bits for the decimals. *)
Definition maxDecBitLen : Z := 315.

(** [big.Int.BitLen]: the length in bits of the absolute value, 0 for 0. *)
Definition BitLen (x : Z) : Z :=
  if x =? 0 then 0 else Z.log2 (Z.abs x) + 1.

(** [Mul] panics with [Int overflow] when the rounded product has more than
    [maxDecBitLen] bits: no result. *)
Definition DecMul (x y : Dec) : option Dec :=
  let chopped := DecMulRaw x y in
  if maxDecBitLen <? BitLen chopped then None else Some chopped.
Definition DecMulInt (x : Dec) (i : Z) : Dec := x * i.
(** The quotient for a non-zero divisor. *)
Definition DecQuoRaw (x y : Dec) : Dec :=
  chopPrecisionAndRound (Z.quot (x * precisionReuse * precisionReuse) y).
(** [Quo] panics on a zero divisor: no result. *)
Definition DecQuo (x y : Dec) : option Dec :=
  if y =? 0 then None else Some (DecQuoRaw x y).
Definition DecTruncateInt (x : Dec) : Z := Z.quot x precisionReuse.
Definition DecIsZero (x : Dec) : bool := x =? 0.
Definition DecIsPositive (x : Dec) : bool := 0 <? x.

(** The loop of [PowerMut]: [i] runs over the exponent and is halved at each
    turn, [d] is squared, [tmp] collects the odd factors.  Here every
    product is taken at its value. *)
Fixpoint PowerLoopRaw (d tmp : Dec) (i : positive) : Dec :=
  match i with
  | xH => DecMulRaw d tmp
  | xO i' => PowerLoopRaw (DecMulRaw d d) tmp i'
  | xI i' => PowerLoopRaw (DecMulRaw d d) (DecMulRaw tmp d) i'
  end.

Definition DecPowerRaw (d : Dec) (power : Z) : Dec :=
  match power with
  | Zpos p => PowerLoopRaw d LegacyOneDec p
  | _ => LegacyOneDec
  end.

(** The loop of [PowerMut] with the panic of each [MulMut]: for an odd [i]
    the factor is collected into [tmp] before [d] is squared. *)
Fixpoint PowerLoop (d tmp : Dec) (i : positive) : option Dec :=
  match i with
  | xH => DecMul d tmp
  | xO i' => d2 ← DecMul d d; PowerLoop d2 tmp i'
  | xI i' => tmp' ← DecMul tmp d; d2 ← DecMul d d; PowerLoop d2 tmp' i'
  end.

(** [Power]: one for the exponent 0, and no result when a product of the
    loop overflows. *)
Definition DecPower (d : Dec) (power : Z) : option Dec :=
  match power with
  | Zpos p => PowerLoop d LegacyOneDec p
  | _ => Some LegacyOneDec
  end.

(** ** Machine integers and time *)

Definition maxInt64 : Z := 9223372036854775807.
Definition minInt64 : Z := -9223372036854775808.
Definition MaxUint64 : Z := 18446744073709551615.

(** Conversion to [uint64] and to [int64] (wrap-around). *)
Definition toUint64 (z : Z) : Z := z mod 2 ^ 64.
Definition toInt64 (z : Z) : Z := (z + 2 ^ 63) mod 2 ^ 64 - 2 ^ 63.

Abbreviation Time := Z.
Abbreviation Duration := Z.

Definition zeroTime : Time := 0.
Definition TimeAdd (t : Time) (d : Duration) : Time := t + d.
(** [Time.Sub] saturates at the ends of [int64]. *)
Definition TimeSub (t u : Time) : Duration :=
  Z.max minInt64 (Z.min maxInt64 (t - u)).
Definition TimeAfter (t u : Time) : bool := u <? t.
Definition TimeEqual (t u : Time) : bool := t =? u.
(** Multiplication of two durations, in [int64]. *)
Definition DurationMul (a b : Duration) : Duration := toInt64 (a * b).

Record Ctx := mkCtx { BlockTime : Time; BlockHeight : Z }.

(** ** Coins (sdk.Coins) and decimal coins: finite maps from denom to a
    non-zero amount *)

Abbreviation Coins := (gmap string Z).

Definition AmountOf (c : Coins) (denom : string) : Z := default 0 (c !! denom).

(** [coins.Add(sdk.NewCoin(denom, amt))]: the amounts of one denom are
    summed and a zero sum is dropped. *)
Definition CoinsAdd (c : Coins) (denom : string) (amt : Z) : Coins :=
  let v := AmountOf c denom + amt in
  if v =? 0 then delete denom c else <[denom := v]> c.

Definition CoinsAddAll (c d : Coins) : Coins :=
  map_fold (fun denom amt acc => CoinsAdd acc denom amt) c d.

Definition CoinsEmpty (c : Coins) : bool := bool_decide (c = ∅).

(** ** Assets (types/asset.go) *)

Record RewardWeightRange := mkRange { Min : Dec; Max : Dec }.

Record AllianceAsset := mkAsset {
  Denom : string;
  RewardWeight : Dec;
  TakeRate : Dec;
  TotalTokens : Z;
  TotalValidatorShares : Dec;
  RewardStartTime : Time;
  RewardChangeRate : Dec;
  RewardChangeInterval : Duration;
  LastRewardChangeTime : Time;
  RewardWeightRange_ : RewardWeightRange;
  IsInitialized : bool
}.

Definition NewAllianceAsset (denom : string) (rewardWeight minRewardWeight
    maxRewardWeight takeRate : Dec) (rewardStartTime : Time) : AllianceAsset :=
  {| Denom := denom;
     RewardWeight := rewardWeight;
     RewardWeightRange_ := {| Min := minRewardWeight; Max := maxRewardWeight |};
     TakeRate := takeRate;
     TotalTokens := 0;
     TotalValidatorShares := LegacyZeroDec;
     RewardStartTime := rewardStartTime;
     RewardChangeRate := LegacyOneDec;
     RewardChangeInterval := 0;
     LastRewardChangeTime := rewardStartTime;
     IsInitialized := false |}.

Definition ConvertNewTokenToShares (totalTokens totalShares : Dec)
    (newTokens : Z) : option Dec :=
  if DecIsZero totalShares then Some (LegacyNewDecFromInt newTokens)
  else q ← DecQuo totalShares totalTokens; Some (DecMulInt q newTokens).

Definition ConvertNewShareToDecToken (totalTokens totalShares shares : Dec)
    : option Dec :=
  if DecIsZero totalShares then Some totalTokens
  else q ← DecQuo shares totalShares; Some (DecMulRaw q totalTokens).

Definition HasPositiveDecay (a : AllianceAsset) : bool :=
  (0 <? RewardChangeInterval a) && DecIsPositive (RewardChangeRate a).

Definition RewardsStarted (a : AllianceAsset) (blockTime : Time) : bool :=
  TimeAfter blockTime (RewardStartTime a) || TimeEqual blockTime (RewardStartTime a).

(** ** The store *)

Inductive Error :=
| ErrUnknownAsset
| ErrRewardWeightOutOfBound
| ErrInvalidDuration
| ErrInsufficientFunds
| ErrValidatorNotFound
| ErrNoDelegation
| ErrExternal
| ErrDeleteNonEmptyAsset.

Inductive Outcome (A : Type) :=
| Ok (a : A)
| Err (e : Error)
| Panic.
Arguments Ok {A} a.
Arguments Err {A} e.
Arguments Panic {A}.

Record Params := mkParams {
  RewardDelayTime : Duration;
  TakeRateClaimInterval : Duration;
  LastTakeRateClaimTime : Time
}.

(** The reward-index vector of a validator or of a delegation: reward-coin
    denom to cumulative index. *)
Abbreviation RewardHistories := (gmap string Z).

Record AllianceValidatorInfo := mkInfo {
  GlobalRewardHistory : RewardHistories;
  TotalDelegatorShares : gmap string Z;
  ValidatorShares : gmap string Z
}.

Record RewardWeightChangeSnapshot := mkSnapshot {
  PrevRewardWeight : Dec;
  RewardHistories_ : RewardHistories
}.

Record Delegation := mkDelegation {
  Shares : Dec;
  RewardHistory : RewardHistories;
  LastRewardClaimHeight : Z
}.

(** What the distribution subsystem holds for the module's stake on one
    validator: the coins accrued since the last withdrawal, or a failure of
    the subsystem. *)
Inductive Outstanding :=
| Accrued (c : Coins)
| Failing.

Record State := mkState {
  assets : gmap string AllianceAsset;
  params : Params;
  rebalanceQueued : bool;
  validatorInfos : gmap string AllianceValidatorInfo;
  snapshots : gmap (string * string * Z) RewardWeightChangeSnapshot;
  delegations : gmap (string * string * string) Delegation;
  bank : gmap string (gmap string Z);
  supply : Coins;
  distribution : gmap string Outstanding;
  bondDenom : string;
  bondedStatus : gmap string bool;
  moduleDelegations : gmap string Z
}.

Definition set_assets (f : gmap string AllianceAsset -> gmap string AllianceAsset)
    (s : State) : State :=
  mkState (f (assets s)) (params s) (rebalanceQueued s) (validatorInfos s)
    (snapshots s) (delegations s) (bank s) (supply s) (distribution s)
    (bondDenom s) (bondedStatus s) (moduleDelegations s).
Definition set_params (p : Params) (s : State) : State :=
  mkState (assets s) p (rebalanceQueued s) (validatorInfos s)
    (snapshots s) (delegations s) (bank s) (supply s) (distribution s)
    (bondDenom s) (bondedStatus s) (moduleDelegations s).
Definition set_rebalanceQueued (b : bool) (s : State) : State :=
  mkState (assets s) (params s) b (validatorInfos s)
    (snapshots s) (delegations s) (bank s) (supply s) (distribution s)
    (bondDenom s) (bondedStatus s) (moduleDelegations s).
Definition set_validatorInfos
    (f : gmap string AllianceValidatorInfo -> gmap string AllianceValidatorInfo)
    (s : State) : State :=
  mkState (assets s) (params s) (rebalanceQueued s) (f (validatorInfos s))
    (snapshots s) (delegations s) (bank s) (supply s) (distribution s)
    (bondDenom s) (bondedStatus s) (moduleDelegations s).
Definition set_snapshots
    (f : gmap (string * string * Z) RewardWeightChangeSnapshot ->
         gmap (string * string * Z) RewardWeightChangeSnapshot)
    (s : State) : State :=
  mkState (assets s) (params s) (rebalanceQueued s) (validatorInfos s)
    (f (snapshots s)) (delegations s) (bank s) (supply s) (distribution s)
    (bondDenom s) (bondedStatus s) (moduleDelegations s).
Definition set_delegations
    (f : gmap (string * string * string) Delegation ->
         gmap (string * string * string) Delegation)
    (s : State) : State :=
  mkState (assets s) (params s) (rebalanceQueued s) (validatorInfos s)
    (snapshots s) (f (delegations s)) (bank s) (supply s) (distribution s)
    (bondDenom s) (bondedStatus s) (moduleDelegations s).
Definition set_bank (f : gmap string (gmap string Z) -> gmap string (gmap string Z))
    (s : State) : State :=
  mkState (assets s) (params s) (rebalanceQueued s) (validatorInfos s)
    (snapshots s) (delegations s) (f (bank s)) (supply s) (distribution s)
    (bondDenom s) (bondedStatus s) (moduleDelegations s).
Definition set_supply (f : Coins -> Coins) (s : State) : State :=
  mkState (assets s) (params s) (rebalanceQueued s) (validatorInfos s)
    (snapshots s) (delegations s) (bank s) (f (supply s)) (distribution s)
    (bondDenom s) (bondedStatus s) (moduleDelegations s).
Definition set_distribution
    (f : gmap string Outstanding -> gmap string Outstanding) (s : State) : State :=
  mkState (assets s) (params s) (rebalanceQueued s) (validatorInfos s)
    (snapshots s) (delegations s) (bank s) (supply s) (f (distribution s))
    (bondDenom s) (bondedStatus s) (moduleDelegations s).
Definition set_moduleDelegations (f : gmap string Z -> gmap string Z)
    (s : State) : State :=
  mkState (assets s) (params s) (rebalanceQueued s) (validatorInfos s)
    (snapshots s) (delegations s) (bank s) (supply s) (distribution s)
    (bondDenom s) (bondedStatus s) (f (moduleDelegations s)).

(** Field updates of an asset record. *)
Definition withTotalTokens (a : AllianceAsset) (v : Z) : AllianceAsset :=
  mkAsset (Denom a) (RewardWeight a) (TakeRate a) v (TotalValidatorShares a)
    (RewardStartTime a) (RewardChangeRate a) (RewardChangeInterval a)
    (LastRewardChangeTime a) (RewardWeightRange_ a) (IsInitialized a).
Definition withRewardWeight (a : AllianceAsset) (v : Dec) : AllianceAsset :=
  mkAsset (Denom a) v (TakeRate a) (TotalTokens a) (TotalValidatorShares a)
    (RewardStartTime a) (RewardChangeRate a) (RewardChangeInterval a)
    (LastRewardChangeTime a) (RewardWeightRange_ a) (IsInitialized a).
Definition withLastRewardChangeTime (a : AllianceAsset) (v : Time) : AllianceAsset :=
  mkAsset (Denom a) (RewardWeight a) (TakeRate a) (TotalTokens a)
    (TotalValidatorShares a) (RewardStartTime a) (RewardChangeRate a)
    (RewardChangeInterval a) v (RewardWeightRange_ a) (IsInitialized a).
Definition withIsInitialized (a : AllianceAsset) (v : bool) : AllianceAsset :=
  mkAsset (Denom a) (RewardWeight a) (TakeRate a) (TotalTokens a)
    (TotalValidatorShares a) (RewardStartTime a) (RewardChangeRate a)
    (RewardChangeInterval a) (LastRewardChangeTime a) (RewardWeightRange_ a) v.

(** ** Token custody (bank keeper): balances per account, and the supply *)

Definition ModuleName : string := "alliance".
Definition RewardsPoolName : string := "alliance_rewards".
Definition feeCollectorName : string := "fee_collector".
Definition BondedPoolName : string := "bonded_tokens_pool".

Definition BalanceOf (s : State) (account : string) : Coins :=
  default ∅ (bank s !! account).

Definition CoinsSubAll (c d : Coins) : Coins :=
  map_fold (fun denom amt acc => CoinsAdd acc denom (- amt)) c d.

(** Every amount of [c] is available in [bal]. *)
Definition CoinsCovered (c bal : Coins) : bool :=
  bool_decide (map_Forall (fun denom amt => amt <= AmountOf bal denom) c).

Definition CoinsIsZero (c : Coins) : bool :=
  bool_decide (map_Forall (fun _ amt => amt = 0) c).

(** A transfer between two accounts fails when the sender lacks the coins. *)
Definition SendCoins (from to : string) (c : Coins) (s : State)
    : Outcome unit * State :=
  if CoinsCovered c (BalanceOf s from) then
    let b1 := <[from := CoinsSubAll (BalanceOf s from) c]> (bank s) in
    let b2 := <[to := CoinsAddAll (default ∅ (b1 !! to)) c]> b1 in
    (Ok tt, set_bank (fun _ => b2) s)
  else (Err ErrInsufficientFunds, s).

Definition MintCoins (account : string) (c : Coins) (s : State) : State :=
  set_supply (fun t => CoinsAddAll t c)
    (set_bank (insert account (CoinsAddAll (BalanceOf s account) c)) s).

Definition BurnCoins (account : string) (c : Coins) (s : State)
    : Outcome unit * State :=
  if CoinsCovered c (BalanceOf s account) then
    (Ok tt, set_supply (fun t => CoinsSubAll t c)
              (set_bank (insert account (CoinsSubAll (BalanceOf s account) c)) s))
  else (Err ErrInsufficientFunds, s).

(** ** Asset registry and parameters (keeper/asset.go, keeper/params.go) *)

Definition SetAsset (asset : AllianceAsset) (s : State) : State :=
  set_assets (insert (Denom asset) asset) s.

Fixpoint insertByKey (e : string * AllianceAsset)
    (l : list (string * AllianceAsset)) : list (string * AllianceAsset) :=
  match l with
  | [] => [e]
  | e' :: l' => if String.leb e.1 e'.1 then e :: l else e' :: insertByKey e l'
  end.

(** The registry in key order (a prefix iteration of the store).  The key
    of an asset is the prefix of the registry followed by the bytes of the
    denom ([types.GetAssetKey], not among the sources), so the records come
    in ascending byte order of their denoms. *)
Definition GetAllAssets (s : State) : list AllianceAsset :=
  (foldr insertByKey [] (map_to_list (assets s))).*2.

Definition GetAssetByDenom (s : State) (denom : string) : option AllianceAsset :=
  assets s !! denom.

Definition deleteAsset (denom : string) (s : State) : State :=
  set_assets (delete denom) s.

Definition DeleteAsset (asset : AllianceAsset) (s : State) : Outcome unit * State :=
  if 0 <? TotalTokens asset then (Err ErrDeleteNonEmptyAsset, s)
  else (Ok tt, deleteAsset (Denom asset) s).

Definition QueueAssetRebalanceEvent (s : State) : State :=
  set_rebalanceQueued true s.

Definition ConsumeAssetRebalanceEvent (s : State) : bool * State :=
  if rebalanceQueued s then (true, set_rebalanceQueued false s) else (false, s).

Definition RewardDelayTime_ (s : State) : Duration := RewardDelayTime (params s).
Definition RewardClaimInterval (s : State) : Duration := TakeRateClaimInterval (params s).
Definition LastRewardClaimTime (s : State) : Time := LastTakeRateClaimTime (params s).

Section Keeper.

(** [types.ValidatePositiveDuration] is not among the sources: the check it
    performs on a duration is a parameter of the development. *)
Variable ValidatePositiveDuration : Duration -> bool.

Definition SetParams (p : Params) (s : State) : Outcome unit * State :=
  if negb (ValidatePositiveDuration (RewardDelayTime p)) then (Err ErrInvalidDuration, s)
  else if negb (ValidatePositiveDuration (TakeRateClaimInterval p)) then
    (Err ErrInvalidDuration, s)
  else (Ok tt, set_params p s).

Definition SetLastRewardClaimTime (lastTime : Time) (s : State)
    : Outcome unit * State :=
  SetParams (mkParams (RewardDelayTime (params s)) (TakeRateClaimInterval (params s))
               lastTime) s.

(** ** Take-rate engine (keeper/asset.go) *)

Definition taxable (ctx : Ctx) (asset : AllianceAsset) : bool :=
  (0 <? TotalTokens asset) && DecIsPositive (TakeRate asset)
  && RewardsStarted asset (BlockTime ctx).

(** The loop of [DeductAssetsWithTakeRate] over the asset pointers.  The
    slice elements are updated in place, so the slice is handed back; [count]
    is [assetsWithPositiveTakeRate].  [sdk.NewCoin] panics on a negative
    amount. *)
Fixpoint deductLoop (ctx : Ctx) (intervalsSinceLastClaim : Z)
    (assets : list AllianceAsset) (coins : Coins) (count : Z) (s : State)
    : Outcome (Coins * Z) * list AllianceAsset * State :=
  match assets with
  | [] => (Ok (coins, count), [], s)
  | asset :: rest =>
    if taxable ctx asset then
      let multiplier :=
        DecPowerRaw (LegacyOneDec - TakeRate asset) intervalsSinceLastClaim in
      let oldAmount := TotalTokens asset in
      let newAmount := DecMulInt multiplier (TotalTokens asset) in
      if newAmount <=? LegacyOneDec then
        let '(r, rest', s') :=
          deductLoop ctx intervalsSinceLastClaim rest coins (count + 1) s in
        (r, asset :: rest', s')
      else
        let asset' := withTotalTokens asset (DecTruncateInt newAmount) in
        let deductedAmount := oldAmount - TotalTokens asset' in
        if deductedAmount <? 0 then (Panic, asset' :: rest, s)
        else
          let '(r, rest', s') :=
            deductLoop ctx intervalsSinceLastClaim rest
              (CoinsAdd coins (Denom asset) deductedAmount) (count + 1)
              (SetAsset asset' s) in
          (r, asset' :: rest', s')
    else
      let '(r, rest', s') :=
        deductLoop ctx intervalsSinceLastClaim rest coins count s in
      (r, asset :: rest', s')
  end.

Definition DeductAssetsWithTakeRate (ctx : Ctx) (lastClaim : Time)
    (assets : list AllianceAsset) (s : State)
    : Outcome Coins * list AllianceAsset * State :=
  if TimeEqual lastClaim zeroTime then
    match SetLastRewardClaimTime (BlockTime ctx) s with
    | (Ok _, s') => (Ok ∅, assets, s')
    | (Err e, s') => (Err e, assets, s')
    | (Panic, s') => (Panic, assets, s')
    end
  else
    let rewardClaimInterval := RewardClaimInterval s in
    let durationSinceLastClaim := TimeSub (BlockTime ctx) lastClaim in
    if rewardClaimInterval =? 0 then (Panic, assets, s)
    else
      let intervalsSinceLastClaim :=
        toUint64 (Z.quot durationSinceLastClaim rewardClaimInterval) in
      match deductLoop ctx intervalsSinceLastClaim assets ∅ 0 s with
      | (Ok (coins, assetsWithPositiveTakeRate), assets', s1) =>
        if assetsWithPositiveTakeRate =? 0 then
          match SetLastRewardClaimTime (BlockTime ctx) s1 with
          | (Ok _, s2) => (Ok coins, assets', s2)
          | (Err e, s2) => (Err e, assets', s2)
          | (Panic, s2) => (Panic, assets', s2)
          end
        else if negb (CoinsEmpty coins) && negb (CoinsIsZero coins) then
          match SendCoins ModuleName feeCollectorName coins s1 with
          | (Ok _, s2) =>
            match SetLastRewardClaimTime
                    (TimeAdd lastClaim
                       (DurationMul rewardClaimInterval
                          (toInt64 intervalsSinceLastClaim))) s2 with
            | (Ok _, s3) => (Ok coins, assets', s3)
            | (Err e, s3) => (Err e, assets', s3)
            | (Panic, s3) => (Panic, assets', s3)
            end
          | (Err e, s2) => (Err e, assets', s2)
          | (Panic, s2) => (Panic, assets', s2)
          end
        else (Ok coins, assets', s1)
      | (Err e, assets', s1) => (Err e, assets', s1)
      | (Panic, assets', s1) => (Panic, assets', s1)
      end.

Definition DeductAssetsHook (ctx : Ctx) (assets : list AllianceAsset) (s : State)
    : Outcome Coins * list AllianceAsset * State :=
  let last := LastRewardClaimTime s in
  let interval := RewardClaimInterval s in
  let next := TimeAdd last interval in
  if TimeAfter (BlockTime ctx) next then DeductAssetsWithTakeRate ctx last assets s
  else (Ok ∅, assets, s).

(** The decimal amount that the loop compares with one for an asset:
    [newAmount] after [n] intervals. *)
Definition postTaxAmount (n : Z) (asset : AllianceAsset) : Dec :=
  DecMulInt (DecPowerRaw (LegacyOneDec - TakeRate asset) n) (TotalTokens asset).

(** What one turn of the loop leaves in the slice for an asset. *)
Definition taxAsset (ctx : Ctx) (n : Z) (asset : AllianceAsset) : AllianceAsset :=
  if taxable ctx asset && (LegacyOneDec <? postTaxAmount n asset)
  then withTotalTokens asset (DecTruncateInt (postTaxAmount n asset))
  else asset.

(** The registry after the loop has run over the slice. *)
Definition storeAfterTax (ctx : Ctx) (n : Z) (assets : list AllianceAsset)
    (m : gmap string AllianceAsset) : gmap string AllianceAsset :=
  foldl (fun m a =>
           if taxable ctx a && (LegacyOneDec <? postTaxAmount n a)
           then <[Denom a := taxAsset ctx n a]> m else m) m assets.

Definition countTaxable (ctx : Ctx) (assets : list AllianceAsset) : Z :=
  foldr (fun a k => if taxable ctx a then k + 1 else k) 0 assets.

(** The amount deducted in denom [d] over the slice. *)
Definition deductedFor (ctx : Ctx) (n : Z) (d : string) (assets : list AllianceAsset) : Z :=
  foldr (fun a k =>
           if decide (Denom a = d)
           then k + (TotalTokens a - TotalTokens (taxAsset ctx n a)) else k)
    0 assets.

(** The hook run once per block time, on the same slice, as a chain does. *)
Fixpoint repeatDeductAssetsHook (ctxs : list Ctx) (assets : list AllianceAsset)
    (s : State) : list AllianceAsset * State :=
  match ctxs with
  | [] => (assets, s)
  | ctx :: rest =>
    let '(_, assets', s') := DeductAssetsHook ctx assets s in
    repeatDeductAssetsHook rest assets' s'
  end.

(** ** Validator share ledger and reward index *)

Definition emptyInfo : AllianceValidatorInfo := mkInfo ∅ ∅ ∅.

Definition withGlobalRewardHistory (info : AllianceValidatorInfo)
    (h : RewardHistories) : AllianceValidatorInfo :=
  mkInfo h (TotalDelegatorShares info) (ValidatorShares info).

Definition InfoOf (s : State) (valAddr : string) : AllianceValidatorInfo :=
  default emptyInfo (validatorInfos s !! valAddr).

(** Modelled from the spec: [GetAllianceValidator] (keeper/validator.go) is
    not among the sources.  It pairs the validator of the bonding subsystem
    (here its bonded status) with the validator's share and index record, and
    fails when the bonding subsystem does not know the validator. *)
Definition GetAllianceValidator (s : State) (valAddr : string)
    : Outcome (bool * AllianceValidatorInfo) :=
  match bondedStatus s !! valAddr with
  | None => Err ErrValidatorNotFound
  | Some b => Ok (b, InfoOf s valAddr)
  end.

(** Modelled from the spec: [TotalTokensWithAsset] (types/validator.go) is
    not among the sources.  The validator's token amount in an asset is the
    share-to-token conversion of its shares of the asset's pool:
    tokens = shares / totalShares * totalTokens, or all tokens if
    totalShares is zero.  The conversion always has a result
    ([ConvertNewShareToDecToken_total]). *)
Definition TotalTokensWithAsset (info : AllianceValidatorInfo)
    (asset : AllianceAsset) : Dec :=
  default 0 (ConvertNewShareToDecToken (LegacyNewDecFromInt (TotalTokens asset))
               (TotalValidatorShares asset)
               (default 0 (ValidatorShares info !! Denom asset))).

Definition TotalDelegationSharesWithDenom (info : AllianceValidatorInfo)
    (denom : string) : Dec :=
  default 0 (TotalDelegatorShares info !! denom).

(** Modelled from the spec: the total weighted value of a validator, the sum
    over the assets of the registry of rewardWeight times the validator's
    token amount in that asset (keeper/reward.go is not among the sources). *)
Definition totalAssetWeight (s : State) (info : AllianceValidatorInfo) : Dec :=
  map_fold (fun _ asset total =>
              total + DecMulRaw (RewardWeight asset) (TotalTokensWithAsset info asset))
    0 (assets s).

(** One entry of the index vector after a deposit: a deposited coin of
    amount [A] adds [A / total_weighted_value] to the index of its denom, a
    denom seen for the first time starting from index 0. *)
Definition addIndex (totalWeight : Dec) (index : option Z) (coin : option Z)
    : option Z :=
  match coin with
  | None => index
  | Some amount =>
    Some (default 0 index + DecQuoRaw (LegacyNewDecFromInt amount) totalWeight)
  end.

(** Modelled from the spec: the deposit of reward coins to a validator's
    pool ([AddAssetsToRewardPool], keeper/reward.go, not among the sources):
    compute the total weighted value of the validator at that instant and set
    globalIndex[D] += A / total_weighted_value for each coin; a no-op that
    distributes nothing if the total weighted value is zero.  The coins move
    from the depositor to the rewards pool. *)
Definition AddAssetsToRewardPool (from valAddr : string) (coins : Coins)
    (s : State) : Outcome unit * State :=
  let info := InfoOf s valAddr in
  let total := totalAssetWeight s info in
  if DecIsZero total then (Ok tt, s)
  else
    let rewardHistories := merge (addIndex total) (GlobalRewardHistory info) coins in
    let s1 := set_validatorInfos
                (insert valAddr (withGlobalRewardHistory info rewardHistories)) s in
    SendCoins from RewardsPoolName coins s1.

(** Modelled from the spec: the settlement of a validator
    ([ClaimValidatorRewards], keeper/reward.go, not among the sources): flush
    the rewards that the bonding subsystem has accrued for the module's stake
    on the validator into the module account, then deposit them to the
    validator's pool.  Nothing happens when the module has no stake on the
    validator or nothing has accrued; a failure of the subsystem is
    propagated. *)
Definition ClaimValidatorRewards (valAddr : string) (s : State)
    : Outcome Coins * State :=
  match distribution s !! valAddr with
  | None => (Ok ∅, s)
  | Some Failing => (Err ErrExternal, s)
  | Some (Accrued c) =>
    if CoinsEmpty c then (Ok ∅, s)
    else
      let s1 := set_distribution (insert valAddr (Accrued ∅))
                  (set_bank (insert ModuleName
                               (CoinsAddAll (BalanceOf s ModuleName) c)) s) in
      match AddAssetsToRewardPool ModuleName valAddr c s1 with
      | (Ok _, s2) => (Ok c, s2)
      | (Err e, s2) => (Err e, s2)
      | (Panic, s2) => (Panic, s2)
      end
  end.

(** The share and index record that a successful settlement leaves for the
    validator. *)
Definition settledInfo (s : State) (valAddr : string) : AllianceValidatorInfo :=
  match distribution s !! valAddr with
  | Some (Accrued c) =>
    if CoinsEmpty c then InfoOf s valAddr
    else
      let info := InfoOf s valAddr in
      let total := totalAssetWeight s info in
      if DecIsZero total then info
      else withGlobalRewardHistory info
             (merge (addIndex total) (GlobalRewardHistory info) c)
  | _ => InfoOf s valAddr
  end.

(** ** Weight-change snapshot log (keeper/asset.go) *)

(** Modelled from the spec: [NewRewardWeightChangeSnapshot] (types) is not
    among the sources; a snapshot holds the reward weight that was in effect
    and the global index vector of the validator. *)
Definition NewRewardWeightChangeSnapshot (asset : AllianceAsset)
    (val : AllianceValidatorInfo) : RewardWeightChangeSnapshot :=
  mkSnapshot (RewardWeight asset) (GlobalRewardHistory val).

Definition setRewardWeightChangeSnapshot (denom valAddr : string) (height : Z)
    (snapshot : RewardWeightChangeSnapshot) (s : State) : State :=
  set_snapshots (insert (denom, valAddr, height) snapshot) s.

Definition SetRewardWeightChangeSnapshot (ctx : Ctx) (asset : AllianceAsset)
    (valAddr : string) (val : AllianceValidatorInfo) (s : State) : State :=
  setRewardWeightChangeSnapshot (Denom asset) valAddr (toUint64 (BlockHeight ctx))
    (NewRewardWeightChangeSnapshot asset val) s.

Definition CreateInitialRewardWeightChangeSnapshot (ctx : Ctx) (denom valAddr : string)
    (info : AllianceValidatorInfo) (s : State) : State :=
  setRewardWeightChangeSnapshot denom valAddr (toUint64 (BlockHeight ctx))
    (mkSnapshot LegacyZeroDec (GlobalRewardHistory info)) s.

Fixpoint insertByHeight (e : Z * RewardWeightChangeSnapshot)
    (l : list (Z * RewardWeightChangeSnapshot))
    : list (Z * RewardWeightChangeSnapshot) :=
  match l with
  | [] => [e]
  | e' :: l' => if e.1 <=? e'.1 then e :: l else e' :: insertByHeight e l'
  end.

(** The store iterator from the key of [lastClaimHeight] (included) to the
    key of [math.MaxUint64] (excluded): the snapshots of the pair
    (denom, validator) in ascending order of height. *)
Definition IterateWeightChangeSnapshot (s : State) (denom valAddr : string)
    (lastClaimHeight : Z) : list (Z * RewardWeightChangeSnapshot) :=
  foldr insertByHeight []
    (omap (fun '((d, v, h), snap) =>
             if bool_decide (d = denom) && bool_decide (v = valAddr)
                && (lastClaimHeight <=? h) && (h <? MaxUint64)
             then Some (h, snap) else None)
          (map_to_list (snapshots s))).

(** Modelled from the spec: [IterateAllianceValidatorInfo]
    (keeper/validator.go, not among the sources) visits every record of the
    validator share ledger in key order; the records are those present when
    the iteration starts. *)
Definition AllianceValidatorInfos (s : State) : list (string * AllianceValidatorInfo) :=
  map_to_list (validatorInfos s).

Fixpoint InitializeAllianceAssets (ctx : Ctx) (assets : list AllianceAsset)
    (s : State) : list AllianceAsset * State :=
  match assets with
  | [] => ([], s)
  | asset :: rest =>
    if IsInitialized asset || negb (RewardsStarted asset (BlockTime ctx)) then
      let '(rest', s') := InitializeAllianceAssets ctx rest s in (asset :: rest', s')
    else
      let asset' := withIsInitialized asset true in
      let s1 := foldl (fun acc '(valAddr, info) =>
                         CreateInitialRewardWeightChangeSnapshot ctx (Denom asset')
                           valAddr info acc)
                  s (AllianceValidatorInfos s) in
      let '(rest', s') := InitializeAllianceAssets ctx rest (SetAsset asset' s1) in
      (asset' :: rest', s')
  end.

(** The callback of [UpdateAllianceAsset] over the validators: settle the
    validator, then write its snapshot.  The validator record handed to the
    settlement is shared with it (it is reached through a pointer), so the
    snapshot holds the index vector that the settlement leaves. *)
Fixpoint settleValidators (ctx : Ctx) (asset : AllianceAsset)
    (vals : list (string * AllianceValidatorInfo)) (s : State)
    : Outcome unit * State :=
  match vals with
  | [] => (Ok tt, s)
  | (valAddr, _) :: rest =>
    match GetAllianceValidator s valAddr with
    | Err e => (Err e, s)
    | Panic => (Panic, s)
    | Ok _ =>
      match ClaimValidatorRewards valAddr s with
      | (Ok _, s1) =>
        settleValidators ctx asset rest
          (SetRewardWeightChangeSnapshot ctx asset valAddr (InfoOf s1 valAddr) s1)
      | (Err e, s1) => (Err e, s1)
      | (Panic, s1) => (Panic, s1)
      end
    end
  end.

Definition UpdateAllianceAsset (ctx : Ctx) (newAsset : AllianceAsset) (s : State)
    : Outcome unit * State :=
  match GetAssetByDenom s (Denom newAsset) with
  | None => (Err ErrUnknownAsset, s)
  | Some asset =>
    if (RewardWeight newAsset <? Min (RewardWeightRange_ newAsset))
       || (Max (RewardWeightRange_ newAsset) <? RewardWeight newAsset)
    then (Err ErrRewardWeightOutOfBound, s)
    else
      let '(r, s1) :=
        if negb (RewardWeight newAsset =? RewardWeight asset) then
          match settleValidators ctx asset (AllianceValidatorInfos s) s with
          | (Ok _, s') => (Ok tt, QueueAssetRebalanceEvent s')
          | (r, s') => (r, s')
          end
        else (Ok tt, s) in
      match r with
      | Ok _ =>
        let newLastRewardChangeTime :=
          if negb (RewardChangeRate newAsset =? RewardChangeRate asset)
             || negb (RewardChangeInterval newAsset =? RewardChangeInterval asset)
          then
            if (RewardChangeRate asset =? LegacyOneDec)
               || (RewardChangeInterval asset =? 0)
            then BlockTime ctx
            else LastRewardChangeTime newAsset
          else LastRewardChangeTime newAsset in
        let asset' :=
          mkAsset (Denom asset) (RewardWeight newAsset) (TakeRate newAsset)
            (TotalTokens asset) (TotalValidatorShares asset) (RewardStartTime asset)
            (RewardChangeRate newAsset) (RewardChangeInterval newAsset)
            newLastRewardChangeTime (RewardWeightRange_ asset)
            (IsInitialized asset) in
        (Ok tt, SetAsset asset' s1)
      | _ => (r, s1)
      end
  end.

(** ** Decay engine (keeper/asset.go) *)

(** The hook over the asset pointers.  [Power] and [Mul] panic before the
    asset is touched and before the rebalance event is queued. *)
Fixpoint RewardWeightChangeHook (ctx : Ctx) (assets : list AllianceAsset)
    (s : State) : Outcome unit * list AllianceAsset * State :=
  match assets with
  | [] => (Ok tt, [], s)
  | asset :: rest =>
    if (RewardChangeInterval asset =? 0)
       || (RewardChangeRate asset =? LegacyOneDec) then
      let '(r, rest', s') := RewardWeightChangeHook ctx rest s in
      (r, asset :: rest', s')
    else if TimeAfter (TimeAdd (LastRewardChangeTime asset)
                         (RewardChangeInterval asset)) (BlockTime ctx) then
      let '(r, rest', s') := RewardWeightChangeHook ctx rest s in
      (r, asset :: rest', s')
    else
      let durationSinceLastClaim :=
        TimeSub (BlockTime ctx) (LastRewardChangeTime asset) in
      let intervalsSinceLastClaim :=
        toUint64 (Z.quot durationSinceLastClaim (RewardChangeInterval asset)) in
      match DecPower (RewardChangeRate asset) intervalsSinceLastClaim with
      | None => (Panic, asset :: rest, s)
      | Some multiplier =>
        match DecMul (RewardWeight asset) multiplier with
        | None => (Panic, asset :: rest, s)
        | Some w0 =>
          let w1 := if w0 <? Min (RewardWeightRange_ asset)
                    then Min (RewardWeightRange_ asset) else w0 in
          let w2 := if Max (RewardWeightRange_ asset) <? w1
                    then Max (RewardWeightRange_ asset) else w1 in
          let asset' :=
            withLastRewardChangeTime (withRewardWeight asset w2)
              (TimeAdd (LastRewardChangeTime asset)
                 (DurationMul (RewardChangeInterval asset)
                    (toInt64 intervalsSinceLastClaim))) in
          match UpdateAllianceAsset ctx asset' (QueueAssetRebalanceEvent s) with
          | (Ok _, s1) =>
            let '(r, rest', s') := RewardWeightChangeHook ctx rest s1 in
            (r, asset' :: rest', s')
          | (Err e, s1) => (Err e, asset' :: rest, s1)
          | (Panic, s1) => (Panic, asset' :: rest, s1)
          end
        end
      end
  end.

(** ** Delegations and claims *)

Definition GetDelegationTokens (del : Delegation) (val : AllianceValidatorInfo)
    (asset : AllianceAsset) : option Z :=
  let valTokens := TotalTokensWithAsset val asset in
  let totalDelegationShares := TotalDelegationSharesWithDenom val (Denom asset) in
  delTokens ← ConvertNewShareToDecToken valTokens totalDelegationShares (Shares del);
  Some (DecTruncateInt (delTokens + LegacyNewDecWithPrec 1 6)).

Definition GetDelegationTokensWithShares (delegatorShares : Dec)
    (val : AllianceValidatorInfo) (asset : AllianceAsset) : option Z :=
  let valTokens := TotalTokensWithAsset val asset in
  let totalDelegationShares := TotalDelegationSharesWithDenom val (Denom asset) in
  delTokens ← ConvertNewShareToDecToken valTokens totalDelegationShares delegatorShares;
  Some (DecTruncateInt (delTokens + LegacyNewDecWithPrec 1 6)).

Definition GetDelegationSharesFromTokens (val : AllianceValidatorInfo)
    (asset : AllianceAsset) (token : Z) : option Dec :=
  let valTokens := TotalTokensWithAsset val asset in
  let totalDelegationShares := TotalDelegationSharesWithDenom val (Denom asset) in
  if DecTruncateInt totalDelegationShares =? 0 then Some (LegacyNewDecFromInt token)
  else ConvertNewTokenToShares valTokens totalDelegationShares token.

(** Modelled from the spec: the reward of one segment (keeper/reward.go is
    not among the sources).  For each reward denom of the index vector that
    ends the segment, the claimable amount is the weighted value of the
    delegation, rewardWeight times tokenAmount, times the index delta
    between that vector and the local vector of the delegation, a denom
    not yet seen counting from index 0; the payout is the integer part.
    Indices never decrease, so a denom whose local index has already reached
    the vector contributes nothing. *)
Definition segmentReward (rewardWeight delegationTokens : Dec)
    (index localIndex : option Z) : option Z :=
  match index with
  | None => None
  | Some idx =>
    let l := default 0 localIndex in
    if l <? idx then
      let amount :=
        DecTruncateInt (DecMulRaw (DecMulRaw rewardWeight delegationTokens) (idx - l)) in
      if amount =? 0 then None else Some amount
    else None
  end.

Definition advanceIndex (index localIndex : option Z) : option Z :=
  match index with
  | None => localIndex
  | Some idx =>
    let l := default 0 localIndex in
    if l <? idx then Some idx else Some l
  end.

Definition accumulateRewards (latest localHistories : RewardHistories)
    (rewardWeight delegationTokens : Dec) : Coins * RewardHistories :=
  (merge (segmentReward rewardWeight delegationTokens) latest localHistories,
   merge advanceIndex latest localHistories).

(** Modelled from the spec: a claim walks the ordered snapshot log from the
    last-settled height of the delegation to the current state, applying the
    weight in effect for each segment to that segment's index delta and
    summing the results; the last segment ends at the current global index
    vector and uses the current weight of the asset. *)
Definition CalculateDelegationRewards (s : State) (delegation : Delegation)
    (valAddr : string) (asset : AllianceAsset) : option Coins :=
  let val := InfoOf s valAddr in
  tokens ← GetDelegationTokens delegation val asset;
  let delegationTokens := LegacyNewDecFromInt tokens in
  let '(total, localHistories) :=
    foldl (fun '(total, localHistories) '(_, snapshot) =>
             let '(rewards, localHistories') :=
               accumulateRewards (RewardHistories_ snapshot) localHistories
                 (PrevRewardWeight snapshot) delegationTokens in
             (CoinsAddAll total rewards, localHistories'))
      (∅, RewardHistory delegation)
      (IterateWeightChangeSnapshot s (Denom asset) valAddr
         (LastRewardClaimHeight delegation)) in
  let '(rewards, _) :=
    accumulateRewards (GlobalRewardHistory val) localHistories
      (RewardWeight asset) delegationTokens in
  Some (CoinsAddAll total rewards).

(** Modelled from the spec: claim-delegation-rewards(delegator, validator,
    denom): settle the validator, pay the claimable coins out of the rewards
    pool, and set the local index vector of the delegation to the global
    one; the claim fails for an unknown asset or a missing delegation. *)
Definition ClaimDelegationRewards (ctx : Ctx) (delAddr valAddr denom : string)
    (s : State) : Outcome Coins * State :=
  match GetAssetByDenom s denom with
  | None => (Err ErrUnknownAsset, s)
  | Some asset =>
    match delegations s !! (delAddr, valAddr, denom) with
    | None => (Err ErrNoDelegation, s)
    | Some delegation =>
      match ClaimValidatorRewards valAddr s with
      | (Ok _, s1) =>
        match CalculateDelegationRewards s1 delegation valAddr asset with
        | None => (Panic, s1)
        | Some coins =>
          let delegation' :=
            mkDelegation (Shares delegation) (GlobalRewardHistory (InfoOf s1 valAddr))
              (toUint64 (BlockHeight ctx)) in
          let s2 := set_delegations (insert (delAddr, valAddr, denom) delegation') s1 in
          match SendCoins RewardsPoolName delAddr coins s2 with
          | (Ok _, s3) => (Ok coins, s3)
          | (Err e, s3) => (Err e, s3)
          | (Panic, s3) => (Panic, s3)
          end
        end
      | (Err e, s1) => (Err e, s1)
      | (Panic, s1) => (Panic, s1)
      end
    end
  end.

(** ** Rebalancer (keeper/asset.go) *)

Definition NotBondedPoolName : string := "not_bonded_tokens_pool".

Definition IsBonded (s : State) (valAddr : string) : bool :=
  default false (bondedStatus s !! valAddr).

(** Modelled from the spec: the bonding subsystem, an external collaborator.
    The total of bonded native tokens is the balance of the bonded pool; the
    module's stake on a validator is a whole number of native tokens, shares
    and tokens exchanging one for one (no slashing has occurred). *)
Definition TotalBondedTokens (s : State) : Z :=
  AmountOf (BalanceOf s BondedPoolName) (bondDenom s).

(** Modelled from the spec: the native tokens bonded by this engine, the
    module's stake on the bonded validators ([GetAllianceBondedAmount] is not
    among the sources). *)
Definition GetAllianceBondedAmount (s : State) : Z :=
  map_fold (fun valAddr amount total =>
              if IsBonded s valAddr then total + amount else total)
    0 (moduleDelegations s).

(** Modelled from the spec: delegate and unbond calls of the bonding
    subsystem, which accept and return native amounts. *)
Definition Delegate (valAddr : string) (bondAmount : Z) (s : State)
    : Outcome unit * State :=
  let pool := if IsBonded s valAddr then BondedPoolName else NotBondedPoolName in
  match SendCoins ModuleName pool {[bondDenom s := bondAmount]} s with
  | (Ok _, s1) =>
    (Ok tt, set_moduleDelegations
              (fun m => <[valAddr := default 0 (m !! valAddr) + bondAmount]> m) s1)
  | (r, s1) => (r, s1)
  end.

Definition ValidateUnbondAmount (valAddr : string) (amount : Z) (s : State)
    : Outcome Dec :=
  match moduleDelegations s !! valAddr with
  | None => Err ErrNoDelegation
  | Some staked => if staked <? amount then Err ErrExternal
                   else Ok (LegacyNewDecFromInt amount)
  end.

Definition Unbond (valAddr : string) (shares : Dec) (s : State)
    : Outcome Z * State :=
  let amount := DecTruncateInt shares in
  match moduleDelegations s !! valAddr with
  | None => (Err ErrNoDelegation, s)
  | Some staked =>
    if staked <? amount then (Err ErrExternal, s)
    else
      (Ok amount,
       set_moduleDelegations
         (fun m => if staked - amount =? 0 then delete valAddr m
                   else <[valAddr := staked - amount]> m) s)
  end.

(** The first loop of the rebalancer: the bonded validators, and the sum of
    the shares of the others. *)
Fixpoint partitionValidators (s : State) (vals : list (string * AllianceValidatorInfo))
    (bondedValidators : list (string * AllianceValidatorInfo))
    (unbondedValidatorShares : gmap string Z)
    : Outcome (list (string * AllianceValidatorInfo) * gmap string Z) :=
  match vals with
  | [] => Ok (bondedValidators, unbondedValidatorShares)
  | (valAddr, _) :: rest =>
    match GetAllianceValidator s valAddr with
    | Err e => Err e
    | Panic => Panic
    | Ok (isBonded, validator) =>
      if isBonded then
        partitionValidators s rest (bondedValidators ++ [(valAddr, validator)])
          unbondedValidatorShares
      else
        partitionValidators s rest bondedValidators
          (CoinsAddAll unbondedValidatorShares (ValidatorShares validator))
    end
  end.

(** The loop over the assets for one validator; the quotient is taken only
    for a positive divisor. *)
Fixpoint expectedBondLoop (ctx : Ctx) (nativeBondAmount : Z)
    (unbondedValidatorShares : gmap string Z) (validator : AllianceValidatorInfo)
    (assets : list AllianceAsset) (expectedBondAmount : Dec) (s : State)
    : Dec * State :=
  match assets with
  | [] => (expectedBondAmount, s)
  | asset :: rest =>
    if negb (RewardsStarted asset (BlockTime ctx)) then
      expectedBondLoop ctx nativeBondAmount unbondedValidatorShares validator rest
        expectedBondAmount (QueueAssetRebalanceEvent s)
    else
      let valShares := default 0 (ValidatorShares validator !! Denom asset) in
      let expectedBondAmountForAsset :=
        DecMulInt (RewardWeight asset) nativeBondAmount in
      let bondedValidatorShares :=
        TotalValidatorShares asset - AmountOf unbondedValidatorShares (Denom asset) in
      if DecIsPositive valShares && DecIsPositive bondedValidatorShares then
        expectedBondLoop ctx nativeBondAmount unbondedValidatorShares validator rest
          (expectedBondAmount
           + DecMulRaw (DecQuoRaw valShares bondedValidatorShares)
               expectedBondAmountForAsset) s
      else
        expectedBondLoop ctx nativeBondAmount unbondedValidatorShares validator rest
          expectedBondAmount s
  end.

Definition currentBondedAmount (s : State) (valAddr : string) : Dec :=
  match moduleDelegations s !! valAddr with
  | Some staked => LegacyNewDecFromInt staked
  | None => LegacyNewDec 0
  end.

(** One turn of the second loop of the rebalancer. *)
Definition rebalanceValidator (ctx : Ctx) (nativeBondAmount : Z)
    (unbondedValidatorShares : gmap string Z) (assets : list AllianceAsset)
    (valAddr : string) (validator : AllianceValidatorInfo) (s : State)
    : Outcome unit * State :=
  let current := currentBondedAmount s valAddr in
  let '(expectedBondAmount, s0) :=
    expectedBondLoop ctx nativeBondAmount unbondedValidatorShares validator assets
      LegacyZeroDec s in
  if current <? expectedBondAmount then
    let bondAmount := DecTruncateInt (expectedBondAmount - current) in
    if bondAmount =? 0 then (Ok tt, s0)
    else
      let s1 := MintCoins ModuleName {[bondDenom s0 := bondAmount]} s0 in
      match ClaimValidatorRewards valAddr s1 with
      | (Ok _, s2) => Delegate valAddr bondAmount s2
      | (Err e, s2) => (Err e, s2)
      | (Panic, s2) => (Panic, s2)
      end
  else if expectedBondAmount <? current then
    let unbondAmount := DecTruncateInt (current - expectedBondAmount) in
    if unbondAmount =? 0 then (Ok tt, s0)
    else
      match ValidateUnbondAmount valAddr unbondAmount s0 with
      | Ok sharesToUnbond =>
        match ClaimValidatorRewards valAddr s0 with
        | (Ok _, s1) =>
          match Unbond valAddr sharesToUnbond s1 with
          | (Ok tokensToBurn, s2) =>
            BurnCoins BondedPoolName {[bondDenom s2 := tokensToBurn]} s2
          | (Err e, s2) => (Err e, s2)
          | (Panic, s2) => (Panic, s2)
          end
        | (Err e, s1) => (Err e, s1)
        | (Panic, s1) => (Panic, s1)
        end
      | Err e => (Err e, s0)
      | Panic => (Panic, s0)
      end
  else (Ok tt, s0).

Fixpoint rebalanceLoop (ctx : Ctx) (nativeBondAmount : Z)
    (unbondedValidatorShares : gmap string Z) (assets : list AllianceAsset)
    (bondedValidators : list (string * AllianceValidatorInfo)) (s : State)
    : Outcome unit * State :=
  match bondedValidators with
  | [] => (Ok tt, s)
  | (valAddr, validator) :: rest =>
    match rebalanceValidator ctx nativeBondAmount unbondedValidatorShares assets
            valAddr validator s with
    | (Ok _, s1) =>
      rebalanceLoop ctx nativeBondAmount unbondedValidatorShares assets rest s1
    | (r, s1) => (r, s1)
    end
  end.

Definition RebalanceBondTokenWeights (ctx : Ctx) (assets : list AllianceAsset)
    (s : State) : Outcome unit * State :=
  let allianceBondAmount := GetAllianceBondedAmount s in
  let totalBondedTokens := TotalBondedTokens s in
  let nativeBondAmount := totalBondedTokens - allianceBondAmount in
  match partitionValidators s (AllianceValidatorInfos s) [] ∅ with
  | Ok (bondedValidators, unbondedValidatorShares) =>
    rebalanceLoop ctx nativeBondAmount unbondedValidatorShares assets
      bondedValidators s
  | Err e => (Err e, s)
  | Panic => (Panic, s)
  end.

Definition RebalanceHook (ctx : Ctx) (assets : list AllianceAsset) (s : State)
    : Outcome unit * State :=
  match ConsumeAssetRebalanceEvent s with
  | (true, s') => RebalanceBondTokenWeights ctx assets s'
  | (false, s') => (Ok tt, s')
  end.

(** Two stores that differ at most in the pending-rebalance flag. *)
Definition eqModQueue (s t : State) : Prop :=
  set_rebalanceQueued false s = set_rebalanceQueued false t.

(** The stake bonded on the validators of status [st] in a stake map. *)
Definition bondedSum (st : string -> bool) (m : gmap string Z) : Z :=
  map_fold (fun valAddr amount total => if st valAddr then total + amount else total) 0 m.

(** The shares in denom [d] of the validators of [keys] that are not bonded. *)
Definition unbondedSum (s : State) (d : string) (keys : list string) : Z :=
  foldr (fun v total =>
           if IsBonded s v then total
           else total + AmountOf (ValidatorShares (InfoOf s v)) d) 0 keys.

(** The record that [UpdateAllianceAsset] stores: the stored asset with the
    whitelisted fields of the update. *)
Definition mergeUpdate (ctx : Ctx) (asset newAsset : AllianceAsset) : AllianceAsset :=
  mkAsset (Denom asset) (RewardWeight newAsset) (TakeRate newAsset)
    (TotalTokens asset) (TotalValidatorShares asset) (RewardStartTime asset)
    (RewardChangeRate newAsset) (RewardChangeInterval newAsset)
    (if negb (RewardChangeRate newAsset =? RewardChangeRate asset)
        || negb (RewardChangeInterval newAsset =? RewardChangeInterval asset)
     then
       if (RewardChangeRate asset =? LegacyOneDec)
          || (RewardChangeInterval asset =? 0)
       then BlockTime ctx
       else LastRewardChangeTime newAsset
     else LastRewardChangeTime newAsset)
    (RewardWeightRange_ asset) (IsInitialized asset).

(** The asset is due for a change of its reward weight: the hook skips
    neither on the schedule nor on the time. *)
Definition decayDue (ctx : Ctx) (asset : AllianceAsset) : bool :=
  negb ((RewardChangeInterval asset =? 0)
        || (RewardChangeRate asset =? LegacyOneDec))
  && negb (TimeAfter (TimeAdd (LastRewardChangeTime asset)
                        (RewardChangeInterval asset)) (BlockTime ctx)).

(** The power of the change rate, or the product of the reward weight with
    it, exceeds the bit-length limit. *)
Definition decayOverflows (ctx : Ctx) (asset : AllianceAsset) : bool :=
  let intervalsSinceLastClaim :=
    toUint64 (Z.quot (TimeSub (BlockTime ctx) (LastRewardChangeTime asset))
                (RewardChangeInterval asset)) in
  match DecPower (RewardChangeRate asset) intervalsSinceLastClaim with
  | None => true
  | Some multiplier =>
    match DecMul (RewardWeight asset) multiplier with
    | None => true
    | Some _ => false
    end
  end.

(** What one turn of the loop of [RewardWeightChangeHook] leaves in the
    slice for an asset when the turn does not panic. *)
Definition decayAsset (ctx : Ctx) (asset : AllianceAsset) : AllianceAsset :=
  if (RewardChangeInterval asset =? 0)
     || (RewardChangeRate asset =? LegacyOneDec) then asset
  else if TimeAfter (TimeAdd (LastRewardChangeTime asset)
                       (RewardChangeInterval asset)) (BlockTime ctx) then asset
  else
    let intervalsSinceLastClaim :=
      toUint64 (Z.quot (TimeSub (BlockTime ctx) (LastRewardChangeTime asset))
                  (RewardChangeInterval asset)) in
    let w0 := DecMulRaw (RewardWeight asset)
                (DecPowerRaw (RewardChangeRate asset) intervalsSinceLastClaim) in
    let w1 := if w0 <? Min (RewardWeightRange_ asset)
              then Min (RewardWeightRange_ asset) else w0 in
    let w2 := if Max (RewardWeightRange_ asset) <? w1
              then Max (RewardWeightRange_ asset) else w1 in
    withLastRewardChangeTime (withRewardWeight asset w2)
      (TimeAdd (LastRewardChangeTime asset)
         (DurationMul (RewardChangeInterval asset)
            (toInt64 intervalsSinceLastClaim))).

(** ** Coherence of the registry and of a slice of asset pointers *)

(** The registry holds every asset under its own denom, as [SetAsset]
    writes it (the key is [GetAssetKey(asset.Denom)]). *)
Definition keyedByDenom (s : State) : Prop :=
  map_Forall (fun denom asset => Denom asset = denom) (assets s).

(** A slice of asset pointers agrees with the registry: the denoms are
    distinct and every element is the record stored under its denom. *)
Definition coherent (s : State) (slice : list AllianceAsset) : Prop :=
  NoDup (Denom <$> slice) /\
  forall a, a ∈ slice -> GetAssetByDenom s (Denom a) = Some a.

(** Every validator of the share ledger can be settled: the bonding
    subsystem knows it, the distribution subsystem does not fail, what has
    accrued is not negative, and the module account holds no negative
    amount. *)
Definition settles (s : State) : Prop :=
  (forall v, is_Some (validatorInfos s !! v) -> is_Some (bondedStatus s !! v)) /\
  (forall v, distribution s !! v <> Some Failing) /\
  (forall v c d, distribution s !! v = Some (Accrued c) -> 0 <= AmountOf c d) /\
  (forall d, 0 <= AmountOf (BalanceOf s ModuleName) d).

(** What one turn of the loop of [InitializeAllianceAssets] leaves in the
    slice for an asset. *)
Definition initializeAsset (ctx : Ctx) (asset : AllianceAsset) : AllianceAsset :=
  if IsInitialized asset || negb (RewardsStarted asset (BlockTime ctx)) then asset
  else withIsInitialized asset true.

(** The durations of the stored parameters pass the check of [SetParams]. *)
Definition validParams (s : State) : Prop :=
  ValidatePositiveDuration (RewardDelayTime (params s)) = true /\
  ValidatePositiveDuration (TakeRateClaimInterval (params s)) = true.

(** ** End of block (abci.go) *)

(** The completion of matured redelegations and undelegations is not among
    the sources: the two calls that open [EndBlocker] are parameters. *)
Variable CompleteRedelegations : Ctx -> State -> State.
Variable CompleteUndelegations : Ctx -> State -> Outcome unit * State.

(** [EndBlocker] runs the hooks in order on one slice of asset pointers and
    panics on the error of any of them; it returns no validator updates. *)
Definition EndBlocker (ctx : Ctx) (s : State) : Outcome unit * State :=
  let s0 := CompleteRedelegations ctx s in
  match CompleteUndelegations ctx s0 with
  | (Ok _, s1) =>
    let assets := GetAllAssets s1 in
    let '(assets1, s2) := InitializeAllianceAssets ctx assets s1 in
    match DeductAssetsHook ctx assets1 s2 with
    | (Ok _, assets2, s3) =>
      match RewardWeightChangeHook ctx assets2 s3 with
      | (Ok _, assets3, s4) =>
        match RebalanceHook ctx assets3 s4 with
        | (Ok _, s5) => (Ok tt, s5)
        | (_, s5) => (Panic, s5)
        end
      | (_, _, s4) => (Panic, s4)
      end
    | (_, _, s3) => (Panic, s3)
    end
  | (_, s1) => (Panic, s1)
  end.

(** ** Example stores

    One asset of denom [alliance] with reward weight 2 and range [0, 5],
    held by one bonded validator, as the tests of the keeper set up. *)

(** A check of durations that accepts those that are not negative. *)
Definition nonNegativeDuration (d : Duration) : bool := 0 <=? d.

Definition exampleDenom : string := "alliance".
Definition exampleValidator : string := "val1".
Definition exampleDelegator : string := "user1".
Definition exampleDepositor : string := "mint".
Definition exampleBondDenom : string := "stake".

(** The asset, with [tokens] staked one for one with shares, a take rate
    and a decay schedule. *)
Definition exampleAsset (tokens : Z) (takeRate changeRate : Dec)
    (changeInterval : Duration) : AllianceAsset :=
  mkAsset exampleDenom (LegacyNewDec 2) takeRate tokens (LegacyNewDecFromInt tokens)
    1 changeRate changeInterval 1000 (mkRange (LegacyNewDec 0) (LegacyNewDec 5)) true.

(** The store that holds [asset] alone: its tokens are in the module
    account, the validator holds all of its shares, one unit of time has
    passed since genesis, the claim interval is 300 and the last claim was at
    time 1000; the bonded pool holds 1,000,000 native tokens. *)
Definition exampleStore (asset : AllianceAsset) : State :=
  mkState {[Denom asset := asset]} (mkParams 0 300 1000) false
    {[exampleValidator :=
        mkInfo ∅ {[Denom asset := TotalValidatorShares asset]}
          {[Denom asset := TotalValidatorShares asset]}]}
    ∅
    {[(exampleDelegator, exampleValidator, Denom asset) :=
        mkDelegation (TotalValidatorShares asset) ∅ 1]}
    {[ModuleName := {[Denom asset := TotalTokens asset]};
      BondedPoolName := {[exampleBondDenom := 1000000]};
      exampleDepositor := {[exampleBondDenom := 4000000]}]}
    {[Denom asset := TotalTokens asset; exampleBondDenom := 5000000]}
    ∅ exampleBondDenom {[exampleValidator := true]} ∅.

Definition halfDec : Dec := LegacyNewDecWithPrec 5 1.

(** An update record that sets the reward weight to [w], within the range
    [0, 12] that it carries. *)
Definition weightUpdate (w : Z) : AllianceAsset :=
  mkAsset exampleDenom (LegacyNewDec w) 0 0 0 1 LegacyOneDec 0 1000
    (mkRange (LegacyNewDec 0) (LegacyNewDec 12)) false.

(** The store of a delegation of 1,000,000 tokens settled at height 1, for
    which the bonding subsystem has accrued 2,000,000 native tokens since;
    the rewards pool, shared by all validators, holds 20,000,000. *)
Definition rewardStore : State :=
  set_bank (insert RewardsPoolName {[exampleBondDenom := 20000000]})
    (set_distribution
       (insert exampleValidator (Accrued {[exampleBondDenom := 2000000]}))
       (exampleStore (exampleAsset 1000000 0 LegacyOneDec 0))).

(** Two changes of the reward weight, to 10 at height [h1] and to 5 at
    height [h2], followed by a claim of the delegation at height 4. *)
Definition storeAfterTwoChanges (h1 h2 : Z) : State :=
  let s1 := (UpdateAllianceAsset (mkCtx 1400 h1) (weightUpdate 10) rewardStore).2 in
  (UpdateAllianceAsset (mkCtx 1400 h2) (weightUpdate 5) s1).2.

Definition claimAfterTwoChanges (h1 h2 : Z) : Outcome Coins * State :=
  ClaimDelegationRewards (mkCtx 1400 4) exampleDelegator exampleValidator
    exampleDenom (storeAfterTwoChanges h1 h2).

(** ** Theorems *)

(** *** Facts about the decimal arithmetic *)

Section DecFacts.

Lemma precision_eq : precisionReuse = 2 * fivePrecision.
Proof. reflexivity. Qed.

Lemma precision_pos : 0 < fivePrecision.
Proof. reflexivity. Qed.

(** The rounding of a non-negative magnitude, as a relation on the
    quotient and the remainder. *)
Lemma chopRoundMag_spec (d : Z) :
  0 <= d ->
  exists q r, d = q * precisionReuse + r /\ 0 <= r < precisionReuse /\ 0 <= q /\
    ((2 * r < precisionReuse /\ chopRoundMag d = q) \/
     (2 * r > precisionReuse /\ chopRoundMag d = q + 1) \/
     (2 * r = precisionReuse /\ Z.odd q = false /\ chopRoundMag d = q) \/
     (2 * r = precisionReuse /\ Z.odd q = true /\ chopRoundMag d = q + 1)).
Proof.
  intros Hd. exists (Z.quot d precisionReuse), (Z.rem d precisionReuse).
  assert (HP : 0 < precisionReuse) by reflexivity.
  pose proof (Z.quot_rem' d precisionReuse) as Hqr.
  pose proof (Z.rem_bound_pos d precisionReuse Hd HP) as Hr.
  pose proof (Z.quot_pos d precisionReuse Hd HP) as Hq.
  split; [lia|]. split; [lia|]. split; [lia|].
  unfold chopRoundMag. cbv zeta.
  destruct (Z.eqb_spec (Z.rem d precisionReuse) 0) as [E|E].
  - left. rewrite E. split; [reflexivity|reflexivity].
  - rewrite precision_eq in *.
    destruct (Z.compare_spec (Z.rem d (2 * fivePrecision)) fivePrecision) as [C|C|C].
    + rewrite Z.bit0_odd. destruct (Z.odd _) eqn:O.
      * right; right; right. lia.
      * right; right; left. lia.
    + left. lia.
    + right; left. lia.
Qed.

Lemma chopRoundMag_nonneg (d : Z) : 0 <= d -> 0 <= chopRoundMag d.
Proof.
  intros Hd. destruct (chopRoundMag_spec d Hd) as (q & r & ? & ? & ? & H). lia.
Qed.

Lemma chopRoundMag_mono (a b : Z) :
  0 <= a -> a <= b -> chopRoundMag a <= chopRoundMag b.
Proof.
  intros Ha Hab.
  destruct (chopRoundMag_spec a Ha) as (qa & ra & Ea & Ra & Qa & Ca).
  destruct (chopRoundMag_spec b ltac:(lia)) as (qb & rb & Eb & Rb & Qb & Cb).
  assert (HP : 0 < precisionReuse) by reflexivity.
  assert (qa <= qb) by nia.
  destruct (Z.eq_dec qa qb) as [->|Hne].
  - assert (ra <= rb) by lia.
    destruct Ca as [?|[?|[(?&?&?)|(?&?&?)]]], Cb as [?|[?|[(?&?&?)|(?&?&?)]]];
      try lia; congruence.
  - lia.
Qed.

Lemma chopPrecisionAndRound_nonneg (d : Z) :
  0 <= d -> chopPrecisionAndRound d = chopRoundMag d.
Proof. intros. unfold chopPrecisionAndRound. destruct (Z.ltb_spec d 0); [lia|done]. Qed.

Lemma chopPrecisionAndRound_mono (a b : Z) :
  a <= b -> chopPrecisionAndRound a <= chopPrecisionAndRound b.
Proof.
  intros Hab. unfold chopPrecisionAndRound.
  destruct (Z.ltb_spec a 0), (Z.ltb_spec b 0).
  - pose proof (chopRoundMag_mono (- b) (- a)). lia.
  - pose proof (chopRoundMag_nonneg (- a)). pose proof (chopRoundMag_nonneg b). lia.
  - lia.
  - apply chopRoundMag_mono; lia.
Qed.

Lemma chopPrecisionAndRound_exact (k : Z) :
  chopPrecisionAndRound (k * precisionReuse) = k.
Proof.
  assert (HP : 0 < precisionReuse) by reflexivity.
  assert (Hm : forall j, 0 <= j -> chopRoundMag (j * precisionReuse) = j).
  { intros j Hj. destruct (chopRoundMag_spec (j * precisionReuse) ltac:(nia))
      as (q & r & E & R & Q & C).
    assert (q = j) by nia. subst q. assert (r = 0) by lia. subst r.
    lia. }
  unfold chopPrecisionAndRound. destruct (Z.ltb_spec (k * precisionReuse) 0).
  - replace (- (k * precisionReuse)) with ((- k) * precisionReuse) by lia.
    rewrite Hm; nia.
  - apply Hm. nia.
Qed.

(** A magnitude of at most one half rounds to zero, a larger one does not. *)
Lemma chopRoundMag_zero_iff (d : Z) :
  0 <= d -> (chopRoundMag d = 0 <-> 2 * d <= precisionReuse).
Proof.
  intros Hd. destruct (chopRoundMag_spec d Hd) as (q & r & E & R & Q & C).
  assert (HP : 0 < precisionReuse) by reflexivity.
  split.
  - intros Hz. assert (q = 0) by lia. subst q. lia.
  - intros Hle. assert (q = 0) by nia. subst q.
    destruct C as [?|[?|[(?&?&?)|(?&O&?)]]]; try lia. discriminate O.
Qed.

End DecFacts.

(** *** Share and token conversions (C8) *)

Section Conversions.


Lemma DecMulRaw_zero_l (y : Dec) : DecMulRaw 0 y = 0.
Proof. reflexivity. Qed.





Lemma ConvertNewShareToDecToken_total (totalTokens totalShares shares : Dec) :
  is_Some (ConvertNewShareToDecToken totalTokens totalShares shares).
Proof.
  unfold ConvertNewShareToDecToken, DecIsZero, DecQuo.
  destruct (Z.eqb_spec totalShares 0); [eauto|].
  destruct (Z.eqb_spec totalShares 0); [contradiction|]. simpl. eauto.
Qed.

Lemma ConvertNewTokenToShares_pool (T S : Dec) (n : Z) :
  0 < T ->
  ConvertNewTokenToShares T S n
  = Some (if S =? 0 then n * precisionReuse else DecQuoRaw S T * n).
Proof.
  intros HT. unfold ConvertNewTokenToShares, DecIsZero, DecQuo, LegacyNewDecFromInt, DecMulInt.
  destruct (Z.eqb_spec S 0); [reflexivity|].
  destruct (Z.eqb_spec T 0); [lia|reflexivity].
Qed.

Lemma ConvertNewShareToDecToken_pool (T S x : Dec) :
  0 < S ->
  ConvertNewShareToDecToken T S x = Some (DecMulRaw (DecQuoRaw x S) T).
Proof.
  intros HS. unfold ConvertNewShareToDecToken, DecIsZero, DecQuo.
  destruct (Z.eqb_spec S 0); [lia|reflexivity].
Qed.




End Conversions.

(** *** Coins *)

Section CoinsFacts.

Lemma AmountOf_empty (d : string) : AmountOf ∅ d = 0.
Proof. unfold AmountOf. by rewrite lookup_empty. Qed.

Lemma AmountOf_CoinsAdd (c : Coins) (d : string) (a : Z) (d' : string) :
  AmountOf (CoinsAdd c d a) d'
  = if decide (d = d') then AmountOf c d + a else AmountOf c d'.
Proof.
  unfold CoinsAdd, AmountOf. cbv zeta.
  destruct (Z.eqb_spec (default 0 (c !! d) + a) 0) as [E|E]; case_decide as Hd; subst.
  - rewrite lookup_delete_eq. simpl. lia.
  - by rewrite lookup_delete_ne.
  - by rewrite lookup_insert_eq.
  - by rewrite lookup_insert_ne.
Qed.

Lemma AmountOf_insert (m : Coins) (i : string) (v : Z) (d : string) :
  AmountOf (<[i := v]> m) d = if decide (i = d) then v else AmountOf m d.
Proof.
  unfold AmountOf. case_decide; subst.
  - by rewrite lookup_insert_eq.
  - by rewrite lookup_insert_ne.
Qed.

Lemma AmountOf_None (m : Coins) (d : string) : m !! d = None -> AmountOf m d = 0.
Proof. unfold AmountOf. by intros ->. Qed.

Lemma AmountOf_CoinsAddAll (c x : Coins) (d : string) :
  AmountOf (CoinsAddAll c x) d = AmountOf c d + AmountOf x d.
Proof.
  unfold CoinsAddAll.
  apply (map_fold_weak_ind (fun r (m : Coins) => AmountOf r d = AmountOf c d + AmountOf m d)).
  - rewrite AmountOf_empty. lia.
  - intros i v m r Hi IH. rewrite AmountOf_CoinsAdd, AmountOf_insert.
    case_decide as Hd; subst; [|exact IH].
    rewrite IH, (AmountOf_None m d Hi). lia.
Qed.

Lemma AmountOf_CoinsSubAll (c x : Coins) (d : string) :
  AmountOf (CoinsSubAll c x) d = AmountOf c d - AmountOf x d.
Proof.
  unfold CoinsSubAll.
  apply (map_fold_weak_ind (fun r (m : Coins) => AmountOf r d = AmountOf c d - AmountOf m d)).
  - rewrite AmountOf_empty. lia.
  - intros i v m r Hi IH. rewrite AmountOf_CoinsAdd, AmountOf_insert.
    case_decide as Hd; subst; [|exact IH].
    rewrite IH, (AmountOf_None m d Hi). lia.
Qed.

(** A coin bundle with an amount different from zero is not empty. *)
Lemma AmountOf_nonzero_not_empty (c : Coins) (d : string) :
  AmountOf c d <> 0 -> CoinsEmpty c = false /\ CoinsIsZero c = false.
Proof.
  intros H. unfold CoinsEmpty, CoinsIsZero, AmountOf in *.
  destruct (c !! d) as [v|] eqn:E; [|done]. simpl in H. split.
  - apply bool_decide_eq_false. intros ->. by rewrite lookup_empty in E.
  - apply bool_decide_eq_false. intros HF. apply H. by apply (HF d v).
Qed.

End CoinsFacts.

(** *** Machine integers *)

Section MachineIntegers.

Lemma toUint64_small (z : Z) : 0 <= z <= maxInt64 -> toUint64 z = z.
Proof. intros H. unfold toUint64, maxInt64 in *. apply Z.mod_small. lia. Qed.

Lemma toInt64_small (z : Z) : minInt64 <= z <= maxInt64 -> toInt64 z = z.
Proof.
  intros H. unfold toInt64, minInt64, maxInt64 in *.
  rewrite Z.mod_small; lia.
Qed.

Lemma TimeSub_small (t u : Time) : minInt64 <= t - u <= maxInt64 -> TimeSub t u = t - u.
Proof. intros H. unfold TimeSub. lia. Qed.

Lemma TimeSub_mono (t t' u : Time) : t <= t' -> TimeSub t u <= TimeSub t' u.
Proof. intros H. unfold TimeSub. lia. Qed.

(** The number of whole intervals between two instants, as the hooks compute
    it, and the time they advance to. *)
Lemma intervals_in_range (now last interval : Z) :
  0 < interval -> last + interval <= now -> now - last <= maxInt64 ->
  let n := (now - last) / interval in
  toUint64 (Z.quot (TimeSub now last) interval) = n /\
  1 <= n /\
  TimeAdd last (DurationMul interval (toInt64 n)) = last + n * interval.
Proof.
  intros Hi Hl Hm n. assert (Hmin : minInt64 < 0) by reflexivity.
  assert (Hmax : 0 < maxInt64) by reflexivity.
  rewrite TimeSub_small by lia. rewrite Z.quot_div_nonneg by lia. fold n.
  assert (Hn1 : 1 <= n). { apply Z.div_le_lower_bound; lia. }
  assert (Hn2 : n * interval <= now - last).
  { pose proof (Z.mul_div_le (now - last) interval Hi). subst n. lia. }
  assert (Hn3 : n <= maxInt64) by nia.
  split; [apply toUint64_small; lia|]. split; [exact Hn1|].
  unfold TimeAdd, DurationMul. rewrite (toInt64_small n) by lia.
  rewrite toInt64_small by nia. lia.
Qed.

End MachineIntegers.

(** *** Powers of a rate between zero and one *)

Section UnitPowers.

Lemma DecMulRaw_unit (x y : Dec) :
  0 <= x <= precisionReuse -> 0 <= y <= precisionReuse ->
  0 <= DecMulRaw x y <= x.
Proof.
  intros Hx Hy. unfold DecMulRaw. split.
  - change 0 with (chopPrecisionAndRound 0) at 1. apply chopPrecisionAndRound_mono. nia.
  - rewrite <- (chopPrecisionAndRound_exact x) at 2. apply chopPrecisionAndRound_mono. nia.
Qed.

Lemma DecMulRaw_comm (x y : Dec) : DecMulRaw x y = DecMulRaw y x.
Proof. unfold DecMulRaw. by rewrite Z.mul_comm. Qed.

Lemma PowerLoopRaw_unit (i : positive) : forall d tmp : Dec,
  0 <= d <= precisionReuse -> 0 <= tmp <= precisionReuse ->
  0 <= PowerLoopRaw d tmp i <= d.
Proof.
  induction i as [i IH|i IH|]; intros d tmp Hd Ht; simpl.
  - pose proof (DecMulRaw_unit d d Hd Hd). pose proof (DecMulRaw_unit tmp d Ht Hd).
    pose proof (IH (DecMulRaw d d) (DecMulRaw tmp d) ltac:(lia) ltac:(lia)). lia.
  - pose proof (DecMulRaw_unit d d Hd Hd).
    pose proof (IH (DecMulRaw d d) tmp ltac:(lia) ltac:(lia)). lia.
  - apply DecMulRaw_unit; assumption.
Qed.

Lemma DecPowerRaw_unit (b : Dec) (n : Z) :
  0 <= b <= precisionReuse ->
  0 <= DecPowerRaw b n <= precisionReuse /\ (0 < n -> DecPowerRaw b n <= b).
Proof.
  intros Hb. assert (HP : 0 < precisionReuse) by reflexivity.
  destruct n as [|p|p]; simpl; unfold LegacyOneDec.
  - split; [lia|lia].
  - pose proof (PowerLoopRaw_unit p b precisionReuse Hb ltac:(lia)). split; [lia|]. lia.
  - split; [lia|lia].
Qed.

End UnitPowers.

(** *** The bit-length limit of products and powers *)

Section Overflow.

(** A product or a power that has a result has the value of the unchecked
    operation. *)
Lemma DecMul_Some (x y r : Dec) : DecMul x y = Some r -> r = DecMulRaw x y.
Proof. unfold DecMul. cbv zeta. destruct (_ <? _); congruence. Qed.

Lemma PowerLoop_Some (i : positive) : forall d tmp r : Dec,
  PowerLoop d tmp i = Some r -> r = PowerLoopRaw d tmp i.
Proof.
  induction i as [i IH|i IH|]; intros d tmp r H; simpl in *.
  - destruct (DecMul tmp d) as [t'|] eqn:E1; [|done]. simpl in H.
    destruct (DecMul d d) as [d2|] eqn:E2; [|done]. simpl in H.
    apply DecMul_Some in E1, E2. subst. by apply IH.
  - destruct (DecMul d d) as [d2|] eqn:E2; [|done]. simpl in H.
    apply DecMul_Some in E2. subst. by apply IH.
  - by apply DecMul_Some.
Qed.

Lemma DecPower_Some (d : Dec) (n : Z) (r : Dec) :
  DecPower d n = Some r -> r = DecPowerRaw d n.
Proof.
  destruct n as [|p|p]; simpl; [congruence| |congruence]. apply PowerLoop_Some.
Qed.

(** A magnitude below [2^maxDecBitLen] is within the limit. *)
Lemma BitLen_within (x : Z) :
  Z.abs x < 2 ^ maxDecBitLen -> (maxDecBitLen <? BitLen x) = false.
Proof.
  intros Hx. unfold BitLen. destruct (Z.eqb_spec x 0); [reflexivity|].
  apply Z.ltb_ge. assert (Hpos : 0 < Z.abs x) by lia.
  apply (Z.log2_lt_pow2 _ _ Hpos) in Hx. lia.
Qed.

Lemma BitLen_beyond (x : Z) :
  2 ^ maxDecBitLen <= Z.abs x -> (maxDecBitLen <? BitLen x) = true.
Proof.
  intros Hx. unfold BitLen.
  assert (Hp : 0 < 2 ^ maxDecBitLen) by reflexivity.
  destruct (Z.eqb_spec x 0); [lia|].
  apply Z.ltb_lt. assert (Hpos : 0 < Z.abs x) by lia.
  apply (Z.log2_le_pow2 _ _ Hpos) in Hx. lia.
Qed.

Lemma DecMul_within (x y : Dec) :
  Z.abs (DecMulRaw x y) < 2 ^ maxDecBitLen -> DecMul x y = Some (DecMulRaw x y).
Proof. intros H. unfold DecMul. cbv zeta. by rewrite BitLen_within. Qed.

(** Products and powers of numbers between zero and one stay within the
    limit. *)
Lemma DecMul_unit_Some (x y : Dec) :
  0 <= x <= precisionReuse -> 0 <= y <= precisionReuse ->
  DecMul x y = Some (DecMulRaw x y).
Proof.
  intros Hx Hy. apply DecMul_within. pose proof (DecMulRaw_unit x y Hx Hy).
  assert (precisionReuse < 2 ^ maxDecBitLen) by reflexivity. lia.
Qed.

Lemma PowerLoop_unit_Some (i : positive) : forall d tmp : Dec,
  0 <= d <= precisionReuse -> 0 <= tmp <= precisionReuse ->
  PowerLoop d tmp i = Some (PowerLoopRaw d tmp i).
Proof.
  induction i as [i IH|i IH|]; intros d tmp Hd Ht; simpl.
  - pose proof (DecMulRaw_unit d d Hd Hd). pose proof (DecMulRaw_unit tmp d Ht Hd).
    rewrite (DecMul_unit_Some tmp d Ht Hd), (DecMul_unit_Some d d Hd Hd). simpl.
    apply IH; lia.
  - pose proof (DecMulRaw_unit d d Hd Hd).
    rewrite (DecMul_unit_Some d d Hd Hd). simpl. apply IH; lia.
  - by apply DecMul_unit_Some.
Qed.

(** A factor between zero and one does not increase a magnitude. *)
Lemma DecMulRaw_abs_le (x y : Dec) :
  0 <= y <= precisionReuse -> Z.abs (DecMulRaw x y) <= Z.abs x.
Proof.
  intros Hy. unfold DecMulRaw.
  pose proof (chopPrecisionAndRound_exact x) as Hx.
  assert (H0 : chopPrecisionAndRound 0 = 0) by reflexivity.
  assert (HP : 0 < precisionReuse) by reflexivity.
  destruct (Z.le_gt_cases 0 x).
  - pose proof (chopPrecisionAndRound_mono 0 (x * y) ltac:(nia)).
    pose proof (chopPrecisionAndRound_mono (x * y) (x * precisionReuse) ltac:(nia)).
    lia.
  - pose proof (chopPrecisionAndRound_mono (x * y) 0 ltac:(nia)).
    pose proof (chopPrecisionAndRound_mono (x * precisionReuse) (x * y) ltac:(nia)).
    lia.
Qed.

Lemma DecPower_unit_Some (b : Dec) (n : Z) :
  0 <= b <= precisionReuse -> DecPower b n = Some (DecPowerRaw b n).
Proof.
  intros Hb. destruct n as [|p|p]; simpl; [done| |done].
  apply PowerLoop_unit_Some; [done|]. unfold LegacyOneDec, precisionReuse. lia.
Qed.

End Overflow.

(** *** Take-rate engine (C3, C4, C10) *)

Section TakeRate.

Lemma set_assets_id (s : State) : set_assets (fun m => m) s = s.
Proof. by destruct s. Qed.

Lemma taxable_inv (ctx : Ctx) (a : AllianceAsset) :
  taxable ctx a = true ->
  0 < TotalTokens a /\ 0 < TakeRate a /\ RewardsStarted a (BlockTime ctx) = true.
Proof.
  unfold taxable, DecIsPositive. intros H.
  apply andb_prop in H as [H H3]. apply andb_prop in H as [H1 H2].
  apply Z.ltb_lt in H1, H2. done.
Qed.

Lemma taxAsset_changed (ctx : Ctx) (n : Z) (a : AllianceAsset) :
  taxable ctx a = true -> LegacyOneDec < postTaxAmount n a ->
  taxAsset ctx n a = withTotalTokens a (DecTruncateInt (postTaxAmount n a)).
Proof.
  intros Ht Hp. unfold taxAsset. rewrite Ht. simpl.
  by destruct (Z.ltb_spec LegacyOneDec (postTaxAmount n a)); [|lia].
Qed.

Lemma taxAsset_skipped (ctx : Ctx) (n : Z) (a : AllianceAsset) :
  taxable ctx a = false \/ postTaxAmount n a <= LegacyOneDec ->
  taxAsset ctx n a = a.
Proof.
  intros H. unfold taxAsset. destruct (taxable ctx a); [|done]. simpl.
  destruct (Z.ltb_spec LegacyOneDec (postTaxAmount n a)); [|done].
  destruct H; [done|lia].
Qed.

Lemma taxAsset_Denom (ctx : Ctx) (n : Z) (a : AllianceAsset) :
  Denom (taxAsset ctx n a) = Denom a.
Proof. unfold taxAsset. by destruct (_ && _). Qed.

(** An asset above the floor keeps at least one token. *)
Lemma taxAsset_floor (ctx : Ctx) (n : Z) (a : AllianceAsset) :
  1 <= TotalTokens a -> 1 <= TotalTokens (taxAsset ctx n a).
Proof.
  intros H. unfold taxAsset. destruct (_ && _) eqn:E; [|done]. simpl.
  apply andb_prop in E as [_ E]. apply Z.ltb_lt in E.
  unfold DecTruncateInt, LegacyOneDec in *.
  apply Z.quot_le_lower_bound; [reflexivity|lia].
Qed.

(** With a take rate of at most one the tax takes tokens away, and takes at
    least one when an interval has elapsed. *)
Lemma taxAsset_le (ctx : Ctx) (n : Z) (a : AllianceAsset) :
  TakeRate a <= LegacyOneDec ->
  TotalTokens (taxAsset ctx n a) <= TotalTokens a /\
  (0 < n -> taxable ctx a = true -> LegacyOneDec < postTaxAmount n a ->
   TotalTokens (taxAsset ctx n a) < TotalTokens a).
Proof.
  intros Hr. assert (HP : 0 < precisionReuse) by reflexivity.
  destruct (taxable ctx a) eqn:Ht;
    [|rewrite taxAsset_skipped by (by left); split; [lia|done]].
  destruct (taxable_inv _ _ Ht) as (HT & HR & _).
  pose proof (DecPowerRaw_unit (LegacyOneDec - TakeRate a) n) as Hpow.
  unfold LegacyOneDec in *. specialize (Hpow ltac:(lia)). destruct Hpow as [Hp1 Hp2].
  destruct (Z.le_gt_cases (postTaxAmount n a) precisionReuse) as [Hs|Hs].
  - rewrite taxAsset_skipped by (right; exact Hs). split; [lia|]. unfold LegacyOneDec. lia.
  - rewrite taxAsset_changed by done. simpl. unfold DecTruncateInt, postTaxAmount, DecMulInt in *.
    unfold LegacyOneDec in *. split.
    + apply Z.quot_le_upper_bound; [done|nia].
    + intros Hn _ _. specialize (Hp2 Hn). apply Z.quot_lt_upper_bound; [nia|done|nia].
Qed.

Lemma deductedFor_notin (ctx : Ctx) (n : Z) (d : string) (assets : list AllianceAsset) :
  d ∉ Denom <$> assets -> deductedFor ctx n d assets = 0.
Proof.
  induction assets as [|a rest IH]; [done|]. simpl. intros Hd.
  apply not_elem_of_cons in Hd as [Hne Hd]. case_decide; [congruence|]. by apply IH.
Qed.

Lemma deductedFor_in (ctx : Ctx) (n : Z) (a : AllianceAsset) (assets : list AllianceAsset) :
  NoDup (Denom <$> assets) -> a ∈ assets ->
  deductedFor ctx n (Denom a) assets = TotalTokens a - TotalTokens (taxAsset ctx n a).
Proof.
  induction assets as [|b rest IH]; [by intros _ ?%elem_of_nil|].
  simpl. intros Hnd Hin. apply NoDup_cons in Hnd as [Hb Hnd].
  apply elem_of_cons in Hin as [->|Hin].
  - case_decide; [|done]. rewrite deductedFor_notin by done. lia.
  - case_decide as Hd.
    + exfalso. apply Hb. rewrite Hd. by apply list_elem_of_fmap_2.
    + by apply IH.
Qed.

Lemma storeAfterTax_cons (ctx : Ctx) (n : Z) (a : AllianceAsset)
    (rest : list AllianceAsset) (m : gmap string AllianceAsset) :
  storeAfterTax ctx n (a :: rest) m
  = storeAfterTax ctx n rest
      (if taxable ctx a && (LegacyOneDec <? postTaxAmount n a)
       then <[Denom a := taxAsset ctx n a]> m else m).
Proof. reflexivity. Qed.

Lemma set_assets_storeAfterTax_cons (ctx : Ctx) (n : Z) (a : AllianceAsset)
    (rest : list AllianceAsset) (s : State) :
  set_assets (storeAfterTax ctx n (a :: rest)) s
  = set_assets (storeAfterTax ctx n rest)
      (if taxable ctx a && (LegacyOneDec <? postTaxAmount n a)
       then SetAsset (taxAsset ctx n a) s else s).
Proof.
  unfold set_assets, SetAsset. rewrite storeAfterTax_cons.
  destruct (_ && _) eqn:E; [|done]. simpl. by rewrite taxAsset_Denom.
Qed.

Lemma storeAfterTax_notin (ctx : Ctx) (n : Z) (assets : list AllianceAsset) :
  forall (m : gmap string AllianceAsset) (d : string),
  d ∉ Denom <$> assets -> storeAfterTax ctx n assets m !! d = m !! d.
Proof.
  induction assets as [|a rest IH]; intros m d Hd; [done|].
  simpl in Hd. apply not_elem_of_cons in Hd as [Hne Hd].
  rewrite storeAfterTax_cons, IH by done.
  destruct (_ && _); [|done]. by rewrite lookup_insert_ne.
Qed.

Lemma storeAfterTax_in (ctx : Ctx) (n : Z) (assets : list AllianceAsset) :
  forall (m : gmap string AllianceAsset) (a : AllianceAsset),
  NoDup (Denom <$> assets) -> a ∈ assets ->
  taxable ctx a = true -> LegacyOneDec < postTaxAmount n a ->
  storeAfterTax ctx n assets m !! Denom a = Some (taxAsset ctx n a).
Proof.
  induction assets as [|b rest IH]; intros m a Hnd Hin Ht Hp; [by apply elem_of_nil in Hin|].
  simpl in Hnd. apply NoDup_cons in Hnd as [Hb Hnd].
  apply elem_of_cons in Hin as [->|Hin].
  - rewrite storeAfterTax_cons, storeAfterTax_notin by done. rewrite Ht. simpl.
    destruct (Z.ltb_spec LegacyOneDec (postTaxAmount n b)); [|lia].
    by rewrite lookup_insert_eq.
  - rewrite storeAfterTax_cons. by apply IH.
Qed.

(** Every registry entry after the loop is an old entry or a taxed asset of
    the slice. *)
Lemma storeAfterTax_lookup (ctx : Ctx) (n : Z) (assets : list AllianceAsset) :
  forall (m : gmap string AllianceAsset) (d : string) (x : AllianceAsset),
  storeAfterTax ctx n assets m !! d = Some x ->
  m !! d = Some x \/ exists a, a ∈ assets /\ x = taxAsset ctx n a.
Proof.
  induction assets as [|b rest IH]; intros m d x Hx; [by left|].
  rewrite storeAfterTax_cons in Hx.
  apply IH in Hx as [Hx|(a & Ha & ->)].
  - destruct (_ && _); [|by left].
    destruct (decide (Denom b = d)) as [<-|Hne].
    + rewrite lookup_insert_eq in Hx. right. exists b. split; [left|congruence].
    + rewrite lookup_insert_ne in Hx by done. by left.
  - right. exists a. split; [by right|done].
Qed.

(** The loop, when no deducted amount is negative. *)
Lemma deductLoop_run (ctx : Ctx) (n : Z) (assets : list AllianceAsset) :
  forall (coins : Coins) (count : Z) (s : State),
  (forall a, a ∈ assets -> TotalTokens (taxAsset ctx n a) <= TotalTokens a) ->
  exists coins' count',
    deductLoop ctx n assets coins count s
    = (Ok (coins', count'), taxAsset ctx n <$> assets,
       set_assets (storeAfterTax ctx n assets) s) /\
    count' = count + countTaxable ctx assets /\
    (forall d, AmountOf coins' d = AmountOf coins d + deductedFor ctx n d assets) /\
    ((forall d v, coins !! d = Some v -> v <> 0) ->
     forall d v, coins' !! d = Some v -> v <> 0).
Proof.
  induction assets as [|a rest IH]; intros coins count s Hle.
  - exists coins, count. simpl. rewrite set_assets_id.
    split; [done|]. split; [lia|]. split; [intros; lia|done].
  - assert (Hrest : forall b, b ∈ rest -> TotalTokens (taxAsset ctx n b) <= TotalTokens b).
    { intros b Hb. apply Hle. by right. }
    specialize (Hle a ltac:(left)). rewrite set_assets_storeAfterTax_cons. simpl.
    destruct (taxable ctx a) eqn:Ht.
    + fold (postTaxAmount n a).
      destruct (Z.leb_spec (postTaxAmount n a) LegacyOneDec) as [Hs|Hs].
      * destruct (IH coins (count + 1) s Hrest) as (c' & k' & -> & -> & Hc & Hz).
        exists c', (count + 1 + countTaxable ctx rest).
        rewrite (taxAsset_skipped ctx n a) by (by right).
        destruct (Z.ltb_spec LegacyOneDec (postTaxAmount n a)); [lia|].
        split; [done|]. split; [lia|]. split; [|done].
        intros d. rewrite Hc. case_decide; lia.
      * rewrite (taxAsset_changed ctx n a Ht Hs) in Hle |- *. simpl in Hle.
        destruct (Z.ltb_spec (TotalTokens a - DecTruncateInt (postTaxAmount n a)) 0); [lia|].
        destruct (IH (CoinsAdd coins (Denom a)
                        (TotalTokens a - DecTruncateInt (postTaxAmount n a)))
                     (count + 1)
                     (SetAsset (withTotalTokens a (DecTruncateInt (postTaxAmount n a))) s)
                     Hrest) as (c' & k' & -> & -> & Hc & Hz).
        exists c', (count + 1 + countTaxable ctx rest).
        destruct (Z.ltb_spec LegacyOneDec (postTaxAmount n a)); [|lia].
        split; [done|]. split; [lia|]. split.
        -- intros d. rewrite Hc, AmountOf_CoinsAdd. simpl. case_decide; subst; lia.
        -- intros Hnz. apply Hz. intros d v. unfold CoinsAdd. cbv zeta.
           destruct (Z.eqb_spec (AmountOf coins (Denom a) +
             (TotalTokens a - DecTruncateInt (postTaxAmount n a))) 0) as [E|E].
           ++ intros Hd. apply lookup_delete_Some in Hd as [_ Hd]. by eapply Hnz.
           ++ intros Hd. apply lookup_insert_Some in Hd as [[_ <-]|[_ Hd]]; [done|].
              by eapply Hnz.
    + destruct (IH coins count s Hrest) as (c' & k' & -> & -> & Hc & Hz).
      exists c', (count + countTaxable ctx rest).
      rewrite (taxAsset_skipped ctx n a) by (by left).

      split; [done|]. split; [lia|]. split; [|done].
      intros d. rewrite Hc. case_decide; lia.
Qed.

Lemma countTaxable_nonneg (ctx : Ctx) (assets : list AllianceAsset) :
  0 <= countTaxable ctx assets.
Proof. induction assets as [|a rest IH]; simpl; [lia|]. destruct (taxable ctx a); lia. Qed.

Lemma countTaxable_pos (ctx : Ctx) (assets : list AllianceAsset) (a : AllianceAsset) :
  a ∈ assets -> taxable ctx a = true -> 0 < countTaxable ctx assets.
Proof.
  induction assets as [|b rest IH]; [by intros ?%elem_of_nil|].
  intros Hin Ht. simpl. pose proof (countTaxable_nonneg ctx rest).
  apply elem_of_cons in Hin as [->|Hin].
  - rewrite Ht. lia.
  - specialize (IH Hin Ht). destruct (taxable ctx b); lia.
Qed.

Lemma SendCoins_ok (from to : string) (c : Coins) (s : State) :
  from <> to ->
  (forall d v, c !! d = Some v -> v <= AmountOf (BalanceOf s from) d) ->
  exists s', SendCoins from to c s = (Ok tt, s') /\
    assets s' = assets s /\ params s' = params s /\
    BalanceOf s' from = CoinsSubAll (BalanceOf s from) c /\
    BalanceOf s' to = CoinsAddAll (BalanceOf s to) c.
Proof.
  intros Hne Hcov. unfold SendCoins.
  assert (CoinsCovered c (BalanceOf s from) = true) as ->.
  { apply bool_decide_eq_true. intros d v Hd. by apply Hcov. }
  eexists. split; [reflexivity|]. unfold BalanceOf. simpl.
  split; [done|]. split; [done|]. split.
  - rewrite lookup_insert_ne by done. by rewrite lookup_insert_eq.
  - rewrite lookup_insert_eq. by rewrite lookup_insert_ne by done.
Qed.

Lemma SetLastRewardClaimTime_ok (t : Time) (s : State) :
  ValidatePositiveDuration (RewardDelayTime (params s)) = true ->
  ValidatePositiveDuration (TakeRateClaimInterval (params s)) = true ->
  SetLastRewardClaimTime t s
  = (Ok tt, set_params (mkParams (RewardDelayTime (params s))
                          (TakeRateClaimInterval (params s)) t) s).
Proof. intros H1 H2. unfold SetLastRewardClaimTime, SetParams. simpl. by rewrite H1, H2. Qed.

(** C3 (as amended).  On an invocation of the hook where the last claim
    time is set and the block time has passed it by more than one claim
    interval, with [n] the number of whole intervals elapsed: every asset
    with positive tokens, positive take rate and rewards started whose
    post-tax amount [totalTokens * (1 - takeRate)^n] exceeds one has its
    [TotalTokens] reduced to the floor of that amount, in the slice and in
    the registry, and every other asset is left as it was; the returned coins
    are the deducted amounts; and when at least one asset was taxed, the
    coins move from the module account to the fee collector and the last
    claim time advances by exactly [n] intervals. *)
Theorem DeductAssetsHook_taxes (ctx : Ctx) (slice : list AllianceAsset) (s : State) :
  let last := LastRewardClaimTime s in
  let interval := RewardClaimInterval s in
  let n := (BlockTime ctx - last) / interval in
  last <> zeroTime -> 0 < interval ->
  last + interval < BlockTime ctx -> BlockTime ctx - last <= maxInt64 ->
  ValidatePositiveDuration (RewardDelayTime (params s)) = true ->
  ValidatePositiveDuration interval = true ->
  NoDup (Denom <$> slice) ->
  (forall a, a ∈ slice -> TakeRate a <= LegacyOneDec) ->
  (forall a, a ∈ slice ->
     TotalTokens a - TotalTokens (taxAsset ctx n a)
     <= AmountOf (BalanceOf s ModuleName) (Denom a)) ->
  exists coins s',
    DeductAssetsHook ctx slice s = (Ok coins, taxAsset ctx n <$> slice, s') /\
    (forall a, a ∈ slice -> taxable ctx a = true -> LegacyOneDec < postTaxAmount n a ->
       TotalTokens (taxAsset ctx n a) = postTaxAmount n a / precisionReuse /\
       GetAssetByDenom s' (Denom a) = Some (taxAsset ctx n a)) /\
    (forall a, a ∈ slice ->
       (taxable ctx a = false \/ postTaxAmount n a <= LegacyOneDec) ->
       taxAsset ctx n a = a /\ GetAssetByDenom s' (Denom a) = GetAssetByDenom s (Denom a)) /\
    (forall a, a ∈ slice ->
       AmountOf coins (Denom a) = TotalTokens a - TotalTokens (taxAsset ctx n a)) /\
    (forall d, d ∉ Denom <$> slice -> AmountOf coins d = 0) /\
    ((exists a, a ∈ slice /\ taxable ctx a = true /\ LegacyOneDec < postTaxAmount n a) ->
       LastRewardClaimTime s' = last + n * interval /\
       forall d,
         AmountOf (BalanceOf s' feeCollectorName) d
         = AmountOf (BalanceOf s feeCollectorName) d + AmountOf coins d /\
         AmountOf (BalanceOf s' ModuleName) d
         = AmountOf (BalanceOf s ModuleName) d - AmountOf coins d).
Proof.
  intros last interval n Hz Hi Hdue Hmax Hv1 Hv2 Hnd Hrate Hbal.
  destruct (intervals_in_range (BlockTime ctx) last interval Hi ltac:(lia) Hmax)
    as (Hn & Hn1 & Hadv). fold n in Hn, Hn1, Hadv.
  assert (Hle : forall a, a ∈ slice -> TotalTokens (taxAsset ctx n a) <= TotalTokens a).
  { intros a Ha. by apply taxAsset_le, Hrate. }
  destruct (deductLoop_run ctx n slice ∅ 0 s Hle) as (coins & cnt & Hrun & Hcnt & Hc & Hnz).
  specialize (Hnz ltac:(intros d v; by rewrite lookup_empty)).
  assert (Hamt : forall a, a ∈ slice ->
            AmountOf coins (Denom a) = TotalTokens a - TotalTokens (taxAsset ctx n a)).
  { intros a Ha. rewrite Hc, AmountOf_empty, deductedFor_in by done. lia. }
  assert (Hout : forall d, d ∉ Denom <$> slice -> AmountOf coins d = 0).
  { intros d Hd. rewrite Hc, AmountOf_empty, deductedFor_notin by done. lia. }
  assert (Hfloor : forall a, taxable ctx a = true -> LegacyOneDec < postTaxAmount n a ->
            TotalTokens (taxAsset ctx n a) = postTaxAmount n a / precisionReuse).
  { intros a Ht Hp. rewrite taxAsset_changed by done. simpl. unfold DecTruncateInt.
    unfold LegacyOneDec in Hp. apply Z.quot_div_nonneg; [|reflexivity].
    assert (0 < precisionReuse) by reflexivity. lia. }
  assert (Hstore1 : forall a, a ∈ slice -> taxable ctx a = true ->
            LegacyOneDec < postTaxAmount n a ->
            storeAfterTax ctx n slice (assets s) !! Denom a = Some (taxAsset ctx n a)).
  { intros a Ha Ht Hp. by apply storeAfterTax_in. }
  assert (Hstore2 : forall a, a ∈ slice ->
            taxable ctx a = false \/ postTaxAmount n a <= LegacyOneDec ->
            storeAfterTax ctx n slice (assets s) !! Denom a = assets s !! Denom a).
  { intros a Ha Hskip. clear -Hnd Ha Hskip. revert Hnd Ha. generalize (assets s).
    induction slice as [|b rest IH]; intros m Hnd Ha; [done|].
    simpl in Hnd. apply NoDup_cons in Hnd as [Hb Hnd]. rewrite storeAfterTax_cons.
    apply elem_of_cons in Ha as [->|Ha].
    - rewrite storeAfterTax_notin by done.
      destruct (taxable ctx b) eqn:Ht; [|done]. simpl.
      destruct (Z.ltb_spec LegacyOneDec (postTaxAmount n b)); [|done].
      destruct Hskip; [done|lia].
    - rewrite IH by done. destruct (_ && _); [|done].
      rewrite lookup_insert_ne; [done|]. intros E. apply Hb. rewrite E.
      by apply list_elem_of_fmap_2. }
  assert (Htaxed : (exists a, a ∈ slice /\ taxable ctx a = true /\
                      LegacyOneDec < postTaxAmount n a) ->
                   0 < cnt /\ CoinsEmpty coins = false /\ CoinsIsZero coins = false).
  { intros (a & Ha & Ht & Hp). split.
    - pose proof (countTaxable_pos ctx slice a Ha Ht). lia.
    - apply (AmountOf_nonzero_not_empty coins (Denom a)). rewrite Hamt by done.
      pose proof (proj2 (taxAsset_le ctx n a (Hrate a Ha)) ltac:(lia) Ht Hp). lia. }
  unfold DeductAssetsHook. fold last interval. unfold TimeAfter, TimeAdd.
  destruct (Z.ltb_spec (last + interval) (BlockTime ctx)); [|lia].
  unfold DeductAssetsWithTakeRate, TimeEqual. fold interval.
  destruct (Z.eqb_spec last zeroTime); [done|].
  destruct (Z.eqb_spec interval 0); [lia|].
  rewrite Hn, Hrun.
  destruct (Z.eqb_spec cnt 0) as [Hc0|Hc0].
  { rewrite SetLastRewardClaimTime_ok by done.
    eexists _, _. split; [reflexivity|]. unfold GetAssetByDenom. simpl.
    split; [intros a Ha Ht Hp; split; [by apply Hfloor|by apply Hstore1]|].
    split; [intros a Ha Hskip; split; [by apply taxAsset_skipped|by apply Hstore2]|].
    split; [exact Hamt|]. split; [exact Hout|].
    intros Hex. apply Htaxed in Hex. lia. }
  destruct (CoinsEmpty coins) eqn:Hemp; simpl.
  { eexists _, _. split; [reflexivity|]. unfold GetAssetByDenom. simpl.
    split; [intros a Ha Ht Hp; split; [by apply Hfloor|by apply Hstore1]|].
    split; [intros a Ha Hskip; split; [by apply taxAsset_skipped|by apply Hstore2]|].
    split; [exact Hamt|]. split; [exact Hout|].
    intros Hex. apply Htaxed in Hex as (_ & ? & _). congruence. }
  destruct (CoinsIsZero coins) eqn:Hzero; simpl.
  { eexists _, _. split; [reflexivity|]. unfold GetAssetByDenom. simpl.
    split; [intros a Ha Ht Hp; split; [by apply Hfloor|by apply Hstore1]|].
    split; [intros a Ha Hskip; split; [by apply taxAsset_skipped|by apply Hstore2]|].
    split; [exact Hamt|]. split; [exact Hout|].
    intros Hex. apply Htaxed in Hex as (_ & _ & ?). congruence. }
  destruct (SendCoins_ok ModuleName feeCollectorName coins
              (set_assets (storeAfterTax ctx n slice) s))
    as (s2 & Hsend & Has & Hps & Hfrom & Hto); [done| |].
  { intros d v Hd. assert (Hv : v = AmountOf coins d) by (unfold AmountOf; by rewrite Hd).
    destruct (decide (d ∈ Denom <$> slice)) as [Hin|Hnin].
    - apply list_elem_of_fmap in Hin as (a & -> & Ha).
      rewrite Hv, Hamt by done. by apply Hbal.
    - exfalso. apply (Hnz d v Hd). rewrite Hv. by apply Hout. }
  rewrite Hsend. rewrite SetLastRewardClaimTime_ok by (rewrite Hps; done).
  eexists _, _. split; [reflexivity|]. unfold GetAssetByDenom. simpl. rewrite Has. simpl.
  split; [intros a Ha Ht Hp; split; [by apply Hfloor|by apply Hstore1]|].
  split; [intros a Ha Hskip; split; [by apply taxAsset_skipped|by apply Hstore2]|].
  split; [exact Hamt|]. split; [exact Hout|].
  intros _. split; [unfold LastRewardClaimTime; simpl; fold interval; by rewrite Hadv|].
  intros d. change (BalanceOf (set_params _ s2)) with (BalanceOf s2).
  rewrite Hto, Hfrom, AmountOf_CoinsAddAll, AmountOf_CoinsSubAll. done.
Qed.

(** The loop whatever its outcome: each element of the slice is left as it
    was or replaced by its taxed version, and so is each registry entry. *)
Lemma deductLoop_any (ctx : Ctx) (n : Z) (slice : list AllianceAsset) :
  forall (coins : Coins) (count : Z) (s : State) r slice' s',
  deductLoop ctx n slice coins count s = (r, slice', s') ->
  Forall2 (fun a a' => a' = a \/ a' = taxAsset ctx n a) slice slice' /\
  (forall d x, assets s' !! d = Some x ->
     assets s !! d = Some x \/ exists a, a ∈ slice /\ x = taxAsset ctx n a).
Proof.
  induction slice as [|a rest IH]; intros coins count s r slice' s' Hrun; simpl in Hrun.
  - inversion Hrun; subst. split; [constructor|]. intros d x Hx. by left.
  - destruct (taxable ctx a) eqn:Ht.
    + fold (postTaxAmount n a) in Hrun.
      destruct (Z.leb_spec (postTaxAmount n a) LegacyOneDec) as [Hs|Hs].
      * destruct (deductLoop ctx n rest coins (count + 1) s) as [[r0 rest0] s0] eqn:E.
        inversion Hrun; subst. apply IH in E as [HF Hst]. split.
        -- constructor; [by left|done].
        -- intros d x Hx. apply Hst in Hx as [?|(b & Hb & ->)]; [by left|].
           right. exists b. split; [by right|done].
      * destruct (Z.ltb_spec (TotalTokens a - DecTruncateInt (postTaxAmount n a)) 0).
        { inversion Hrun; subst. split.
          - constructor; [right; by rewrite taxAsset_changed|].
            apply Forall2_same_length_lookup_2; [done|].
            intros i x y Hx Hy. left. congruence.
          - intros d x Hx. by left. }
        destruct (deductLoop ctx n rest _ (count + 1) (SetAsset _ s))
          as [[r0 rest0] s0] eqn:E.
        inversion Hrun; subst. apply IH in E as [HF Hst]. split.
        -- constructor; [right; by rewrite taxAsset_changed|done].
        -- intros d x Hx. apply Hst in Hx as [Hx|(b & Hb & ->)].
           ++ simpl in Hx. apply lookup_insert_Some in Hx as [[_ <-]|[_ Hx]]; [|by left].
              right. exists a. split; [left|by rewrite taxAsset_changed].
           ++ right. exists b. split; [by right|done].
    + destruct (deductLoop ctx n rest coins count s) as [[r0 rest0] s0] eqn:E.
      inversion Hrun; subst. apply IH in E as [HF Hst]. split.
      * constructor; [by left|done].
      * intros d x Hx. apply Hst in Hx as [?|(b & Hb & ->)]; [by left|].
        right. exists b. split; [by right|done].
Qed.

Lemma SetLastRewardClaimTime_assets (t : Time) (s : State) :
  assets (SetLastRewardClaimTime t s).2 = assets s.
Proof.
  unfold SetLastRewardClaimTime, SetParams.
  repeat (destruct (negb _); [done|]). done.
Qed.

Lemma SendCoins_assets (from to : string) (c : Coins) (s : State) :
  assets (SendCoins from to c s).2 = assets s.
Proof. unfold SendCoins. by destruct (CoinsCovered _ _). Qed.

Lemma DeductAssetsHook_any (ctx : Ctx) (slice : list AllianceAsset) (s : State) :
  let n := toUint64 (Z.quot (TimeSub (BlockTime ctx) (LastRewardClaimTime s))
                       (RewardClaimInterval s)) in
  Forall2 (fun a a' => a' = a \/ a' = taxAsset ctx n a)
    slice (DeductAssetsHook ctx slice s).1.2 /\
  (forall d x, assets (DeductAssetsHook ctx slice s).2 !! d = Some x ->
     assets s !! d = Some x \/ exists a, a ∈ slice /\ x = taxAsset ctx n a).
Proof.
  intros n.
  assert (Hsame : Forall2 (fun a a' => a' = a \/ a' = taxAsset ctx n a) slice slice).
  { apply Forall2_same_length_lookup_2; [done|]. intros i x y Hx Hy. left. congruence. }
  unfold DeductAssetsHook. destruct (TimeAfter _ _); [|split; [done|by left]].
  unfold DeductAssetsWithTakeRate.
  destruct (TimeEqual _ _).
  { pose proof (SetLastRewardClaimTime_assets (BlockTime ctx) s) as Hs.
    destruct (SetLastRewardClaimTime (BlockTime ctx) s) as [[?| |] s1]; simpl in *;
      (split; [done|rewrite Hs; by left]). }
  destruct (Z.eqb_spec (RewardClaimInterval s) 0); [split; [done|by left]|].
  fold n.
  destruct (deductLoop ctx n slice ∅ 0 s) as [[r slice'] s1] eqn:E.
  apply deductLoop_any in E as [HF Hst].
  destruct r as [[coins cnt]| |]; simpl; [|done|done].
  destruct (cnt =? 0).
  { pose proof (SetLastRewardClaimTime_assets (BlockTime ctx) s1) as Hs.
    destruct (SetLastRewardClaimTime (BlockTime ctx) s1) as [[?| |] s2]; simpl in *;
      (split; [done|rewrite Hs; done]). }
  destruct (negb (CoinsEmpty coins) && negb (CoinsIsZero coins)); [|done].
  pose proof (SendCoins_assets ModuleName feeCollectorName coins s1) as Hb.
  destruct (SendCoins ModuleName feeCollectorName coins s1) as [[?| |] s2]; simpl in *;
    [|split; [done|by rewrite Hb]..].
  match goal with |- context [SetLastRewardClaimTime ?t s2] =>
    pose proof (SetLastRewardClaimTime_assets t s2) as Hs;
    destruct (SetLastRewardClaimTime t s2) as [[?| |] s3] end; simpl in *;
    (split; [done|rewrite Hs, Hb; done]).
Qed.

(** C4 (as amended).  In a run of the hook, an eligible asset whose
    untruncated post-tax amount [totalTokens * (1 - takeRate)^n] is at most
    one is left as it was; an asset that is reduced keeps at least one token,
    so an asset holding at least one token still holds at least one after
    the hook, in the slice and in the registry; and however often the hook
    runs, assets that start with at least one token never fall below one. *)
Theorem take_rate_floor_protection (ctx : Ctx) (slice : list AllianceAsset) (s : State) :
  let n := toUint64 (Z.quot (TimeSub (BlockTime ctx) (LastRewardClaimTime s))
                       (RewardClaimInterval s)) in
  Forall2 (fun a a' =>
             (taxable ctx a = true -> postTaxAmount n a <= LegacyOneDec -> a' = a) /\
             (1 <= TotalTokens a -> 1 <= TotalTokens a'))
    slice (DeductAssetsHook ctx slice s).1.2 /\
  (Forall (fun a => 1 <= TotalTokens a) slice ->
   map_Forall (fun _ a => 1 <= TotalTokens a) (assets s) ->
   map_Forall (fun _ a => 1 <= TotalTokens a) (assets (DeductAssetsHook ctx slice s).2)) /\
  (forall ctxs,
     Forall (fun a => 1 <= TotalTokens a) slice ->
     map_Forall (fun _ a => 1 <= TotalTokens a) (assets s) ->
     Forall (fun a => 1 <= TotalTokens a) (repeatDeductAssetsHook ctxs slice s).1 /\
     map_Forall (fun _ a => 1 <= TotalTokens a)
       (assets (repeatDeductAssetsHook ctxs slice s).2)).
Proof.
  intros n.
  assert (Hstep : forall c l t,
    Forall (fun a => 1 <= TotalTokens a) l ->
    map_Forall (fun _ a => 1 <= TotalTokens a) (assets t) ->
    Forall (fun a => 1 <= TotalTokens a) (DeductAssetsHook c l t).1.2 /\
    map_Forall (fun _ a => 1 <= TotalTokens a) (assets (DeductAssetsHook c l t).2)).
  { intros c l t Hl Ht. destruct (DeductAssetsHook_any c l t) as [HF Hst]. split.
    - apply Forall_lookup. intros i a' Ha'.
      destruct (Forall2_lookup_r _ _ _ _ _ HF Ha') as (a & Ha & Hr).
      pose proof (Forall_lookup_1 _ _ _ _ Hl Ha) as H1. simpl in H1.
      destruct Hr as [->| ->]; [done|by apply taxAsset_floor].
    - intros d x Hx. apply Hst in Hx as [Hx|(a & Ha & ->)]; [by apply (Ht d x)|].
      apply taxAsset_floor. by apply (proj1 (Forall_forall _ _) Hl). }
  split; [|split].
  - destruct (DeductAssetsHook_any ctx slice s) as [HF _]. fold n in HF.
    eapply Forall2_impl; [exact HF|]. intros a a' Hr. simpl in Hr. split.
    + intros Ht Hs. destruct Hr as [->| ->]; [done|]. apply taxAsset_skipped. by right.
    + intros H1. destruct Hr as [->| ->]; [done|by apply taxAsset_floor].
  - intros Hl Ht. by apply Hstep.
  - intros ctxs. clear n. revert slice s.
    induction ctxs as [|c rest IH]; intros slice s Hl Ht; [done|].
    simpl. destruct (Hstep c slice s Hl Ht) as [H1 H2].
    destruct (DeductAssetsHook c slice s) as [[r l'] t']. simpl in *. by apply IH.
Qed.

(** C10.  When the deduction runs its loop (the last claim time is set and
    the claim interval is not zero) over a slice holding at least one asset
    with positive tokens, positive take rate and rewards started, and every
    such asset is skipped by the floor protection, nothing is deducted and
    the store is left as it was: the last claim time is not advanced.  The
    intervals counted by a later invocation start from the same last claim
    time and are at least those counted now. *)
Theorem DeductAssetsWithTakeRate_all_skipped (ctx : Ctx) (lastClaim : Time)
    (slice : list AllianceAsset) (s : State) :
  let n := toUint64 (Z.quot (TimeSub (BlockTime ctx) lastClaim) (RewardClaimInterval s)) in
  lastClaim <> zeroTime -> RewardClaimInterval s <> 0 ->
  (exists a, a ∈ slice /\ taxable ctx a = true) ->
  (forall a, a ∈ slice -> taxable ctx a = true -> postTaxAmount n a <= LegacyOneDec) ->
  DeductAssetsWithTakeRate ctx lastClaim slice s = (Ok ∅, slice, s) /\
  (lastClaim = LastRewardClaimTime s ->
   TimeAfter (BlockTime ctx) (TimeAdd (LastRewardClaimTime s) (RewardClaimInterval s)) = true ->
   DeductAssetsHook ctx slice s = (Ok ∅, slice, s)) /\
  (forall later, 0 < RewardClaimInterval s -> BlockTime ctx <= later ->
   Z.quot (TimeSub (BlockTime ctx) lastClaim) (RewardClaimInterval s)
   <= Z.quot (TimeSub later lastClaim) (RewardClaimInterval s)).
Proof.
  intros n Hz Hi (a0 & Ha0 & Ht0) Hskip.
  assert (Hmain : DeductAssetsWithTakeRate ctx lastClaim slice s = (Ok ∅, slice, s)).
  { assert (Hid : forall a, a ∈ slice -> taxAsset ctx n a = a).
    { intros a Ha. apply taxAsset_skipped. destruct (taxable ctx a) eqn:Ht; [|by left].
      right. by apply Hskip. }
    destruct (deductLoop_run ctx n slice ∅ 0 s) as (coins & cnt & Hrun & Hcnt & Hc & Hnz).
    { intros a Ha. by rewrite Hid. }
    assert (Hfmap : taxAsset ctx n <$> slice = slice).
    { rewrite <- (list_fmap_id slice) at 2. apply list_fmap_ext.
      intros i a Ha. apply Hid. by eapply list_elem_of_lookup_2. }
    assert (Hstore : storeAfterTax ctx n slice (assets s) = assets s).
    { clear -Hskip. generalize (assets s). induction slice as [|b rest IH]; intros m; [done|].
      rewrite storeAfterTax_cons.
      destruct (taxable ctx b) eqn:Ht; simpl.
      - pose proof (Hskip b ltac:(left) Ht) as Hb.
        destruct (Z.ltb_spec LegacyOneDec (postTaxAmount n b)); [lia|].
        apply IH. intros a Ha. apply Hskip. by right.
      - apply IH. intros a Ha. apply Hskip. by right. }
    assert (Hs : set_assets (storeAfterTax ctx n slice) s = s).
    { destruct s. unfold set_assets. simpl in *. by rewrite Hstore. }
    assert (Hempty : coins = ∅).
    { apply map_eq. intros d. rewrite lookup_empty.
      destruct (coins !! d) as [v|] eqn:E; [|done]. exfalso.
      assert (Hnz0 : forall (d : string) (v : Z), (∅ : Coins) !! d = Some v -> v <> 0)
        by (intros ? ?; by rewrite lookup_empty).
      apply (Hnz Hnz0 d v E).
      assert (Hv : v = AmountOf coins d) by (unfold AmountOf; by rewrite E).
      rewrite Hv, Hc, AmountOf_empty.
      assert (deductedFor ctx n d slice = 0) as ->; [|done]. clear -Hid.
      induction slice as [|b rest IH]; [done|]. simpl.
      rewrite (Hid b) by left. rewrite Z.sub_diag, Z.add_0_r.
      rewrite IH by (intros a Ha; apply Hid; by right). by case_decide. }
    unfold DeductAssetsWithTakeRate, TimeEqual.
    destruct (Z.eqb_spec lastClaim zeroTime); [done|].
    destruct (Z.eqb_spec (RewardClaimInterval s) 0); [done|].
    fold n. rewrite Hrun, Hfmap, Hs, Hempty.
    pose proof (countTaxable_pos ctx slice a0 Ha0 Ht0).
    destruct (Z.eqb_spec cnt 0); [lia|]. done. }
  split; [exact Hmain|]. split.
  - intros -> Hdue. unfold DeductAssetsHook. by rewrite Hdue.
  - intros later Hpos Hlater. apply Z.quot_le_mono; [done|]. by apply TimeSub_mono.
Qed.

End TakeRate.

(** *** Settlement of validators and snapshots (C6) *)

Section Settlement.

Lemma SendCoins_frame (from to : string) (c : Coins) (s : State) r s' :
  SendCoins from to c s = (r, s') ->
  assets s' = assets s /\ params s' = params s /\
  rebalanceQueued s' = rebalanceQueued s /\ validatorInfos s' = validatorInfos s /\
  snapshots s' = snapshots s /\ distribution s' = distribution s /\
  bondedStatus s' = bondedStatus s /\ moduleDelegations s' = moduleDelegations s /\
  supply s' = supply s /\ bondDenom s' = bondDenom s /\ delegations s' = delegations s.
Proof.
  unfold SendCoins. destruct (CoinsCovered _ _); intros H; inversion H; subst; done.
Qed.

Lemma totalAssetWeight_ext (s t : State) (info : AllianceValidatorInfo) :
  assets s = assets t -> totalAssetWeight s info = totalAssetWeight t info.
Proof. unfold totalAssetWeight. by intros ->. Qed.

Lemma settledInfo_ext (s t : State) (v : string) :
  assets s = assets t -> distribution s !! v = distribution t !! v ->
  validatorInfos s !! v = validatorInfos t !! v ->
  settledInfo s v = settledInfo t v.
Proof.
  intros Ha Hd Hv. unfold settledInfo, InfoOf, totalAssetWeight.
  by rewrite Hd, Hv, Ha.
Qed.

(** The settlement of one validator: what it may change. *)
Lemma ClaimValidatorRewards_frame (v : string) (s : State) r s' :
  ClaimValidatorRewards v s = (r, s') ->
  assets s' = assets s /\ params s' = params s /\
  rebalanceQueued s' = rebalanceQueued s /\ snapshots s' = snapshots s /\
  bondedStatus s' = bondedStatus s /\ moduleDelegations s' = moduleDelegations s /\
  supply s' = supply s /\ bondDenom s' = bondDenom s /\ delegations s' = delegations s /\
  (forall u, u <> v -> validatorInfos s' !! u = validatorInfos s !! u /\
                       distribution s' !! u = distribution s !! u) /\
  (forall c, r = Ok c -> InfoOf s' v = settledInfo s v).
Proof.
  unfold ClaimValidatorRewards, settledInfo.
  destruct (distribution s !! v) as [[c|]|] eqn:Hd;
    [|intros H; inversion H; subst; by split_and!..].
  destruct (CoinsEmpty c); [intros H; inversion H; subst; by split_and!|].
  unfold AddAssetsToRewardPool.
  match goal with |- context [totalAssetWeight ?t ?i] =>
    change (totalAssetWeight t i) with (totalAssetWeight s (InfoOf s v)) end.
  destruct (DecIsZero (totalAssetWeight s (InfoOf s v))).
  { intros H; inversion H; subst. simpl. split_and!; try done.
    intros u Hu. by rewrite lookup_insert_ne. }
  match goal with |- context [SendCoins ?f ?t ?c ?st] =>
    destruct (SendCoins f t c st) as [r0 s2] eqn:Hsend end.
  apply SendCoins_frame in Hsend as (H1&H2&H3&H4&H5&H6&H7&H8&H9&H10&H11).
  simpl in *.
  intros H. assert (s' = s2) as -> by (destruct r0; by inversion H).
  split_and!; try done.
  - intros u Hu. rewrite H4, H6. by rewrite !lookup_insert_ne.
  - intros c0 _. unfold InfoOf at 1. rewrite H4, lookup_insert_eq. done.
Qed.

Lemma settleValidators_run (ctx : Ctx) (asset : AllianceAsset)
    (vals : list (string * AllianceValidatorInfo)) :
  forall (s s' : State),
  NoDup vals.*1 ->
  settleValidators ctx asset vals s = (Ok tt, s') ->
  assets s' = assets s /\ params s' = params s /\
  rebalanceQueued s' = rebalanceQueued s /\
  (forall v, v ∈ vals.*1 ->
     InfoOf s' v = settledInfo s v /\
     snapshots s' !! (Denom asset, v, toUint64 (BlockHeight ctx))
     = Some (mkSnapshot (RewardWeight asset) (GlobalRewardHistory (settledInfo s v)))) /\
  (forall v, v ∉ vals.*1 ->
     validatorInfos s' !! v = validatorInfos s !! v /\
     distribution s' !! v = distribution s !! v) /\
  (forall k, (forall v, v ∈ vals.*1 -> k <> (Denom asset, v, toUint64 (BlockHeight ctx))) ->
     snapshots s' !! k = snapshots s !! k).
Proof.
  induction vals as [|[v info] rest IH]; intros s s' Hnd Hrun; simpl in Hrun.
  - inversion Hrun; subst. split_and!; try done. by intros v ?%elem_of_nil.
  - simpl in Hnd. apply NoDup_cons in Hnd as [Hv Hnd].
    destruct (GetAllianceValidator s v); [|done..].
    destruct (ClaimValidatorRewards v s) as [[c| |] s1] eqn:Hclaim; [|done..].
    apply ClaimValidatorRewards_frame in Hclaim
      as (F1&F2&F3&F4&F5&F6&F7&F8&F9&Fo&Fv).
    specialize (Fv c eq_refl).
    apply IH in Hrun as (G1&G2&G3&Gin&Gout&Gk); [|done]. simpl in *.
    assert (Hv' : forall u, u ∈ rest.*1 -> u <> v) by (intros u Hu ->; done).
    split_and!; try congruence.
    + intros u Hu. apply elem_of_cons in Hu as [->|Hin]; split.
      * unfold InfoOf. rewrite (proj1 (Gout v Hv)). exact Fv.
      * rewrite Gk by (intros w Hw E; inversion E; subst; done).
        unfold SetRewardWeightChangeSnapshot, setRewardWeightChangeSnapshot,
          NewRewardWeightChangeSnapshot. simpl.
        rewrite lookup_insert_eq. by rewrite Fv.
      * rewrite (proj1 (Gin u Hin)). apply settledInfo_ext; simpl; [done|..];
          by apply Fo, Hv'.
      * rewrite (proj2 (Gin u Hin)). do 3 f_equal.
        apply settledInfo_ext; simpl; [done|..]; by apply Fo, Hv'.
    + intros u Hu. apply not_elem_of_cons in Hu as [Hne Hnin].
      rewrite (proj1 (Gout u Hnin)), (proj2 (Gout u Hnin)). simpl. by apply Fo.
    + intros k Hk. rewrite Gk by (intros u Hu; apply Hk; by right).
      unfold SetRewardWeightChangeSnapshot, setRewardWeightChangeSnapshot. simpl.
      rewrite lookup_insert_ne; [by rewrite F4|]. intros E. by apply (Hk v ltac:(left)).
Qed.

Lemma UpdateAllianceAsset_inv (ctx : Ctx) (newAsset : AllianceAsset) (s s' : State) :
  UpdateAllianceAsset ctx newAsset s = (Ok tt, s') ->
  exists asset, GetAssetByDenom s (Denom newAsset) = Some asset /\
    Min (RewardWeightRange_ newAsset) <= RewardWeight newAsset
      <= Max (RewardWeightRange_ newAsset) /\
    (RewardWeight newAsset = RewardWeight asset ->
     s' = SetAsset (mergeUpdate ctx asset newAsset) s) /\
    (RewardWeight newAsset <> RewardWeight asset ->
     exists s1, settleValidators ctx asset (AllianceValidatorInfos s) s = (Ok tt, s1) /\
       s' = SetAsset (mergeUpdate ctx asset newAsset) (QueueAssetRebalanceEvent s1)).
Proof.
  unfold UpdateAllianceAsset. destruct (GetAssetByDenom s (Denom newAsset)) as [asset|];
    [|done].
  destruct (Z.ltb_spec (RewardWeight newAsset) (Min (RewardWeightRange_ newAsset)))
    as [Hlo|Hlo]; [done|].
  destruct (Z.ltb_spec (Max (RewardWeightRange_ newAsset)) (RewardWeight newAsset))
    as [Hhi|Hhi]; [done|]. simpl.
  destruct (Z.eqb_spec (RewardWeight newAsset) (RewardWeight asset)) as [Hw|Hw]; simpl.
  - intros Hrun. inversion Hrun; subst. exists asset. split_and!; try done; lia.
  - destruct (settleValidators ctx asset (AllianceValidatorInfos s) s) as [[[]| |] s1]
      eqn:Hs; [|done..].
    intros Hrun. inversion Hrun; subst. exists asset. split_and!; try done; try lia.
    intros _. by exists s1.
Qed.

(** C6.  For an update of a registered asset: with an unchanged reward
    weight no snapshot is written; with a different reward weight, when the
    update succeeds, every validator of the share ledger has been settled in
    the registry that still holds the old weight, and for every validator one
    snapshot is stored at the current height, holding the old reward weight
    and the index vector of the validator after its settlement; no other
    snapshot is touched, and a rebalance is queued. *)
Theorem UpdateAllianceAsset_snapshots (ctx : Ctx) (newAsset asset : AllianceAsset)
    (s : State) :
  GetAssetByDenom s (Denom newAsset) = Some asset ->
  (RewardWeight newAsset = RewardWeight asset ->
   snapshots (UpdateAllianceAsset ctx newAsset s).2 = snapshots s) /\
  (RewardWeight newAsset <> RewardWeight asset ->
   forall s', UpdateAllianceAsset ctx newAsset s = (Ok tt, s') ->
     (forall v, is_Some (validatorInfos s !! v) ->
        InfoOf s' v = settledInfo s v /\
        snapshots s' !! (Denom asset, v, toUint64 (BlockHeight ctx))
        = Some (mkSnapshot (RewardWeight asset) (GlobalRewardHistory (InfoOf s' v)))) /\
     (forall k,
        (forall v, is_Some (validatorInfos s !! v) ->
           k <> (Denom asset, v, toUint64 (BlockHeight ctx))) ->
        snapshots s' !! k = snapshots s !! k) /\
     rebalanceQueued s' = true /\
     exists stored, GetAssetByDenom s' (Denom asset) = Some stored /\
       RewardWeight stored = RewardWeight newAsset).
Proof.
  intros Hget. split.
  - intros Hw. unfold UpdateAllianceAsset. rewrite Hget.
    destruct (_ || _); [done|]. rewrite Hw, Z.eqb_refl. done.
  - intros Hw s' Hrun.
    apply UpdateAllianceAsset_inv in Hrun as (asset' & Hget' & _ & _ & Hdiff).
    rewrite Hget in Hget'. inversion Hget'; subst asset'.
    destruct (Hdiff Hw) as (s1 & Hsettle & ->).
    apply settleValidators_run in Hsettle as (G1&G2&G3&Gin&Gout&Gk);
      [|apply NoDup_fst_map_to_list].
    assert (Hdom : forall v, is_Some (validatorInfos s !! v) <->
                             v ∈ (AllianceValidatorInfos s).*1).
    { intros v. unfold AllianceValidatorInfos. rewrite list_elem_of_fmap. split.
      - intros [x Hx]. exists (v, x). split; [done|]. by apply elem_of_map_to_list.
      - intros ([u x] & -> & Hx). apply elem_of_map_to_list in Hx. by exists x. }
    split_and!.
    + intros v Hv. apply Hdom in Hv. destruct (Gin v Hv) as [Hi Hs].
      change (InfoOf (SetAsset _ (QueueAssetRebalanceEvent s1)) v) with (InfoOf s1 v).
      rewrite Hi. split; [done|]. exact Hs.
    + intros k Hk. simpl. apply Gk. intros v Hv. apply Hk, Hdom, Hv.
    + done.
    + eexists. unfold GetAssetByDenom. simpl. rewrite lookup_insert_eq. done.
Qed.

End Settlement.

(** *** Decay engine (C5) *)

Section Decay.

Lemma settleValidators_assets (ctx : Ctx) (asset : AllianceAsset)
    (vals : list (string * AllianceValidatorInfo)) :
  forall (s : State) r s',
  settleValidators ctx asset vals s = (r, s') -> assets s' = assets s.
Proof.
  induction vals as [|[v info] rest IH]; intros s r s' Hrun; simpl in Hrun.
  - by inversion Hrun.
  - destruct (GetAllianceValidator s v); [|by inversion Hrun..].
    destruct (ClaimValidatorRewards v s) as [r1 s1] eqn:Hclaim.
    apply ClaimValidatorRewards_frame in Hclaim as (F1 & _).
    destruct r1; [|inversion Hrun; by subst..].
    apply IH in Hrun. by rewrite Hrun.
Qed.

(** The registry after a successful update: one entry is rewritten. *)
Lemma UpdateAllianceAsset_assets (ctx : Ctx) (newAsset : AllianceAsset) (s s' : State) :
  UpdateAllianceAsset ctx newAsset s = (Ok tt, s') ->
  exists asset, GetAssetByDenom s (Denom newAsset) = Some asset /\
    Min (RewardWeightRange_ newAsset) <= RewardWeight newAsset
      <= Max (RewardWeightRange_ newAsset) /\
    assets s' = <[Denom asset := mergeUpdate ctx asset newAsset]> (assets s).
Proof.
  intros Hrun. apply UpdateAllianceAsset_inv in Hrun as (asset & Hget & Hr & Hsame & Hdiff).
  exists asset. split; [done|]. split; [done|].
  destruct (Z.eq_dec (RewardWeight newAsset) (RewardWeight asset)) as [Hw|Hw].
  - by rewrite (Hsame Hw).
  - destruct (Hdiff Hw) as (s1 & Hsettle & ->). simpl.
    by rewrite (settleValidators_assets _ _ _ _ _ _ Hsettle).
Qed.

Lemma decayAsset_Denom (ctx : Ctx) (a : AllianceAsset) :
  Denom (decayAsset ctx a) = Denom a.
Proof. unfold decayAsset. destruct (_ || _); [done|]. by destruct (TimeAfter _ _). Qed.

Lemma decayDue_true (ctx : Ctx) (a : AllianceAsset) :
  RewardChangeInterval a <> 0 -> RewardChangeRate a <> LegacyOneDec ->
  LastRewardChangeTime a + RewardChangeInterval a <= BlockTime ctx ->
  decayDue ctx a = true.
Proof.
  intros Hi Hr Hdue. unfold decayDue, TimeAfter, TimeAdd.
  destruct (Z.eqb_spec (RewardChangeInterval a) 0); [done|].
  destruct (Z.eqb_spec (RewardChangeRate a) LegacyOneDec); [done|]. simpl.
  by destruct (Z.ltb_spec (BlockTime ctx) (LastRewardChangeTime a + RewardChangeInterval a));
    [lia|].
Qed.

Lemma decayDue_false (ctx : Ctx) (a : AllianceAsset) :
  RewardChangeInterval a = 0 \/ RewardChangeRate a = LegacyOneDec \/
  BlockTime ctx < LastRewardChangeTime a + RewardChangeInterval a ->
  decayDue ctx a = false.
Proof.
  unfold decayDue, TimeAfter, TimeAdd. intros [->| [->|Hlt]].
  - done.
  - by rewrite Z.eqb_refl, orb_true_r.
  - destruct (_ || _); [done|]. simpl.
    by destruct (Z.ltb_spec (BlockTime ctx) (LastRewardChangeTime a + RewardChangeInterval a));
      [|lia].
Qed.

Lemma decayAsset_skip (ctx : Ctx) (a : AllianceAsset) :
  decayDue ctx a = false -> decayAsset ctx a = a.
Proof.
  unfold decayDue, decayAsset. destruct (_ || _); [done|]. simpl.
  by destruct (TimeAfter _ _).
Qed.

(** A turn of the loop for an asset that is not due. *)
Lemma RewardWeightChangeHook_skip (ctx : Ctx) (a : AllianceAsset)
    (rest : list AllianceAsset) (u : State) :
  decayDue ctx a = false ->
  RewardWeightChangeHook ctx (a :: rest) u
  = let '(r, rest', s') := RewardWeightChangeHook ctx rest u in (r, a :: rest', s').
Proof.
  unfold decayDue. simpl. destruct (_ || _); [done|]. simpl.
  by destruct (TimeAfter _ _).
Qed.

(** A turn of the loop for an asset that is due. *)
Lemma RewardWeightChangeHook_turn (ctx : Ctx) (a : AllianceAsset)
    (rest : list AllianceAsset) (u : State) :
  decayDue ctx a = true ->
  RewardWeightChangeHook ctx (a :: rest) u
  = if decayOverflows ctx a then (Panic, a :: rest, u)
    else
      match UpdateAllianceAsset ctx (decayAsset ctx a) (QueueAssetRebalanceEvent u) with
      | (Ok _, s1) =>
        let '(r, rest', s') := RewardWeightChangeHook ctx rest s1 in
        (r, decayAsset ctx a :: rest', s')
      | (Err e, s1) => (Err e, decayAsset ctx a :: rest, s1)
      | (Panic, s1) => (Panic, decayAsset ctx a :: rest, s1)
      end.
Proof.
  unfold decayDue, decayOverflows, decayAsset. simpl.
  destruct (_ || _); [done|]. simpl. destruct (TimeAfter _ _); [done|]. intros _.
  cbv zeta.
  destruct (DecPower _ _) as [m|] eqn:Em; [|done].
  destruct (DecMul _ m) as [w0|] eqn:Ew; [|done].
  apply DecPower_Some in Em. apply DecMul_Some in Ew. by subst.
Qed.

(** The fields of the record that a due turn leaves. *)
Lemma decayAsset_due (ctx : Ctx) (a : AllianceAsset) :
  decayDue ctx a = true ->
  let n := toUint64 (Z.quot (TimeSub (BlockTime ctx) (LastRewardChangeTime a))
                       (RewardChangeInterval a)) in
  let w0 := DecMulRaw (RewardWeight a) (DecPowerRaw (RewardChangeRate a) n) in
  RewardWeight (decayAsset ctx a)
  = (if Max (RewardWeightRange_ a)
        <? (if w0 <? Min (RewardWeightRange_ a) then Min (RewardWeightRange_ a) else w0)
     then Max (RewardWeightRange_ a)
     else if w0 <? Min (RewardWeightRange_ a) then Min (RewardWeightRange_ a) else w0) /\
  LastRewardChangeTime (decayAsset ctx a)
  = TimeAdd (LastRewardChangeTime a) (DurationMul (RewardChangeInterval a) (toInt64 n)) /\
  Denom (decayAsset ctx a) = Denom a /\
  TakeRate (decayAsset ctx a) = TakeRate a /\
  TotalTokens (decayAsset ctx a) = TotalTokens a /\
  TotalValidatorShares (decayAsset ctx a) = TotalValidatorShares a /\
  RewardStartTime (decayAsset ctx a) = RewardStartTime a /\
  RewardChangeRate (decayAsset ctx a) = RewardChangeRate a /\
  RewardChangeInterval (decayAsset ctx a) = RewardChangeInterval a /\
  RewardWeightRange_ (decayAsset ctx a) = RewardWeightRange_ a /\
  IsInitialized (decayAsset ctx a) = IsInitialized a.
Proof.
  unfold decayDue, decayAsset. destruct (_ || _); [done|]. simpl.
  destruct (TimeAfter _ _); [done|]. intros _. cbv zeta. simpl. by split_and!.
Qed.

Lemma mergeUpdate_decayAsset (ctx : Ctx) (a : AllianceAsset) :
  mergeUpdate ctx a (decayAsset ctx a) = decayAsset ctx a.
Proof.
  unfold decayAsset.
  destruct (_ || _); [|destruct (TimeAfter _ _)];
    unfold mergeUpdate; simpl; rewrite !Z.eqb_refl; simpl; by destruct a.
Qed.

(** The clamp of a due turn lands in a range that is not inverted. *)
Lemma decayAsset_in_range (ctx : Ctx) (a : AllianceAsset) :
  decayDue ctx a = true ->
  Min (RewardWeightRange_ a) <= Max (RewardWeightRange_ a) ->
  Min (RewardWeightRange_ a) <= RewardWeight (decayAsset ctx a)
    <= Max (RewardWeightRange_ a).
Proof.
  intros Hdue Hr. destruct (decayAsset_due ctx a Hdue) as (-> & _).
  match goal with |- context [DecMulRaw ?x ?y] => set (w0 := DecMulRaw x y) end.
  destruct (Z.ltb_spec w0 (Min (RewardWeightRange_ a)));
    match goal with |- context [Max ?r <? ?x] => destruct (Z.ltb_spec (Max r) x) end; lia.
Qed.

(** A successful run of the hook over a slice that mirrors the registry. *)
Lemma RewardWeightChangeHook_run (ctx : Ctx) (slice : list AllianceAsset) :
  forall (s : State) slice' s',
  NoDup (Denom <$> slice) ->
  (forall a, a ∈ slice -> GetAssetByDenom s (Denom a) = Some a) ->
  RewardWeightChangeHook ctx slice s = (Ok tt, slice', s') ->
  slice' = decayAsset ctx <$> slice /\
  (forall a, a ∈ slice ->
     GetAssetByDenom s' (Denom a) = Some (decayAsset ctx a) /\
     (decayAsset ctx a = a \/
      Min (RewardWeightRange_ a) <= RewardWeight (decayAsset ctx a)
        <= Max (RewardWeightRange_ a))) /\
  (forall d, d ∉ Denom <$> slice -> GetAssetByDenom s' d = GetAssetByDenom s d).
Proof.
  unfold GetAssetByDenom.
  induction slice as [|a rest IH]; intros s slice' s' Hnd Hfresh Hrun.
  - simpl in Hrun. inversion Hrun; subst. split_and!; try done. by intros a ?%elem_of_nil.
  - simpl in Hnd. apply NoDup_cons in Hnd as [Ha Hnd]. rewrite fmap_cons.
    destruct (decayDue ctx a) eqn:Edue.
    + rewrite (RewardWeightChangeHook_turn ctx a rest s Edue) in Hrun.
      destruct (decayOverflows ctx a); [done|].
      set (a' := decayAsset ctx a) in *.
      destruct (UpdateAllianceAsset ctx a' (QueueAssetRebalanceEvent s)) as [r1 s1] eqn:Hupd.
      destruct r1 as [[]| |]; [|done..].
      destruct (RewardWeightChangeHook ctx rest s1) as [[r0 rest0] s0] eqn:Hrest.
      inversion Hrun; subst.
      apply UpdateAllianceAsset_assets in Hupd as (asset & Hget & Hrange & Hassets).
      unfold GetAssetByDenom in Hget. simpl in Hget.
      unfold a' in Hget. rewrite decayAsset_Denom in Hget.
      rewrite (Hfresh a) in Hget by left. inversion Hget; subst asset.
      unfold a' in Hassets. rewrite mergeUpdate_decayAsset in Hassets. simpl in Hassets.
      apply IH in Hrest as (-> & Hin & Hout); [|done|].
      2:{ intros b Hb. rewrite Hassets, lookup_insert_ne; [apply Hfresh; by right|].
          intros E. apply Ha. rewrite E. by apply list_elem_of_fmap_2. }
      split_and!; [done| |].
      * intros b Hb. apply elem_of_cons in Hb as [->|Hb]; [|by apply Hin]. split.
        -- rewrite Hout by done. by rewrite Hassets, lookup_insert_eq.
        -- right. destruct (decayAsset_due ctx a Edue) as (_&_&_&_&_&_&_&_&_&Hrg&_).
           fold a' in Hrg. by rewrite <- Hrg.
      * intros d Hd'. apply not_elem_of_cons in Hd' as [Hne Hd'].
        rewrite Hout by done. by rewrite Hassets, lookup_insert_ne.
    + rewrite (RewardWeightChangeHook_skip ctx a rest s Edue) in Hrun.
      rewrite (decayAsset_skip ctx a Edue).
      destruct (RewardWeightChangeHook ctx rest s) as [[r0 rest0] s0] eqn:Hrest.
      inversion Hrun; subst.
      apply IH in Hrest as (-> & Hin & Hout);
        [|done|intros b Hb; apply Hfresh; by right].
      split_and!; [done| |].
      * intros b Hb. apply elem_of_cons in Hb as [->|Hb]; [|by apply Hin].
        rewrite (decayAsset_skip ctx a Edue). split; [|by left].
        rewrite Hout by done. apply Hfresh. left.
      * intros d Hd'. apply not_elem_of_cons in Hd' as [_ Hd']. by apply Hout.
Qed.

Lemma RewardWeightChangeHook_idle (ctx : Ctx) (slice : list AllianceAsset) (s : State) :
  (forall a, a ∈ slice ->
     RewardChangeInterval a = 0 \/ RewardChangeRate a = LegacyOneDec \/
     BlockTime ctx < LastRewardChangeTime a + RewardChangeInterval a) ->
  RewardWeightChangeHook ctx slice s = (Ok tt, slice, s).
Proof.
  induction slice as [|a rest IH]; intros Hidle; [done|].
  rewrite RewardWeightChangeHook_skip by (apply decayDue_false, Hidle; left).
  by rewrite IH by (intros b Hb; apply Hidle; by right).
Qed.

(** Settlement succeeds on a store that allows it, and leaves such a store. *)
Lemma settles_ext (s t : State) :
  validatorInfos t = validatorInfos s -> bondedStatus t = bondedStatus s ->
  distribution t = distribution s -> bank t = bank s -> settles s -> settles t.
Proof. unfold settles, BalanceOf. by intros -> -> -> ->. Qed.

Lemma ClaimValidatorRewards_settles (v : string) (s : State) :
  settles s -> is_Some (bondedStatus s !! v) ->
  exists c s', ClaimValidatorRewards v s = (Ok c, s') /\ settles s' /\
    (forall u, is_Some (validatorInfos s !! u) -> is_Some (validatorInfos s' !! u)).
Proof.
  intros (H1 & H2 & H3 & H4) Hb. unfold ClaimValidatorRewards.
  destruct (distribution s !! v) as [[c|]|] eqn:Hd.
  - destruct (CoinsEmpty c); [by exists ∅, s|].
    set (s1 := set_distribution _ _).
    assert (Hs1 : settles s1).
    { unfold settles, s1, BalanceOf. simpl. split_and!.
      - done.
      - intros u. destruct (decide (u = v)) as [->|Hu].
        + by rewrite lookup_insert_eq.
        + rewrite lookup_insert_ne by done. apply H2.
      - intros u c0 d. destruct (decide (u = v)) as [->|Hu].
        + rewrite lookup_insert_eq. intros E. inversion E; subst.
          by rewrite AmountOf_empty.
        + rewrite lookup_insert_ne by done. apply H3.
      - intros d. rewrite lookup_insert_eq. simpl. rewrite AmountOf_CoinsAddAll.
        specialize (H4 d). specialize (H3 v c d Hd). unfold BalanceOf in H4. lia. }
    unfold AddAssetsToRewardPool.
    destruct (DecIsZero (totalAssetWeight s1 (InfoOf s1 v))).
    { exists c, s1. split; [done|]. split; [done|]. intros u Hu. exact Hu. }
    match goal with |- context [SendCoins ?f ?t ?c ?st] => set (s2 := st) end.
    destruct (SendCoins_ok ModuleName RewardsPoolName c s2) as (s3 & Hsend & _ & _ & Hfrom & _).
    { done. }
    { intros d a Hda. unfold s2, s1, BalanceOf. simpl. rewrite lookup_insert_eq. simpl.
      rewrite AmountOf_CoinsAddAll. specialize (H4 d). unfold BalanceOf in H4.
      unfold AmountOf at 2. rewrite Hda. simpl. lia. }
    rewrite Hsend. exists c, s3. split; [done|].
    apply SendCoins_frame in Hsend as (_&_&_&F4&_&F6&F7&_).
    split.
    + unfold settles. rewrite F4, F6, F7, Hfrom. unfold s2, s1, BalanceOf. simpl.
      split_and!.
      * intros u. destruct (decide (u = v)) as [->|Hu]; [done|].
        rewrite lookup_insert_ne by done. apply H1.
      * intros u. destruct (decide (u = v)) as [->|Hu].
        -- by rewrite lookup_insert_eq.
        -- rewrite lookup_insert_ne by done. apply H2.
      * intros u c0 d. destruct (decide (u = v)) as [->|Hu].
        -- rewrite lookup_insert_eq. intros E. inversion E; subst.
           by rewrite AmountOf_empty.
        -- rewrite lookup_insert_ne by done. apply H3.
      * intros d. rewrite lookup_insert_eq. simpl.
        rewrite AmountOf_CoinsSubAll, AmountOf_CoinsAddAll.
        specialize (H4 d). unfold BalanceOf in H4. lia.
    + intros u Hu. rewrite F4. unfold s2. simpl.
      destruct (decide (u = v)) as [->|Hne]; [by rewrite lookup_insert_eq|].
      by rewrite lookup_insert_ne.
  - by destruct (H2 v).
  - by exists ∅, s.
Qed.

Lemma settleValidators_succeeds (ctx : Ctx) (asset : AllianceAsset)
    (vals : list (string * AllianceValidatorInfo)) :
  forall s : State,
  settles s -> (forall v, v ∈ vals.*1 -> is_Some (validatorInfos s !! v)) ->
  exists s', settleValidators ctx asset vals s = (Ok tt, s') /\ settles s'.
Proof.
  induction vals as [|[v info] rest IH]; intros s Hs Hvals; simpl.
  - by exists s.
  - assert (Hv : is_Some (validatorInfos s !! v)) by (apply Hvals; simpl; left).
    destruct Hs as (H1 & Hrest). destruct (H1 v Hv) as [b Hb].
    unfold GetAllianceValidator. rewrite Hb.
    destruct (ClaimValidatorRewards_settles v s (conj H1 Hrest) ltac:(by exists b))
      as (c & s1 & -> & Hs1 & Hkeys).
    apply IH.
    + revert Hs1. apply settles_ext; done.
    + intros u Hu. simpl. apply Hkeys, Hvals. simpl. by right.
Qed.

(** An update of a registered asset with a weight inside the range it
    carries succeeds when the validators can be settled. *)
Lemma UpdateAllianceAsset_succeeds (ctx : Ctx) (newAsset asset : AllianceAsset)
    (s : State) :
  GetAssetByDenom s (Denom newAsset) = Some asset ->
  Min (RewardWeightRange_ newAsset) <= RewardWeight newAsset
    <= Max (RewardWeightRange_ newAsset) ->
  settles s ->
  exists s', UpdateAllianceAsset ctx newAsset s = (Ok tt, s') /\ settles s'.
Proof.
  intros Hget [Hlo Hhi] Hs. unfold UpdateAllianceAsset. rewrite Hget.
  destruct (Z.ltb_spec (RewardWeight newAsset) (Min (RewardWeightRange_ newAsset)));
    [lia|].
  destruct (Z.ltb_spec (Max (RewardWeightRange_ newAsset)) (RewardWeight newAsset));
    [lia|]. simpl.
  destruct (negb (RewardWeight newAsset =? RewardWeight asset)).
  - destruct (settleValidators_succeeds ctx asset (AllianceValidatorInfos s) s Hs)
      as (s1 & -> & Hs1).
    { intros v Hv. unfold AllianceValidatorInfos in Hv.
      apply list_elem_of_fmap in Hv as ([u x] & -> & Hx).
      apply elem_of_map_to_list in Hx. by exists x. }
    eexists. split; [reflexivity|]. revert Hs1. by apply settles_ext.
  - eexists. split; [reflexivity|]. revert Hs. by apply settles_ext.
Qed.

(** The hook succeeds on a slice that mirrors the registry when the
    validators can be settled and every asset that is due has a range that
    is not inverted and products within the limit. *)
Lemma RewardWeightChangeHook_succeeds (ctx : Ctx) (slice : list AllianceAsset) :
  forall s : State,
  NoDup (Denom <$> slice) ->
  (forall a, a ∈ slice -> GetAssetByDenom s (Denom a) = Some a) ->
  settles s ->
  (forall a, a ∈ slice -> decayDue ctx a = true ->
     Min (RewardWeightRange_ a) <= Max (RewardWeightRange_ a) /\
     decayOverflows ctx a = false) ->
  exists slice' s', RewardWeightChangeHook ctx slice s = (Ok tt, slice', s').
Proof.
  induction slice as [|a rest IH]; intros s Hnd Hfresh Hs Hok.
  - by exists [], s.
  - simpl in Hnd. apply NoDup_cons in Hnd as [Ha Hnd].
    destruct (decayDue ctx a) eqn:Edue.
    + rewrite (RewardWeightChangeHook_turn ctx a rest s Edue).
      destruct (Hok a ltac:(left) Edue) as [Hr ->].
      destruct (UpdateAllianceAsset_succeeds ctx (decayAsset ctx a) a
                  (QueueAssetRebalanceEvent s)) as (s1 & Hupd & Hs1).
      { rewrite decayAsset_Denom. apply (Hfresh a). left. }
      { destruct (decayAsset_due ctx a Edue) as (_&_&_&_&_&_&_&_&_&Hrg&_).
        rewrite Hrg. by apply decayAsset_in_range. }
      { revert Hs. by apply settles_ext. }
      rewrite Hupd.
      apply UpdateAllianceAsset_assets in Hupd as (asset & Hget & _ & Hassets).
      destruct (IH s1) as (rest' & s' & ->); [done| |done| |by eexists _, _].
      * intros b Hb. unfold GetAssetByDenom in *. rewrite Hassets.
        rewrite decayAsset_Denom in Hget. simpl in Hget.
        rewrite (Hfresh a) in Hget by left. inversion Hget; subst asset.
        rewrite lookup_insert_ne; [apply Hfresh; by right|].
        intros E. apply Ha. rewrite E. by apply list_elem_of_fmap_2.
      * intros b Hb. apply Hok. by right.
    + rewrite (RewardWeightChangeHook_skip ctx a rest s Edue).
      destruct (IH s) as (rest' & s' & ->); [done| |done| |by eexists _, _].
      * intros b Hb. apply Hfresh. by right.
      * intros b Hb. apply Hok. by right.
Qed.

(** A rate between zero and one keeps the power and the product within the
    limit when the weight is within it. *)
Lemma decay_within_limit (ctx : Ctx) (a : AllianceAsset) :
  0 <= RewardChangeRate a <= LegacyOneDec ->
  Z.abs (RewardWeight a) < 2 ^ maxDecBitLen ->
  decayOverflows ctx a = false.
Proof.
  intros Hr Hw. unfold decayOverflows. cbv zeta.
  rewrite DecPower_unit_Some by done.
  match goal with |- context [DecPowerRaw ?r ?n] =>
    pose proof (DecPowerRaw_unit r n Hr) as [Hm _] end.
  rewrite DecMul_within; [done|].
  match goal with |- context [DecMulRaw ?x ?y] =>
    pose proof (DecMulRaw_abs_le x y Hm) end.
  lia.
Qed.

(** C5 (as amended).  On a slice that mirrors the registry, when the
    validators can be settled and every asset that is due has a range with
    [min <= max] and a power and a product within the bit-length limit of
    the decimals, the hook succeeds, and each asset of the slice has one
    record, in the slice and in the registry, such that: for an asset with a
    positive change interval and a change rate different from one for which
    at least one full interval has elapsed, the reward weight of the record
    is [clamp (weight * rate^n, min, max)] with [n] the number of whole
    intervals elapsed, its last change time is the old one advanced by
    exactly [n] intervals, and its other fields are those of the asset; for
    an asset without a schedule, or for which no full interval has elapsed,
    the record is the asset as it was.  When no asset is due the hook
    changes nothing.  The limit is never exceeded by a change rate between
    zero and one on a weight that is within it. *)
Theorem RewardWeightChangeHook_decay (ctx : Ctx) (slice : list AllianceAsset)
    (s : State) :
  (forall a, 0 <= RewardChangeRate a <= LegacyOneDec ->
     Z.abs (RewardWeight a) < 2 ^ maxDecBitLen -> decayOverflows ctx a = false) /\
  (coherent s slice -> settles s ->
  (forall a, a ∈ slice -> decayDue ctx a = true ->
     Min (RewardWeightRange_ a) <= Max (RewardWeightRange_ a) /\
     decayOverflows ctx a = false) ->
  exists slice' s',
    RewardWeightChangeHook ctx slice s = (Ok tt, slice', s') /\
    length slice' = length slice /\
    (forall i a, slice !! i = Some a ->
       exists a', slice' !! i = Some a' /\
         GetAssetByDenom s' (Denom a) = Some a' /\
         (0 < RewardChangeInterval a -> RewardChangeRate a <> LegacyOneDec ->
          LastRewardChangeTime a + RewardChangeInterval a <= BlockTime ctx ->
          BlockTime ctx - LastRewardChangeTime a <= maxInt64 ->
          let n := (BlockTime ctx - LastRewardChangeTime a) / RewardChangeInterval a in
          DecPower (RewardChangeRate a) n = Some (DecPowerRaw (RewardChangeRate a) n) /\
          DecMul (RewardWeight a) (DecPowerRaw (RewardChangeRate a) n)
          = Some (DecMulRaw (RewardWeight a) (DecPowerRaw (RewardChangeRate a) n)) /\
          RewardWeight a'
          = Z.min (Max (RewardWeightRange_ a))
              (Z.max (Min (RewardWeightRange_ a))
                 (DecMulRaw (RewardWeight a) (DecPowerRaw (RewardChangeRate a) n))) /\
          LastRewardChangeTime a' = LastRewardChangeTime a + n * RewardChangeInterval a /\
          Denom a' = Denom a /\ TakeRate a' = TakeRate a /\
          TotalTokens a' = TotalTokens a /\
          TotalValidatorShares a' = TotalValidatorShares a /\
          RewardStartTime a' = RewardStartTime a /\
          RewardChangeRate a' = RewardChangeRate a /\
          RewardChangeInterval a' = RewardChangeInterval a /\
          RewardWeightRange_ a' = RewardWeightRange_ a /\
          IsInitialized a' = IsInitialized a) /\
         (RewardChangeInterval a = 0 \/ RewardChangeRate a = LegacyOneDec \/
          BlockTime ctx < LastRewardChangeTime a + RewardChangeInterval a ->
          a' = a)) /\
    ((forall a, a ∈ slice ->
        RewardChangeInterval a = 0 \/ RewardChangeRate a = LegacyOneDec \/
        BlockTime ctx < LastRewardChangeTime a + RewardChangeInterval a) ->
     slice' = slice /\ s' = s)).
Proof.
  split; [intros a; apply decay_within_limit|].
  intros [Hnd Hfresh] Hs Hok.
  destruct (RewardWeightChangeHook_succeeds ctx slice s Hnd Hfresh Hs Hok)
    as (slice' & s' & Hrun).
  exists slice', s'. split; [exact Hrun|].
  destruct (RewardWeightChangeHook_run ctx slice s slice' s' Hnd Hfresh Hrun)
    as (-> & Hin & _).
  split; [by rewrite length_fmap|]. split.
  - intros i a Hi. exists (decayAsset ctx a).
    assert (Ha : a ∈ slice) by (by eapply list_elem_of_lookup_2).
    split; [by rewrite list_lookup_fmap, Hi|].
    split; [apply (Hin a Ha)|]. split.
    + intros Hpos Hr Hdue Hmax n.
      assert (Ed : decayDue ctx a = true) by (apply decayDue_true; [lia|done..]).
      destruct (intervals_in_range (BlockTime ctx) (LastRewardChangeTime a)
                  (RewardChangeInterval a) Hpos Hdue Hmax) as (Hn & Hn1 & Hadv).
      fold n in Hn, Hn1, Hadv.
      destruct (Hok a Ha Ed) as [_ Hov].
      destruct (decayAsset_due ctx a Ed)
        as (Hw & Ht & F1 & F2 & F3 & F4 & F5 & F6 & F7 & F8 & F9).
      rewrite Hn in Hw, Ht. rewrite Hadv in Ht. unfold TimeAdd in Ht.
      split_and!; try done.
      * unfold decayOverflows in Hov. rewrite Hn in Hov.
        destruct (DecPower (RewardChangeRate a) n) as [m|] eqn:Em; [|done].
        by rewrite (DecPower_Some _ _ _ Em).
      * unfold decayOverflows in Hov. rewrite Hn in Hov.
        destruct (DecPower (RewardChangeRate a) n) as [m|] eqn:Em; [|done].
        rewrite <- (DecPower_Some _ _ _ Em).
        destruct (DecMul (RewardWeight a) m) as [w|] eqn:Ew; [|done].
        by rewrite (DecMul_Some _ _ _ Ew).
      * rewrite Hw.
        set (w0 := DecMulRaw (RewardWeight a) (DecPowerRaw (RewardChangeRate a) n)).
        destruct (Z.ltb_spec w0 (Min (RewardWeightRange_ a)));
          match goal with |- context [Max ?r <? ?x] =>
            destruct (Z.ltb_spec (Max r) x) end; lia.
    + intros Hidle. by apply decayAsset_skip, decayDue_false.
  - intros Hidle. rewrite (RewardWeightChangeHook_idle ctx slice s Hidle) in Hrun.
    injection Hrun as Hsl Hst. split; symmetry; assumption.
Qed.

End Decay.

(** *** Reward index after a deposit (C2) *)

Section RewardIndex.

(** C2.  A deposit of coins to the pool of a validator whose total weighted
    value [W] is not zero succeeds when the depositor holds the coins, and
    raises the global index of each deposited denom by exactly the decimal
    quotient [A / W] of the deposited amount, leaving the other indices as
    they were.  In particular 2,000,000 deposited against a weighted value
    of 2,000,000 gives the index 1 to a denom not seen before, and a further
    2,000,000 deposited against 12,000,000 raises the index 1 to the decimal
    7/6. *)
Theorem AddAssetsToRewardPool_index (from valAddr : string) (coins : Coins) (s : State) :
  let W := totalAssetWeight s (InfoOf s valAddr) in
  W <> 0 -> from <> RewardsPoolName ->
  (forall D A, coins !! D = Some A -> A <= AmountOf (BalanceOf s from) D) ->
  exists s',
    AddAssetsToRewardPool from valAddr coins s = (Ok tt, s') /\
    (forall D A, coins !! D = Some A ->
       DecQuo (LegacyNewDecFromInt A) W = Some (DecQuoRaw (LegacyNewDecFromInt A) W) /\
       GlobalRewardHistory (InfoOf s' valAddr) !! D
       = Some (default 0 (GlobalRewardHistory (InfoOf s valAddr) !! D)
               + DecQuoRaw (LegacyNewDecFromInt A) W)) /\
    (forall D, coins !! D = None ->
       GlobalRewardHistory (InfoOf s' valAddr) !! D
       = GlobalRewardHistory (InfoOf s valAddr) !! D) /\
    (W = LegacyNewDec 2000000 -> forall D, coins !! D = Some 2000000 ->
       GlobalRewardHistory (InfoOf s valAddr) !! D = None ->
       GlobalRewardHistory (InfoOf s' valAddr) !! D = Some (LegacyNewDec 1)) /\
    (W = LegacyNewDec 12000000 -> forall D, coins !! D = Some 2000000 ->
       GlobalRewardHistory (InfoOf s valAddr) !! D = Some (LegacyNewDec 1) ->
       GlobalRewardHistory (InfoOf s' valAddr) !! D
       = DecQuo (LegacyNewDec 7) (LegacyNewDec 6)).
Proof.
  intros W HW Hfrom Hcov. unfold AddAssetsToRewardPool. fold W. unfold DecIsZero.
  destruct (Z.eqb_spec W 0); [done|].
  match goal with |- context [SendCoins from RewardsPoolName coins ?t] =>
    destruct (SendCoins_ok from RewardsPoolName coins t Hfrom) as (s' & Hsend & _ & _ & _)
  end; [exact Hcov|].
  pose proof (SendCoins_frame _ _ _ _ _ _ Hsend) as (_&_&_&Hinfo&_).
  exists s'. split; [exact Hsend|].
  assert (Hidx : forall D, GlobalRewardHistory (InfoOf s' valAddr) !! D
            = addIndex W (GlobalRewardHistory (InfoOf s valAddr) !! D) (coins !! D)).
  { intros D. unfold InfoOf at 1. rewrite Hinfo. simpl. rewrite lookup_insert_eq. simpl.
    rewrite lookup_merge. unfold diag_None, addIndex.
    by destruct (GlobalRewardHistory (InfoOf s valAddr) !! D), (coins !! D). }
  split_and!.
  - intros D A HD. split.
    + unfold DecQuo. by destruct (Z.eqb_spec W 0).
    + by rewrite Hidx, HD.
  - intros D HD. by rewrite Hidx, HD.
  - intros -> D HD Hold. by rewrite Hidx, HD, Hold.
  - intros -> D HD Hold. by rewrite Hidx, HD, Hold.
Qed.

End RewardIndex.

(** *** Rebalancer (C7) *)

Section Rebalancer.

Lemma eqModQueue_refl (s : State) : eqModQueue s s.
Proof. done. Qed.

Lemma eqModQueue_trans (s t u : State) : eqModQueue s t -> eqModQueue t u -> eqModQueue s u.
Proof. unfold eqModQueue. congruence. Qed.

Lemma eqModQueue_queue (s : State) : eqModQueue s (QueueAssetRebalanceEvent s).
Proof. done. Qed.

Lemma eqModQueue_fields (s t : State) :
  eqModQueue s t ->
  assets t = assets s /\ params t = params s /\ validatorInfos t = validatorInfos s /\
  snapshots t = snapshots s /\ delegations t = delegations s /\ bank t = bank s /\
  supply t = supply s /\ distribution t = distribution s /\ bondDenom t = bondDenom s /\
  bondedStatus t = bondedStatus s /\ moduleDelegations t = moduleDelegations s.
Proof.
  unfold eqModQueue. intros H.
  split_and!;
    [apply (f_equal assets) in H|apply (f_equal params) in H
    |apply (f_equal validatorInfos) in H|apply (f_equal snapshots) in H
    |apply (f_equal delegations) in H|apply (f_equal bank) in H
    |apply (f_equal supply) in H|apply (f_equal distribution) in H
    |apply (f_equal bondDenom) in H|apply (f_equal bondedStatus) in H
    |apply (f_equal moduleDelegations) in H]; by simpl in H.
Qed.

(** The loop over the assets only queues rebalance events, and its result
    depends on the validator through its shares and on the unbonded shares
    through their amounts. *)
Lemma expectedBondLoop_spec (ctx : Ctx) (n : Z) (u : gmap string Z)
    (val : AllianceValidatorInfo) (slice : list AllianceAsset) :
  forall (acc : Dec) (s : State),
  eqModQueue s (expectedBondLoop ctx n u val slice acc s).2 /\
  forall (t : State) (u' : gmap string Z) (val' : AllianceValidatorInfo),
    (forall d, AmountOf u' d = AmountOf u d) ->
    ValidatorShares val' = ValidatorShares val ->
    (expectedBondLoop ctx n u' val' slice acc t).1
    = (expectedBondLoop ctx n u val slice acc s).1.
Proof.
  induction slice as [|a rest IH]; intros acc s; [done|]. simpl.
  destruct (RewardsStarted a (BlockTime ctx)); simpl.
  - split.
    + destruct (_ && _); apply IH.
    + intros t u' val' Hu Hv. rewrite Hu, Hv. destruct (_ && _); by apply IH.
  - split.
    + eapply eqModQueue_trans; [apply eqModQueue_queue|apply IH].
    + intros t u' val' Hu Hv. by apply IH.
Qed.

Lemma currentBondedAmount_eq (s : State) (v : string) :
  currentBondedAmount s v = default 0 (moduleDelegations s !! v) * precisionReuse.
Proof. unfold currentBondedAmount. by destruct (moduleDelegations s !! v). Qed.

(** A validator whose stake is within one token of the expected amount is
    left alone. *)
Lemma rebalanceValidator_idle (ctx : Ctx) (n : Z) (u : gmap string Z)
    (slice : list AllianceAsset) (v : string) (val : AllianceValidatorInfo) (s : State) :
  - precisionReuse
    < (expectedBondLoop ctx n u val slice LegacyZeroDec s).1 - currentBondedAmount s v
    < precisionReuse ->
  exists s', rebalanceValidator ctx n u slice v val s = (Ok tt, s') /\ eqModQueue s s'.
Proof.
  intros Hidle. unfold rebalanceValidator.
  pose proof (proj1 (expectedBondLoop_spec ctx n u val slice LegacyZeroDec s)) as Hq.
  destruct (expectedBondLoop ctx n u val slice LegacyZeroDec s) as [E s0]. simpl in *.
  exists s0. split; [|done]. unfold DecTruncateInt.
  destruct (Z.ltb_spec (currentBondedAmount s v) E).
  - rewrite Z.quot_small by lia. done.
  - destruct (Z.ltb_spec E (currentBondedAmount s v)); [|done].
    rewrite Z.quot_small by lia. done.
Qed.

Lemma bondedSum_comm (st : string -> bool) (j1 j2 : string) (z1 z2 y : Z) :
  (if st j1 then (if st j2 then y + z2 else y) + z1 else if st j2 then y + z2 else y)
  = (if st j2 then (if st j1 then y + z1 else y) + z2 else if st j1 then y + z1 else y).
Proof. destruct (st j1), (st j2); lia. Qed.

Lemma bondedSum_insert (st : string -> bool) (m : gmap string Z) (v : string) (x : Z) :
  bondedSum st (<[v := x]> m)
  = bondedSum st m + (if st v then x - default 0 (m !! v) else 0).
Proof.
  unfold bondedSum.
  assert (Hfresh : forall m' : gmap string Z, m' !! v = None ->
    map_fold (fun a amt t => if st a then t + amt else t) 0 (<[v := x]> m')
    = (if st v then map_fold (fun a amt t => if st a then t + amt else t) 0 m' + x
       else map_fold (fun a amt t => if st a then t + amt else t) 0 m')).
  { intros m' Hm'. rewrite map_fold_insert_L; [done| |done].
    intros. apply bondedSum_comm. }
  destruct (m !! v) as [y|] eqn:E.
  - rewrite <- (insert_delete_eq m v x).
    rewrite Hfresh by apply lookup_delete_eq.
    rewrite (map_fold_delete_L _ _ v y m); [|intros; apply bondedSum_comm|done].
    simpl. destruct (st v); lia.
  - rewrite Hfresh by done. simpl. destruct (st v); lia.
Qed.

Lemma bondedSum_delete (st : string -> bool) (m : gmap string Z) (v : string) :
  bondedSum st (delete v m)
  = bondedSum st m - (if st v then default 0 (m !! v) else 0).
Proof.
  unfold bondedSum. destruct (m !! v) as [y|] eqn:E.
  - rewrite (map_fold_delete_L _ _ v y m); [|intros; apply bondedSum_comm|done].
    simpl. destruct (st v); lia.
  - rewrite delete_id by done. simpl. destruct (st v); lia.
Qed.

Lemma GetAllianceBondedAmount_eq (s : State) :
  GetAllianceBondedAmount s = bondedSum (IsBonded s) (moduleDelegations s).
Proof. reflexivity. Qed.

Lemma SendCoins_inv (from to : string) (c : Coins) (s s' : State) :
  SendCoins from to c s = (Ok tt, s') -> from <> to ->
  BalanceOf s' to = CoinsAddAll (BalanceOf s to) c /\
  BalanceOf s' from = CoinsSubAll (BalanceOf s from) c /\
  forall a, a <> from -> a <> to -> BalanceOf s' a = BalanceOf s a.
Proof.
  unfold SendCoins. destruct (CoinsCovered _ _); [|done].
  intros H Hne. inversion H; subst. unfold BalanceOf. simpl. split_and!.
  - rewrite lookup_insert_eq. by rewrite lookup_insert_ne by done.
  - rewrite lookup_insert_ne by done. by rewrite lookup_insert_eq.
  - intros a H1 H2. by rewrite !lookup_insert_ne by done.
Qed.

Lemma AmountOf_singleton (d : string) (x : Z) (d' : string) :
  AmountOf {[d := x]} d' = if decide (d = d') then x else 0.
Proof.
  unfold AmountOf. case_decide; subst.
  - by rewrite lookup_singleton_eq.
  - by rewrite lookup_singleton_ne.
Qed.

(** The settlement of a validator leaves the bonded pool and the shares of
    every validator as they were. *)
Lemma ClaimValidatorRewards_ledger (v : string) (s s' : State) (c : Coins) :
  ClaimValidatorRewards v s = (Ok c, s') ->
  BalanceOf s' BondedPoolName = BalanceOf s BondedPoolName /\
  (forall w, ValidatorShares (InfoOf s' w) = ValidatorShares (InfoOf s w)) /\
  (forall w, is_Some (validatorInfos s !! w) -> is_Some (validatorInfos s' !! w)) /\
  (forall w, is_Some (validatorInfos s' !! w) -> w = v \/ is_Some (validatorInfos s !! w)).
Proof.
  unfold ClaimValidatorRewards.
  destruct (distribution s !! v) as [[c0|]|] eqn:Hd;
    [|done|intros H; inversion H; subst; split_and!; auto].
  destruct (CoinsEmpty c0); [intros H; inversion H; subst; split_and!; auto|].
  unfold AddAssetsToRewardPool.
  destruct (DecIsZero _).
  { intros H; inversion H; subst. unfold BalanceOf, InfoOf. simpl.
    split_and!; auto. by rewrite lookup_insert_ne. }
  match goal with |- context [SendCoins ?f ?t ?c ?st] =>
    destruct (SendCoins f t c st) as [r0 s2] eqn:Hsend end.
  destruct r0 as [[]| |]; [|done..]. intros H. inversion H; subst.
  pose proof (SendCoins_frame _ _ _ _ _ _ Hsend) as (_&_&_&Hinfo&_).
  apply SendCoins_inv in Hsend as (_ & _ & Hother); [|done].
  split_and!.
  - rewrite Hother by done. unfold BalanceOf. simpl. by rewrite lookup_insert_ne.
  - intros w. unfold InfoOf at 1. rewrite Hinfo. simpl.
    destruct (decide (v = w)) as [->|Hne].
    + by rewrite lookup_insert_eq.
    + by rewrite lookup_insert_ne.
  - intros w Hw. rewrite Hinfo. simpl.
    destruct (decide (v = w)) as [->|Hne].
    + by rewrite lookup_insert_eq.
    + by rewrite lookup_insert_ne.
  - intros w. rewrite Hinfo. simpl.
    destruct (decide (v = w)) as [->|Hne]; [by left|].
    rewrite lookup_insert_ne by done. by right.
Qed.

Lemma bondedSum_ext (st st' : string -> bool) (m : gmap string Z) :
  (forall v, st v = st' v) -> bondedSum st m = bondedSum st' m.
Proof.
  intros Hst. unfold bondedSum. rewrite !map_fold_foldr.
  induction (map_to_list m) as [|[v x] l IH]; [done|]. simpl. by rewrite IH, Hst.
Qed.

Lemma DecTruncateInt_NewDec (x : Z) : DecTruncateInt (LegacyNewDecFromInt x) = x.
Proof. unfold DecTruncateInt, LegacyNewDecFromInt. by apply Z.quot_mul. Qed.

(** What is left between the expected and the current amount once the
    whole tokens of the difference have been delegated or unbonded. *)
Lemma truncate_remainder (d : Z) :
  0 <= d -> 0 <= d - DecTruncateInt d * precisionReuse < precisionReuse.
Proof.
  intros Hd. unfold DecTruncateInt.
  assert (HP : 0 < precisionReuse) by reflexivity.
  rewrite Z.quot_div_nonneg by lia.
  pose proof (Z.mod_pos_bound d precisionReuse HP).
  pose proof (Z.div_mod d precisionReuse ltac:(lia)). lia.
Qed.

(** One successful turn of the second loop: the stake of the validator ends
    within one token of the expected amount, the other validators and the
    shares are untouched, and for a bonded validator the native bond amount
    is the same afterwards. *)
Lemma rebalanceValidator_ok (ctx : Ctx) (n : Z) (u : gmap string Z)
    (slice : list AllianceAsset) (v : string) (val : AllianceValidatorInfo)
    (s s' : State) :
  rebalanceValidator ctx n u slice v val s = (Ok tt, s') ->
  - precisionReuse
    < (expectedBondLoop ctx n u val slice LegacyZeroDec s).1 - currentBondedAmount s' v
    < precisionReuse /\
  bondedStatus s' = bondedStatus s /\ assets s' = assets s /\
  bondDenom s' = bondDenom s /\
  (forall w, w <> v -> moduleDelegations s' !! w = moduleDelegations s !! w) /\
  (forall w, ValidatorShares (InfoOf s' w) = ValidatorShares (InfoOf s w)) /\
  (forall w, is_Some (validatorInfos s !! w) -> is_Some (validatorInfos s' !! w)) /\
  (forall w, is_Some (validatorInfos s' !! w) -> w = v \/ is_Some (validatorInfos s !! w)) /\
  (IsBonded s v = true ->
   TotalBondedTokens s' - GetAllianceBondedAmount s'
   = TotalBondedTokens s - GetAllianceBondedAmount s).
Proof.
  unfold rebalanceValidator.
  pose proof (proj1 (expectedBondLoop_spec ctx n u val slice LegacyZeroDec s)) as Hq.
  destruct (expectedBondLoop ctx n u val slice LegacyZeroDec s) as [E s0]. simpl in *.
  apply eqModQueue_fields in Hq as (Q1&Q2&Q3&Q4&Q5&Q6&Q7&Q8&Q9&Q10&Q11).
  assert (Hcur0 : currentBondedAmount s0 v = currentBondedAmount s v)
    by (unfold currentBondedAmount; by rewrite Q11).
  assert (HP : 0 < precisionReuse) by reflexivity.
  assert (Hidle : - precisionReuse < E - currentBondedAmount s v < precisionReuse ->
    - precisionReuse < E - currentBondedAmount s0 v < precisionReuse /\
    bondedStatus s0 = bondedStatus s /\ assets s0 = assets s /\
    bondDenom s0 = bondDenom s /\
    (forall w, w <> v -> moduleDelegations s0 !! w = moduleDelegations s !! w) /\
    (forall w, ValidatorShares (InfoOf s0 w) = ValidatorShares (InfoOf s w)) /\
    (forall w, is_Some (validatorInfos s !! w) -> is_Some (validatorInfos s0 !! w)) /\
    (forall w, is_Some (validatorInfos s0 !! w) -> w = v \/ is_Some (validatorInfos s !! w)) /\
    (IsBonded s v = true ->
     TotalBondedTokens s0 - GetAllianceBondedAmount s0
     = TotalBondedTokens s - GetAllianceBondedAmount s)).
  { intros Hi. unfold InfoOf, TotalBondedTokens, GetAllianceBondedAmount, BalanceOf, IsBonded.
    rewrite Hcur0, Q3, Q6, Q9, Q10, Q11. split_and!; auto; lia. }
  destruct (Z.ltb_spec (currentBondedAmount s v) E) as [Hlt|Hge].
  - (* delegate *)
    pose proof (truncate_remainder (E - currentBondedAmount s v) ltac:(lia)) as Hrem.
    destruct (Z.eqb_spec (DecTruncateInt (E - currentBondedAmount s v)) 0) as [Hz|Hnz].
    { intros H. inversion H; subst. apply Hidle. lia. }
    set (amt := DecTruncateInt (E - currentBondedAmount s v)) in *.
    destruct (ClaimValidatorRewards v (MintCoins ModuleName {[bondDenom s0 := amt]} s0))
      as [[c| |] s2] eqn:Hclaim; [|done..].
    pose proof (ClaimValidatorRewards_frame _ _ _ _ Hclaim)
      as (F1&F2&F3&F4&F5&F6&F7&F8&F9&Fo&_).
    apply ClaimValidatorRewards_ledger in Hclaim as (L1&L2&L3&L4).
    unfold Delegate.
    match goal with |- context [SendCoins ?f ?t ?c s2] =>
      destruct (SendCoins f t c s2) as [r3 s3] eqn:Hsend end.
    destruct r3 as [[]| |]; [|done..]. intros H. inversion H; subst s'. clear H.
    pose proof (SendCoins_frame _ _ _ _ _ _ Hsend) as (S1&S2&S3&S4&S5&S6&S7&S8&S9&S10&S11).
    simpl in F1, F5, F6, F8, L1, L2, L3, L4.
    assert (Hmd : moduleDelegations s3 = moduleDelegations s) by congruence.
    split; [|split_and!].
    + rewrite currentBondedAmount_eq. simpl. rewrite Hmd, lookup_insert_eq. simpl.
      rewrite currentBondedAmount_eq in Hrem, Hlt. fold amt in Hrem. lia.
    + simpl. congruence.
    + simpl. congruence.
    + simpl. congruence.
    + intros w Hw. simpl. rewrite lookup_insert_ne by done. by rewrite Hmd.
    + intros w. change (InfoOf (set_moduleDelegations _ s3) w) with (InfoOf s3 w).
      unfold InfoOf at 1. rewrite S4. fold (InfoOf s2 w). rewrite L2.
      unfold InfoOf. simpl. by rewrite Q3.
    + intros w Hw. simpl. rewrite S4. apply L3. simpl. by rewrite Q3.
    + intros w Hw. simpl in Hw. rewrite S4 in Hw. apply L4 in Hw as [?|Hw]; [by left|].
      right. simpl in Hw. by rewrite Q3 in Hw.
    + intros Hb.
      assert (Hb2 : IsBonded s2 v = true) by (unfold IsBonded in *; congruence).
      rewrite Hb2 in Hsend.
      apply SendCoins_inv in Hsend as (Hto & _ & _); [|done].
      unfold TotalBondedTokens.
      change (BalanceOf (set_moduleDelegations _ s3) BondedPoolName)
        with (BalanceOf s3 BondedPoolName).
      change (bondDenom (set_moduleDelegations _ s3)) with (bondDenom s3).
      rewrite Hto, L1, AmountOf_CoinsAddAll, AmountOf_singleton.
      assert (Hbd : bondDenom s3 = bondDenom s2) by congruence.
      assert (Hbd2 : bondDenom s2 = bondDenom s) by congruence.
      rewrite Hbd. destruct (decide (bondDenom s2 = bondDenom s2)); [|done].
      rewrite !GetAllianceBondedAmount_eq. simpl.
      rewrite (bondedSum_ext (IsBonded (set_moduleDelegations _ s3)) (IsBonded s)).
      2:{ intros w. unfold IsBonded. simpl. congruence. }
      rewrite Hmd, bondedSum_insert. rewrite Hb.
      match goal with |- context [BalanceOf (MintCoins ?a ?c ?t) BondedPoolName] =>
        replace (BalanceOf (MintCoins a c t) BondedPoolName)
          with (BalanceOf s BondedPoolName) end.
      2:{ unfold BalanceOf. simpl. rewrite lookup_insert_ne by done. by rewrite Q6. }
      rewrite Hbd2. lia.
  - destruct (Z.ltb_spec E (currentBondedAmount s v)) as [Hlt|Heq].
    2:{ intros H. inversion H; subst. apply Hidle. lia. }
    (* unbond *)
    pose proof (truncate_remainder (currentBondedAmount s v - E) ltac:(lia)) as Hrem.
    destruct (Z.eqb_spec (DecTruncateInt (currentBondedAmount s v - E)) 0) as [Hz|Hnz].
    { intros H. inversion H; subst. apply Hidle. lia. }
    set (amt := DecTruncateInt (currentBondedAmount s v - E)) in *.
    unfold ValidateUnbondAmount. rewrite Q11.
    destruct (moduleDelegations s !! v) as [staked|] eqn:Hst; [|done].
    destruct (Z.ltb_spec staked amt) as [?|Hcov]; [done|].
    destruct (ClaimValidatorRewards v s0) as [[c| |] s1] eqn:Hclaim; [|done..].
    pose proof (ClaimValidatorRewards_frame _ _ _ _ Hclaim)
      as (F1&F2&F3&F4&F5&F6&F7&F8&F9&Fo&_).
    apply ClaimValidatorRewards_ledger in Hclaim as (L1&L2&L3&L4).
    unfold Unbond. rewrite DecTruncateInt_NewDec, F6, Q11, Hst.
    destruct (Z.ltb_spec staked amt) as [?|_]; [lia|].
    unfold BurnCoins.
    match goal with |- context [CoinsCovered ?c ?b] => destruct (CoinsCovered c b) end;
      [|done].
    intros H. inversion H; subst s'. clear H. simpl.
    assert (Hcurv : currentBondedAmount s v = staked * precisionReuse).
    { rewrite currentBondedAmount_eq, Hst. done. }
    split; [|split_and!].
    + rewrite currentBondedAmount_eq. simpl. rewrite F6, Q11.
      destruct (Z.eqb_spec (staked - amt) 0) as [Hzero|Hnzero].
      * rewrite lookup_delete_eq. simpl. lia.
      * rewrite lookup_insert_eq. simpl. lia.
    + congruence.
    + congruence.
    + congruence.
    + intros w Hw. rewrite F6, Q11.
      destruct (staked - amt =? 0); [by rewrite lookup_delete_ne|by rewrite lookup_insert_ne].
    + intros w. unfold InfoOf at 1. simpl. fold (InfoOf s1 w). rewrite L2.
      unfold InfoOf. by rewrite Q3.
    + intros w Hw. apply L3. by rewrite Q3.
    + intros w Hw. apply L4 in Hw as [?|Hw]; [by left|]. right. by rewrite Q3 in Hw.
    + intros Hb. unfold TotalBondedTokens, BalanceOf. simpl. rewrite lookup_insert_eq.
      simpl. rewrite AmountOf_CoinsSubAll, AmountOf_singleton.
      destruct (decide (bondDenom s1 = bondDenom s1)); [|done].
      fold (BalanceOf s1 BondedPoolName). rewrite L1.
      rewrite !GetAllianceBondedAmount_eq. simpl.
      match goal with |- context [bondedSum ?f _] =>
        rewrite (bondedSum_ext f (IsBonded s)) end.
      2:{ intros w. unfold IsBonded. simpl. congruence. }
      rewrite F6, Q11.
      assert (Hsum : bondedSum (IsBonded s)
                 (if staked - amt =? 0 then delete v (moduleDelegations s)
                  else <[v := staked - amt]> (moduleDelegations s))
               = bondedSum (IsBonded s) (moduleDelegations s) - amt).
      { destruct (Z.eqb_spec (staked - amt) 0).
        - rewrite bondedSum_delete, Hb, Hst. simpl. lia.
        - rewrite bondedSum_insert, Hb, Hst. simpl. lia. }
      rewrite Hsum. unfold BalanceOf. rewrite Q6, F8, Q9. lia.
Qed.

Lemma expectedBond_indep (ctx : Ctx) (n : Z) (u u' : gmap string Z)
    (val val' : AllianceValidatorInfo) (slice : list AllianceAsset) (s t : State) :
  (forall d, AmountOf u' d = AmountOf u d) ->
  ValidatorShares val' = ValidatorShares val ->
  (expectedBondLoop ctx n u' val' slice LegacyZeroDec t).1
  = (expectedBondLoop ctx n u val slice LegacyZeroDec s).1.
Proof. apply expectedBondLoop_spec. Qed.

Lemma rebalanceLoop_ok (ctx : Ctx) (n : Z) (u : gmap string Z)
    (slice : list AllianceAsset) (L : list (string * AllianceValidatorInfo)) :
  forall (s s1 : State),
  NoDup L.*1 ->
  rebalanceLoop ctx n u slice L s = (Ok tt, s1) ->
  (forall v val, (v, val) ∈ L ->
     - precisionReuse
       < (expectedBondLoop ctx n u val slice LegacyZeroDec s).1 - currentBondedAmount s1 v
       < precisionReuse) /\
  bondedStatus s1 = bondedStatus s /\ assets s1 = assets s /\
  bondDenom s1 = bondDenom s /\
  (forall w, w ∉ L.*1 -> moduleDelegations s1 !! w = moduleDelegations s !! w) /\
  (forall w, ValidatorShares (InfoOf s1 w) = ValidatorShares (InfoOf s w)) /\
  (forall w, is_Some (validatorInfos s !! w) -> is_Some (validatorInfos s1 !! w)) /\
  (forall w, is_Some (validatorInfos s1 !! w) -> w ∈ L.*1 \/ is_Some (validatorInfos s !! w)) /\
  ((forall v, v ∈ L.*1 -> IsBonded s v = true) ->
   TotalBondedTokens s1 - GetAllianceBondedAmount s1
   = TotalBondedTokens s - GetAllianceBondedAmount s).
Proof.
  induction L as [|[v val] rest IH]; intros s s1 Hnd Hrun; simpl in Hrun.
  - inversion Hrun; subst. split_and!; auto. intros v val Hin. by apply elem_of_nil in Hin.
  - simpl in Hnd. apply NoDup_cons in Hnd as [Hv Hnd].
    destruct (rebalanceValidator ctx n u slice v val s) as [[[]| |] sa] eqn:Hstep;
      [|done..].
    apply rebalanceValidator_ok in Hstep as (A1&A2&A3&A4&A5&A6&A7&A8&A9).
    apply IH in Hrun as (B1&B2&B3&B4&B5&B6&B7&B8&B9); [|done].
    split_and!.
    + intros w val' Hin. apply elem_of_cons in Hin as [Heq|Hin].
      * inversion Heq; subst w val'.
        rewrite currentBondedAmount_eq, (B5 v Hv), <- currentBondedAmount_eq. exact A1.
      * rewrite <- (expectedBond_indep ctx n u u val' val' slice s sa) by done.
        by apply B1.
    + congruence.
    + congruence.
    + congruence.
    + intros w Hw. simpl in Hw. apply not_elem_of_cons in Hw as [Hne Hw].
      rewrite B5 by done. by apply A5.
    + intros w. by rewrite B6, A6.
    + intros w Hw. by apply B7, A7.
    + intros w Hw. simpl. apply B8 in Hw as [Hw|Hw]; [left; by right|].
      apply A8 in Hw as [->|Hw]; [left; by left|by right].
    + intros Hb. rewrite B9.
      * apply A9, Hb. simpl. by left.
      * intros w Hw. unfold IsBonded. rewrite A2. apply Hb. simpl. by right.
Qed.

Lemma rebalanceLoop_idle (ctx : Ctx) (n : Z) (u : gmap string Z)
    (slice : list AllianceAsset) (L : list (string * AllianceValidatorInfo)) :
  forall (s : State),
  (forall v val, (v, val) ∈ L ->
     - precisionReuse
       < (expectedBondLoop ctx n u val slice LegacyZeroDec s).1 - currentBondedAmount s v
       < precisionReuse) ->
  exists s', rebalanceLoop ctx n u slice L s = (Ok tt, s') /\ eqModQueue s s'.
Proof.
  induction L as [|[v val] rest IH]; intros s Hidle; simpl.
  - by exists s.
  - destruct (rebalanceValidator_idle ctx n u slice v val s (Hidle v val ltac:(left)))
      as (sa & -> & Hq).
    destruct (IH sa) as (s' & Hrun & Hq').
    + intros w val' Hin.
      rewrite (expectedBond_indep ctx n u u val' val' slice s sa) by done.
      pose proof (eqModQueue_fields _ _ Hq) as (_&_&_&_&_&_&_&_&_&_&Hmd).
      rewrite currentBondedAmount_eq, Hmd, <- currentBondedAmount_eq.
      apply Hidle. by right.
    + exists s'. split; [done|]. by eapply eqModQueue_trans.
Qed.

(** The first loop: the bonded validators of the ledger with their records,
    and the shares of the others summed per denom; it fails only on a
    validator that the bonding subsystem does not know. *)
Lemma partitionValidators_spec (s : State) (vals : list (string * AllianceValidatorInfo)) :
  forall (bl : list (string * AllianceValidatorInfo)) (ul : gmap string Z),
  match partitionValidators s vals bl ul with
  | Ok (bl', ul') =>
    (forall v val, (v, val) ∈ bl' ->
       (v, val) ∈ bl \/ (v ∈ vals.*1 /\ val = InfoOf s v /\ IsBonded s v = true)) /\
    bl'.*1 = bl.*1 ++ filter (fun v => IsBonded s v = true) vals.*1 /\
    (forall d, AmountOf ul' d = AmountOf ul d + unbondedSum s d (reverse vals.*1)) /\
    (forall v, v ∈ vals.*1 -> is_Some (bondedStatus s !! v))
  | Err _ => exists v, v ∈ vals.*1 /\ bondedStatus s !! v = None
  | Panic => False
  end.
Proof.
  induction vals as [|[v info] rest IH]; intros bl ul; simpl.
  - split_and!; [by left|by rewrite app_nil_r|intros d; simpl; lia|].
    by intros v ?%elem_of_nil.
  - unfold GetAllianceValidator.
    destruct (bondedStatus s !! v) as [b|] eqn:Hb; [|exists v; split; [by left|done]].
    assert (Hbv : IsBonded s v = b) by (unfold IsBonded; by rewrite Hb).
    destruct b.
    + specialize (IH (bl ++ [(v, InfoOf s v)]) ul).
      destruct (partitionValidators s rest _ ul) as [[bl' ul']|e|]; [|
        destruct IH as (w & Hw & Hn); exists w; split; [by right|done] |done].
      destruct IH as (I1 & I2 & I3 & I4). split_and!.
      * intros w val Hin. apply I1 in Hin as [Hin|(Hw & -> & Hbw)].
        -- apply elem_of_app in Hin as [Hin|Hin]; [by left|].
           apply list_elem_of_singleton in Hin. inversion Hin; subst.
           right. split_and!; [by left|done|done].
        -- right. split_and!; [by right|done|done].
      * rewrite I2, fmap_app, <- app_assoc. simpl.
        rewrite filter_cons_True by done. done.
      * intros d. rewrite I3, reverse_cons. unfold unbondedSum at 2.
        rewrite foldr_app. simpl. rewrite Hbv. done.
      * intros w Hw. apply elem_of_cons in Hw as [->|Hw]; [by rewrite Hb|by apply I4].
    + specialize (IH bl (CoinsAddAll ul (ValidatorShares (InfoOf s v)))).
      destruct (partitionValidators s rest bl _) as [[bl' ul']|e|]; [|
        destruct IH as (w & Hw & Hn); exists w; split; [by right|done] |done].
      destruct IH as (I1 & I2 & I3 & I4). split_and!.
      4:{ intros w Hw. apply elem_of_cons in Hw as [->|Hw]; [by rewrite Hb|by apply I4]. }
      * intros w val Hin. apply I1 in Hin as [Hin|(Hw & -> & Hbw)]; [by left|].
        right. split_and!; [by right|done|done].
      * rewrite I2. rewrite filter_cons_False; [done|]. rewrite Hbv. done.
      * intros d. rewrite I3, AmountOf_CoinsAddAll, reverse_cons. unfold unbondedSum at 2.
        rewrite foldr_app. simpl. rewrite Hbv.
        assert (Hshift : forall (l : list string) (x : Z),
          foldr (fun v0 total => if IsBonded s v0 then total
                   else total + AmountOf (ValidatorShares (InfoOf s v0)) d) x l
          = x + unbondedSum s d l).
        { induction l as [|y l IHl]; intros x; simpl; [lia|].
          rewrite IHl. destruct (IsBonded s y); lia. }
        rewrite Hshift. unfold fmap. lia.
Qed.

Lemma unbondedSum_perm (s : State) (d : string) (l k : list string) :
  l ≡ₚ k -> unbondedSum s d l = unbondedSum s d k.
Proof.
  induction 1 as [|x l k _ IH|x y l|l k m _ IH1 _ IH2]; simpl.
  - done.
  - by rewrite IH.
  - destruct (IsBonded s x), (IsBonded s y); lia.
  - congruence.
Qed.

Lemma unbondedSum_ext (s t : State) (d : string) (l : list string) :
  bondedStatus t = bondedStatus s ->
  (forall w, ValidatorShares (InfoOf t w) = ValidatorShares (InfoOf s w)) ->
  unbondedSum t d l = unbondedSum s d l.
Proof.
  intros Hb Hv. induction l as [|x l IH]; [done|]. simpl.
  unfold IsBonded. by rewrite Hb, Hv, IH.
Qed.

Lemma elem_of_validator_keys (s : State) (v : string) :
  v ∈ (AllianceValidatorInfos s).*1 <-> is_Some (validatorInfos s !! v).
Proof.
  unfold AllianceValidatorInfos. rewrite list_elem_of_fmap. split.
  - intros ([w x] & -> & Hx). apply elem_of_map_to_list in Hx. by exists x.
  - intros [x Hx]. exists (v, x). split; [done|]. by apply elem_of_map_to_list.
Qed.

(** C7.  When a run of the rebalancer succeeds, a second run on the store it
    leaves succeeds as well and changes nothing but, possibly, the
    pending-rebalance flag: nothing is minted or burned, the total bonded
    amount and the native amount delegated to every validator are the same
    after the second run as after the first. *)
Theorem RebalanceBondTokenWeights_idempotent (ctx : Ctx) (slice : list AllianceAsset)
    (s s1 : State) :
  RebalanceBondTokenWeights ctx slice s = (Ok tt, s1) ->
  exists s2,
    RebalanceBondTokenWeights ctx slice s1 = (Ok tt, s2) /\
    eqModQueue s1 s2 /\
    supply s2 = supply s1 /\ bank s2 = bank s1 /\
    TotalBondedTokens s2 = TotalBondedTokens s1 /\
    (forall v, currentBondedAmount s2 v = currentBondedAmount s1 v).
Proof.
  unfold RebalanceBondTokenWeights. intros Hrun.
  pose proof (partitionValidators_spec s (AllianceValidatorInfos s) [] ∅) as Hp.
  destruct (partitionValidators s (AllianceValidatorInfos s) [] ∅) as [[L1 u1]|e|];
    [|done..].
  destruct Hp as (P1 & P2 & P3 & P4). simpl in P2.
  assert (Hnd1 : NoDup L1.*1).
  { rewrite P2. apply NoDup_filter, NoDup_fst_map_to_list. }
  assert (Hb1 : forall v, v ∈ L1.*1 -> IsBonded s v = true /\ is_Some (validatorInfos s !! v)).
  { intros v Hv. rewrite P2 in Hv. apply list_elem_of_filter in Hv as [Hb Hv].
    split; [done|]. by apply elem_of_validator_keys. }
  apply rebalanceLoop_ok in Hrun as (B1&B2&B3&B4&B5&B6&B7&B8&B9); [|done].
  specialize (B9 ltac:(intros v Hv; by apply Hb1)).
  assert (Hkeys : forall v, is_Some (validatorInfos s1 !! v) <-> is_Some (validatorInfos s !! v)).
  { intros v. split; [|apply B7]. intros Hv. apply B8 in Hv as [Hv|Hv]; [|done].
    by apply Hb1. }
  pose proof (partitionValidators_spec s1 (AllianceValidatorInfos s1) [] ∅) as Hp2.
  destruct (partitionValidators s1 (AllianceValidatorInfos s1) [] ∅) as [[L2 u2]|e|];
    [| |done].
  2:{ destruct Hp2 as (v & Hv & Hnone). exfalso.
      apply elem_of_validator_keys, Hkeys, elem_of_validator_keys, P4 in Hv.
      rewrite B2 in Hnone. rewrite Hnone in Hv. by destruct Hv. }
  destruct Hp2 as (R1 & R2 & R3 & R4). simpl in R2.
  assert (Hu : forall d, AmountOf u2 d = AmountOf u1 d).
  { intros d. rewrite R3, P3. rewrite (unbondedSum_ext s s1) by done. f_equal.
    apply unbondedSum_perm. rewrite !reverse_Permutation.
    apply NoDup_Permutation; [apply NoDup_fst_map_to_list..|].
    intros v. rewrite !elem_of_validator_keys. apply Hkeys. }
  rewrite B9.
  destruct (rebalanceLoop_idle ctx
              (TotalBondedTokens s - GetAllianceBondedAmount s) u2 slice L2 s1)
    as (s2 & Hrun2 & Hq).
  { intros v val Hin. apply R1 in Hin as [Hin|(Hv & -> & Hbv)];
      [by apply elem_of_nil in Hin|].
    assert (Hin1 : v ∈ L1.*1).
    { rewrite P2. apply list_elem_of_filter. split.
      - unfold IsBonded in *. by rewrite <- B2.
      - by apply elem_of_validator_keys, Hkeys, elem_of_validator_keys. }
    apply list_elem_of_fmap in Hin1 as ([w val1] & Hw & Hin1). simpl in Hw. subst w.
    pose proof (P1 v val1 Hin1) as [Hnil|(_ & Hval1 & _)]; [by apply elem_of_nil in Hnil|].
    rewrite (expectedBond_indep ctx _ u1 u2 val1 (InfoOf s1 v) slice s s1); [|done|].
    - by apply B1.
    - by rewrite B6, Hval1. }
  exists s2. split; [exact Hrun2|]. split; [exact Hq|].
  apply eqModQueue_fields in Hq as (Q1&Q2&Q3&Q4&Q5&Q6&Q7&Q8&Q9&Q10&Q11).
  split_and!; [done|done| |].
  - unfold TotalBondedTokens, BalanceOf. by rewrite Q6, Q9.
  - intros v. unfold currentBondedAmount. by rewrite Q11.
Qed.

End Rebalancer.

(** *** Claims across weight changes (C1) *)

Section Claims.

(** C1.  A delegation of 1,000,000 tokens, settled at height 1, is the only
    stake of its validator while 2,000,000 native tokens accrue at reward
    weight 2: tracked deposit by deposit, they are all its own.  The weight
    then changes to 10 and to 5.  With the changes at heights 2 and 3 the log
    holds a snapshot for each, and the claim pays 2,000,000.  With both
    changes at height 2 the second snapshot takes the place of the first in
    the log, the weight 2 of the first segment is lost, and the claim pays
    10,000,000 out of the rewards pool. *)
Theorem ClaimDelegationRewards_two_changes :
  (delegations rewardStore !! (exampleDelegator, exampleValidator, exampleDenom)
   = Some (mkDelegation (LegacyNewDec 1000000) ∅ 1)) /\
  (IterateWeightChangeSnapshot (storeAfterTwoChanges 2 3) exampleDenom exampleValidator 1
   = [(2, mkSnapshot (LegacyNewDec 2) {[exampleBondDenom := LegacyNewDec 1]});
      (3, mkSnapshot (LegacyNewDec 10) {[exampleBondDenom := LegacyNewDec 1]})]) /\
  (claimAfterTwoChanges 2 3).1 = Ok {[exampleBondDenom := 2000000]} /\
  (IterateWeightChangeSnapshot (storeAfterTwoChanges 2 2) exampleDenom exampleValidator 1
   = [(2, mkSnapshot (LegacyNewDec 10) {[exampleBondDenom := LegacyNewDec 1]})]) /\
  (claimAfterTwoChanges 2 2).1 = Ok {[exampleBondDenom := 10000000]} /\
  GetAssetByDenom (storeAfterTwoChanges 2 2) exampleDenom
  = GetAssetByDenom (storeAfterTwoChanges 2 3) exampleDenom /\
  InfoOf (storeAfterTwoChanges 2 2) exampleValidator
  = InfoOf (storeAfterTwoChanges 2 3) exampleValidator.
Proof. vm_compute. repeat split. Qed.

End Claims.

(** *** Asset updates: validation (C9) *)

Section UpdateValidation.

(** C9 (as amended).  An update that names a denom absent from the registry
    returns the unknown-asset error; an update of a registered asset whose
    reward weight lies outside the reward weight range that the update
    record itself carries returns the weight-out-of-bounds error, whatever
    range the registry holds for the asset; in both cases the store is left
    as it was. *)
Theorem UpdateAllianceAsset_rejects (ctx : Ctx) (newAsset : AllianceAsset) (s : State) :
  (GetAssetByDenom s (Denom newAsset) = None ->
   UpdateAllianceAsset ctx newAsset s = (Err ErrUnknownAsset, s)) /\
  (forall asset, GetAssetByDenom s (Denom newAsset) = Some asset ->
   RewardWeight newAsset < Min (RewardWeightRange_ newAsset) \/
   Max (RewardWeightRange_ newAsset) < RewardWeight newAsset ->
   UpdateAllianceAsset ctx newAsset s = (Err ErrRewardWeightOutOfBound, s)).
Proof.
  split.
  - intros Hnone. unfold UpdateAllianceAsset. by rewrite Hnone.
  - intros asset Ha Hout. unfold UpdateAllianceAsset. rewrite Ha.
    destruct (Z.ltb_spec (RewardWeight newAsset) (Min (RewardWeightRange_ newAsset)));
      [reflexivity|].
    destruct (Z.ltb_spec (Max (RewardWeightRange_ newAsset)) (RewardWeight newAsset));
      [reflexivity|lia].
Qed.

End UpdateValidation.

(** *** Asset registry and parameters *)

Section Registry.

(** The listing of the registry holds the stored records, each once. *)
Lemma insertByKey_Permutation (e : string * AllianceAsset)
    (l : list (string * AllianceAsset)) :
  insertByKey e l ≡ₚ e :: l.
Proof.
  induction l as [|e' l IH]; simpl; [done|].
  destruct (String.leb e.1 e'.1); [done|]. rewrite IH. apply Permutation_swap.
Qed.

Lemma sortByKey_Permutation (l : list (string * AllianceAsset)) :
  foldr insertByKey [] l ≡ₚ l.
Proof.
  induction l as [|e l IH]; simpl; [done|]. by rewrite insertByKey_Permutation, IH.
Qed.

Lemma elem_of_GetAllAssets (s : State) (a : AllianceAsset) :
  a ∈ GetAllAssets s <-> exists d, assets s !! d = Some a.
Proof.
  unfold GetAllAssets. rewrite sortByKey_Permutation, list_elem_of_fmap. split.
  - intros ([d x] & -> & Hx). apply elem_of_map_to_list in Hx. by exists d.
  - intros [d Hd]. exists (d, a). split; [done|]. by apply elem_of_map_to_list.
Qed.

(** [SetAsset] followed by [GetAssetByDenom] gives the asset back and
    leaves the other denoms alone; [DeleteAsset] refuses a record that holds
    tokens and leaves the store as it was, and otherwise removes the record
    stored under the denom of its argument, whatever that stored record
    holds: the token count that decides is the argument's. *)
Theorem asset_registry_round_trip (asset : AllianceAsset) (s : State) :
  GetAssetByDenom (SetAsset asset s) (Denom asset) = Some asset /\
  (forall d, d <> Denom asset ->
     GetAssetByDenom (SetAsset asset s) d = GetAssetByDenom s d) /\
  (keyedByDenom s -> keyedByDenom (SetAsset asset s)) /\
  (0 < TotalTokens asset -> DeleteAsset asset s = (Err ErrDeleteNonEmptyAsset, s)) /\
  (TotalTokens asset <= 0 ->
   exists s', DeleteAsset asset s = (Ok tt, s') /\
     GetAssetByDenom s' (Denom asset) = None /\
     (forall d, d <> Denom asset -> GetAssetByDenom s' d = GetAssetByDenom s d) /\
     (keyedByDenom s -> keyedByDenom s') /\
     (forall a, a ∈ GetAllAssets s' <-> a ∈ GetAllAssets s /\
        exists d, d <> Denom asset /\ GetAssetByDenom s d = Some a)).
Proof.
  unfold GetAssetByDenom, SetAsset, DeleteAsset, deleteAsset, keyedByDenom. simpl.
  split_and!.
  - apply lookup_insert_eq.
  - intros d Hd. by apply lookup_insert_ne.
  - intros Hk. by apply map_Forall_insert_2.
  - intros Hpos. by destruct (Z.ltb_spec 0 (TotalTokens asset)); [|lia].
  - intros Hz. destruct (Z.ltb_spec 0 (TotalTokens asset)); [lia|].
    eexists. split; [reflexivity|]. simpl. split_and!.
    + apply lookup_delete_eq.
    + intros d Hd. by apply lookup_delete_ne.
    + intros Hk. by apply map_Forall_delete.
    + intros a. rewrite !elem_of_GetAllAssets. simpl. split.
      * intros [d Hx]. apply lookup_delete_Some in Hx as [Hd Hx].
        split; by exists d.
      * intros [_ (d & Hd & Hx)]. exists d. by apply lookup_delete_Some.
Qed.

(** A successful [SetParams] stores the parameters it is given, and after it
    every [SetLastRewardClaimTime] succeeds and changes the last claim time
    alone; [SetParams] refuses a duration that fails the check, and
    [SetLastRewardClaimTime], which checks the stored durations again,
    refuses to write when one of them fails it; a refusal leaves the store
    as it was. *)
Theorem SetParams_validation (p : Params) (s : State) :
  (ValidatePositiveDuration (RewardDelayTime p) = false \/
   ValidatePositiveDuration (TakeRateClaimInterval p) = false ->
   SetParams p s = (Err ErrInvalidDuration, s)) /\
  (ValidatePositiveDuration (RewardDelayTime p) = true ->
   ValidatePositiveDuration (TakeRateClaimInterval p) = true ->
   exists s', SetParams p s = (Ok tt, s') /\ params s' = p /\ validParams s' /\
     assets s' = assets s /\ bank s' = bank s /\
     forall t, exists s'',
       SetLastRewardClaimTime t s' = (Ok tt, s'') /\ validParams s'' /\
       LastRewardClaimTime s'' = t /\
       RewardClaimInterval s'' = TakeRateClaimInterval p /\
       RewardDelayTime_ s'' = RewardDelayTime p) /\
  (forall t, ~ validParams s ->
   SetLastRewardClaimTime t s = (Err ErrInvalidDuration, s)).
Proof.
  unfold SetLastRewardClaimTime, SetParams, validParams. split_and!.
  - intros [H|H].
    + by rewrite H.
    + rewrite H. by destruct (ValidatePositiveDuration (RewardDelayTime p)).
  - intros H1 H2. rewrite H1, H2. simpl. eexists. split; [reflexivity|]. simpl.
    split_and!; try done. intros t. rewrite H1, H2. simpl.
    eexists. split; [reflexivity|]. done.
  - intros t Hv. simpl.
    destruct (ValidatePositiveDuration (RewardDelayTime (params s))) eqn:H1; [|done].
    destruct (ValidatePositiveDuration (TakeRateClaimInterval (params s))) eqn:H2; [|done].
    by destruct Hv.
Qed.

End Registry.
(** *** Initialisation of assets and coherence of the slice through the hooks *)

Section Coherence.

Lemma initializeAsset_Denom (ctx : Ctx) (a : AllianceAsset) :
  Denom (initializeAsset ctx a) = Denom a.
Proof. unfold initializeAsset. by destruct (_ || _). Qed.

Lemma initializeAsset_idem (ctx : Ctx) (a : AllianceAsset) :
  IsInitialized (initializeAsset ctx a)
  || negb (RewardsStarted (initializeAsset ctx a) (BlockTime ctx)) = true.
Proof.
  unfold initializeAsset.
  destruct (IsInitialized a || negb (RewardsStarted a (BlockTime ctx))) eqn:E;
    [exact E|reflexivity].
Qed.

(** The snapshots written for one asset over the validators of the ledger. *)
Lemma initial_snapshots_run (ctx : Ctx) (denom : string)
    (vals : list (string * AllianceValidatorInfo)) :
  forall s : State,
  let s' := foldl (fun acc '(valAddr, info) =>
                     CreateInitialRewardWeightChangeSnapshot ctx denom valAddr info acc)
              s vals in
  assets s' = assets s /\ params s' = params s /\
  rebalanceQueued s' = rebalanceQueued s /\ validatorInfos s' = validatorInfos s /\
  delegations s' = delegations s /\ bank s' = bank s /\ supply s' = supply s /\
  distribution s' = distribution s /\ bondDenom s' = bondDenom s /\
  bondedStatus s' = bondedStatus s /\ moduleDelegations s' = moduleDelegations s /\
  (NoDup vals.*1 -> forall v info, (v, info) ∈ vals ->
     snapshots s' !! (denom, v, toUint64 (BlockHeight ctx))
     = Some (mkSnapshot LegacyZeroDec (GlobalRewardHistory info))) /\
  (forall k, (forall v, v ∈ vals.*1 -> k <> (denom, v, toUint64 (BlockHeight ctx))) ->
     snapshots s' !! k = snapshots s !! k).
Proof.
  induction vals as [|[v info] rest IH]; intros s.
  { simpl. split_and!; try done; intros;
      by match goal with H : _ ∈ [] |- _ => apply elem_of_nil in H end. }
  simpl. specialize (IH (CreateInitialRewardWeightChangeSnapshot ctx denom v info s)).
  cbv zeta in IH. destruct IH as (I1&I2&I3&I4&I5&I6&I7&I8&I9&I10&I11&I12&I13).
  split_and!; try done.
  - intros Hnd w infow Hin. apply NoDup_cons in Hnd as [Hv Hnd].
    apply elem_of_cons in Hin as [Heq|Hin].
    + inversion Heq; subst. rewrite I13.
      * unfold CreateInitialRewardWeightChangeSnapshot, setRewardWeightChangeSnapshot.
        simpl. apply lookup_insert_eq.
      * intros u Hu Hk. inversion Hk; subst. done.
    + by apply I12.
  - intros k Hk. rewrite I13.
    + unfold CreateInitialRewardWeightChangeSnapshot, setRewardWeightChangeSnapshot.
      simpl. apply lookup_insert_ne. intros <-. eapply Hk; [|done]. simpl. by left.
    + intros u Hu. apply Hk. simpl. by right.
Qed.

Lemma InitializeAllianceAssets_run (ctx : Ctx) (slice : list AllianceAsset) :
  forall s : State,
  (InitializeAllianceAssets ctx slice s).1 = initializeAsset ctx <$> slice /\
  let s' := (InitializeAllianceAssets ctx slice s).2 in
  params s' = params s /\ rebalanceQueued s' = rebalanceQueued s /\
  validatorInfos s' = validatorInfos s /\ delegations s' = delegations s /\
  bank s' = bank s /\ supply s' = supply s /\ distribution s' = distribution s /\
  bondDenom s' = bondDenom s /\ bondedStatus s' = bondedStatus s /\
  moduleDelegations s' = moduleDelegations s /\
  (forall d, d ∉ Denom <$> slice -> GetAssetByDenom s' d = GetAssetByDenom s d) /\
  (NoDup (Denom <$> slice) -> forall a, a ∈ slice ->
     GetAssetByDenom s a.(Denom) = Some a ->
     GetAssetByDenom s' (Denom a) = Some (initializeAsset ctx a)) /\
  (NoDup (Denom <$> slice) -> forall a v info, a ∈ slice ->
     initializeAsset ctx a <> a -> (v, info) ∈ AllianceValidatorInfos s ->
     snapshots s' !! (Denom a, v, toUint64 (BlockHeight ctx))
     = Some (mkSnapshot LegacyZeroDec (GlobalRewardHistory info))) /\
  (forall k, (forall a v, a ∈ slice -> initializeAsset ctx a <> a ->
                k <> (Denom a, v, toUint64 (BlockHeight ctx))) ->
     snapshots s' !! k = snapshots s !! k).
Proof.
  induction slice as [|a rest IH]; intros s.
  { simpl. split_and!; try done; intros;
      by match goal with H : _ ∈ [] |- _ => apply elem_of_nil in H end. }
  simpl. unfold initializeAsset at 1.
  destruct (IsInitialized a || negb (RewardsStarted a (BlockTime ctx))) eqn:E.
  - specialize (IH s). destruct (InitializeAllianceAssets ctx rest s) as [rest' s'] eqn:Hr.
    simpl in *. destruct IH as (I0&I1&I2&I3&I4&I5&I6&I7&I8&I9&I10&I11&I12&I13&I14).
    assert (Hid : initializeAsset ctx a = a) by (unfold initializeAsset; by rewrite E).
    split; [by rewrite I0|]. split_and!; try done.
    + intros d Hd. apply I11. intros Hin. apply Hd. by right.
    + intros Hnd b Hb Hget. apply NoDup_cons in Hnd as [Ha Hnd].
      apply elem_of_cons in Hb as [->|Hb]; [|by apply I12].
      rewrite Hid, I11; done.
    + intros Hnd b v info Hb Hne Hv. apply NoDup_cons in Hnd as [Ha Hnd].
      apply elem_of_cons in Hb as [->|Hb]; [done|]. by apply I13.
    + intros k Hk. apply I14. intros b v Hb Hne. apply Hk; [by right|done].
  - set (a' := withIsInitialized a true).
    pose proof (initial_snapshots_run ctx (Denom a') (AllianceValidatorInfos s) s) as Hs.
    cbv zeta in Hs. revert Hs.
    set (s1 := foldl _ s (AllianceValidatorInfos s)). intros Hs.
    destruct Hs as (S1&S2&S3&S4&S5&S6&S7&S8&S9&S10&S11&S12&S13).
    specialize (IH (SetAsset a' s1)).
    destruct (InitializeAllianceAssets ctx rest (SetAsset a' s1)) as [rest' s'] eqn:Hr.
    simpl in *. destruct IH as (I0&I1&I2&I3&I4&I5&I6&I7&I8&I9&I10&I11&I12&I13&I14).
    assert (Hne : initializeAsset ctx a = a') by (unfold initializeAsset; by rewrite E).
    split; [by rewrite I0|]. split_and!; try congruence.
    + intros d Hd. rewrite I11 by (intros Hin; apply Hd; by right).
      unfold GetAssetByDenom, SetAsset. simpl. rewrite lookup_insert_ne, S1; [done|].
      intros Heq. apply Hd. apply elem_of_cons. by left.
    + intros Hnd b Hb Hget. apply NoDup_cons in Hnd as [Ha Hnd].
      apply elem_of_cons in Hb as [->|Hb].
      * rewrite I11 by done. rewrite Hne. unfold GetAssetByDenom, SetAsset. simpl.
        apply lookup_insert_eq.
      * apply I12; [done..|]. unfold GetAssetByDenom, SetAsset. simpl.
        rewrite lookup_insert_ne, S1; [done|]. simpl. intros Heq. apply Ha.
        rewrite Heq. by apply list_elem_of_fmap_2.
    + intros Hnd b v info Hb Hnb Hv. apply NoDup_cons in Hnd as [Ha Hnd].
      apply elem_of_cons in Hb as [->|Hb].
      * rewrite I14.
        -- simpl. apply (S12 (NoDup_fst_map_to_list _) v info Hv).
        -- intros c w Hc _ Hk. inversion Hk as [[Hd Hw]]. apply Ha. rewrite Hd.
           by apply list_elem_of_fmap_2.
      * apply I13; [done..|]. unfold AllianceValidatorInfos in *. simpl. by rewrite S4.
    + intros k Hk. rewrite I14.
      * simpl. apply S13. intros v Hv. apply (Hk a v); [by left|]. rewrite Hne.
        unfold a', withIsInitialized. intros Heq. apply (f_equal IsInitialized) in Heq.
        simpl in Heq. rewrite <- Heq in E. done.
      * intros b v Hb Hnb. apply Hk; [by right|done].
Qed.

Lemma initializeAsset_cases (ctx : Ctx) (a : AllianceAsset) :
  (IsInitialized a = false -> RewardStartTime a <= BlockTime ctx ->
   initializeAsset ctx a = withIsInitialized a true /\ initializeAsset ctx a <> a) /\
  (IsInitialized a = true \/ BlockTime ctx < RewardStartTime a ->
   initializeAsset ctx a = a).
Proof.
  unfold initializeAsset, RewardsStarted, TimeAfter, TimeEqual. split.
  - intros Hi Hs. rewrite Hi. simpl.
    destruct (Z.ltb_spec (RewardStartTime a) (BlockTime ctx)); simpl.
    + split; [done|]. intros Heq. apply (f_equal IsInitialized) in Heq. simpl in Heq.
      congruence.
    + destruct (Z.eqb_spec (BlockTime ctx) (RewardStartTime a)); [|lia]. simpl.
      split; [done|]. intros Heq. apply (f_equal IsInitialized) in Heq. simpl in Heq.
      congruence.
  - intros [Hi|Hs]; [by rewrite Hi|].
    destruct (Z.ltb_spec (RewardStartTime a) (BlockTime ctx)); [lia|].
    destruct (Z.eqb_spec (BlockTime ctx) (RewardStartTime a)); [lia|].
    simpl. by rewrite orb_true_r.
Qed.

Lemma InitializeAllianceAssets_idle (ctx : Ctx) (slice : list AllianceAsset) (s : State) :
  (forall a, a ∈ slice ->
     IsInitialized a || negb (RewardsStarted a (BlockTime ctx)) = true) ->
  InitializeAllianceAssets ctx slice s = (slice, s).
Proof.
  induction slice as [|a rest IH]; intros Hall; [done|]. simpl.
  rewrite (Hall a) by (by left). rewrite IH; [done|]. intros b Hb. apply Hall. by right.
Qed.

(** The hook marks as initialised, in the slice and in the registry, every
    asset that is not initialised yet and whose rewards have started, and
    writes for it one snapshot per validator of the ledger at the current
    height, holding the weight zero and the index vector of the validator;
    the other assets and the other snapshots are left as they were, and a
    second run of the hook changes nothing. *)
Theorem InitializeAllianceAssets_effect (ctx : Ctx) (slice : list AllianceAsset)
    (s : State) :
  let r := InitializeAllianceAssets ctx slice s in
  r.1 = initializeAsset ctx <$> slice /\
  (forall a, a ∈ slice ->
     (IsInitialized a = false -> RewardStartTime a <= BlockTime ctx ->
      initializeAsset ctx a = withIsInitialized a true) /\
     (IsInitialized a = true \/ BlockTime ctx < RewardStartTime a ->
      initializeAsset ctx a = a)) /\
  (NoDup (Denom <$> slice) -> forall a, a ∈ slice ->
     GetAssetByDenom s (Denom a) = Some a ->
     GetAssetByDenom r.2 (Denom a) = Some (initializeAsset ctx a)) /\
  (NoDup (Denom <$> slice) -> forall a v info, a ∈ slice ->
     IsInitialized a = false -> RewardStartTime a <= BlockTime ctx ->
     validatorInfos s !! v = Some info ->
     snapshots r.2 !! (Denom a, v, toUint64 (BlockHeight ctx))
     = Some (mkSnapshot LegacyZeroDec (GlobalRewardHistory info))) /\
  (forall k, (forall a v, a ∈ slice -> IsInitialized a = false ->
                RewardStartTime a <= BlockTime ctx ->
                k <> (Denom a, v, toUint64 (BlockHeight ctx))) ->
     snapshots r.2 !! k = snapshots s !! k) /\
  validatorInfos r.2 = validatorInfos s /\
  InitializeAllianceAssets ctx r.1 r.2 = r.
Proof.
  intros r. subst r.
  destruct (InitializeAllianceAssets_run ctx slice s)
    as (I0&I1&I2&I3&I4&I5&I6&I7&I8&I9&I10&I11&I12&I13&I14).
  split_and!; try done.
  - intros a _. destruct (initializeAsset_cases ctx a) as [H1 H2].
    split; [|exact H2]. intros Hi Hs. by apply H1.
  - intros Hnd a v info Ha Hi Hs Hv. apply I13; [done..| |].
    + by apply initializeAsset_cases.
    + unfold AllianceValidatorInfos. by apply elem_of_map_to_list.
  - intros k Hk. apply I14. intros a v Ha Hne. destruct (IsInitialized a) eqn:Hi.
    { exfalso. apply Hne. apply initializeAsset_cases. by left. }
    destruct (Z.le_gt_cases (RewardStartTime a) (BlockTime ctx)).
    + by apply Hk.
    + exfalso. apply Hne. apply initializeAsset_cases. right. lia.
  - rewrite InitializeAllianceAssets_idle.
    + by destruct (InitializeAllianceAssets ctx slice s).
    + rewrite I0. intros b Hb. apply list_elem_of_fmap in Hb as (a & -> & _).
      apply initializeAsset_idem.
Qed.

Lemma GetAllAssets_coherent (s : State) : keyedByDenom s -> coherent s (GetAllAssets s).
Proof.
  unfold keyedByDenom, coherent, GetAssetByDenom. intros Hk.
  assert (Hd : Denom <$> (map_to_list (assets s)).*2 = (map_to_list (assets s)).*1).
  { rewrite <- list_fmap_compose. apply list_fmap_ext. intros i [d a] Hi. simpl.
    apply (Hk d a). apply elem_of_map_to_list. by eapply list_elem_of_lookup_2. }
  split.
  - unfold GetAllAssets. rewrite sortByKey_Permutation, Hd.
    apply NoDup_fst_map_to_list.
  - intros a Ha. apply elem_of_GetAllAssets in Ha as [d Hx]. by rewrite (Hk d a Hx).
Qed.

(** A run of the loop of the take-rate engine that does not panic leaves
    the taxed slice and the registry written for the taxed assets. *)
Lemma deductLoop_Ok (ctx : Ctx) (n : Z) (slice : list AllianceAsset) :
  forall (coins : Coins) (count : Z) (s : State) x slice' s',
  deductLoop ctx n slice coins count s = (Ok x, slice', s') ->
  slice' = taxAsset ctx n <$> slice /\
  s' = set_assets (storeAfterTax ctx n slice) s.
Proof.
  induction slice as [|a rest IH]; intros coins count s x slice' s' Hrun.
  { simpl in Hrun. inversion Hrun; subst. by rewrite set_assets_id. }
  rewrite set_assets_storeAfterTax_cons. simpl in Hrun. rewrite fmap_cons.
  unfold taxAsset at 1. fold (postTaxAmount n a) in Hrun.
  destruct (taxable ctx a) eqn:Ht; simpl.
  - destruct (Z.leb_spec (postTaxAmount n a) LegacyOneDec) as [Hle|Hgt].
    + destruct (Z.ltb_spec LegacyOneDec (postTaxAmount n a)); [lia|].
      destruct (deductLoop ctx n rest coins (count + 1) s) as [[r rest'] t] eqn:Hr.
      inversion Hrun; subst. apply IH in Hr as [-> ->]. done.
    + destruct (Z.ltb_spec LegacyOneDec (postTaxAmount n a)); [|lia].
      simpl in Hrun.
      destruct (_ <? 0); [done|].
      match type of Hrun with context [deductLoop ctx n rest ?c ?k ?t] =>
        destruct (deductLoop ctx n rest c k t) as [[r rest'] t'] eqn:Hr end.
      inversion Hrun; subst. apply IH in Hr as [-> ->].
      by rewrite (taxAsset_changed ctx n a Ht Hgt).
  - destruct (deductLoop ctx n rest coins count s) as [[r rest'] t] eqn:Hr.
    inversion Hrun; subst. apply IH in Hr as [-> ->]. done.
Qed.

Lemma storeAfterTax_coherent (ctx : Ctx) (n : Z) (slice : list AllianceAsset) :
  forall m : gmap string AllianceAsset,
  NoDup (Denom <$> slice) ->
  (forall a, a ∈ slice -> m !! Denom a = Some a) ->
  forall a, a ∈ slice -> storeAfterTax ctx n slice m !! Denom a = Some (taxAsset ctx n a).
Proof.
  induction slice as [|b rest IH]; intros m Hnd Hm a Ha; [by apply elem_of_nil in Ha|].
  rewrite storeAfterTax_cons. rewrite fmap_cons in Hnd. apply NoDup_cons in Hnd as [Hb Hnd].
  apply elem_of_cons in Ha as [->|Ha].
  - rewrite storeAfterTax_notin by done. unfold taxAsset.
    destruct (taxable ctx b && (LegacyOneDec <? postTaxAmount n b)) eqn:E.
    + fold (taxAsset ctx n b). apply lookup_insert_eq.
    + apply Hm. by left.
  - apply IH; [done| |done]. intros c Hc.
    assert (Denom b <> Denom c).
    { intros Heq. apply Hb. rewrite Heq. by apply list_elem_of_fmap_2. }
    destruct (_ && _); [rewrite lookup_insert_ne by done|]; apply Hm; by right.
Qed.

Lemma DeductAssetsHook_Ok (ctx : Ctx) (slice : list AllianceAsset) (s : State)
    c slice' s' :
  DeductAssetsHook ctx slice s = (Ok c, slice', s') ->
  (slice' = slice /\ assets s' = assets s) \/
  (exists n, slice' = taxAsset ctx n <$> slice /\
     assets s' = storeAfterTax ctx n slice (assets s)).
Proof.
  unfold DeductAssetsHook, DeductAssetsWithTakeRate. cbv zeta.
  destruct (TimeAfter _ _); [|intros H; inversion H; subst; by left].
  destruct (TimeEqual _ _).
  { pose proof (SetLastRewardClaimTime_assets (BlockTime ctx) s) as Ha.
    destruct (SetLastRewardClaimTime (BlockTime ctx) s) as [[?| |] t]; [|done..].
    intros H; inversion H; subst. by left. }
  destruct (_ =? 0); [done|].
  match goal with |- context [deductLoop ctx ?n slice ∅ 0 s] =>
    destruct (deductLoop ctx n slice ∅ 0 s) as [[[[coins cnt]| |] sl] s1] eqn:Hr;
      [apply deductLoop_Ok in Hr as [-> ->]|done..]; set (k := n) end.
  intros Hrun. right. exists k.
  destruct (cnt =? 0).
  { match type of Hrun with context [SetLastRewardClaimTime ?t ?u] =>
      pose proof (SetLastRewardClaimTime_assets t u) as Ha;
      destruct (SetLastRewardClaimTime t u) as [[?| |] t']; [|done..] end.
    inversion Hrun; subst. split; [done|]. simpl in Ha. by rewrite Ha. }
  destruct (_ && _); [|inversion Hrun; subst; done].
  match type of Hrun with context [SendCoins ?a ?b ?co ?u] =>
    pose proof (SendCoins_assets a b co u) as Hb;
    destruct (SendCoins a b co u) as [[?| |] s2]; [|done..] end.
  match type of Hrun with context [SetLastRewardClaimTime ?t ?u] =>
    pose proof (SetLastRewardClaimTime_assets t u) as Ha;
    destruct (SetLastRewardClaimTime t u) as [[?| |] t']; [|done..] end.
  inversion Hrun; subst. split; [done|]. simpl in *. by rewrite Ha, Hb.
Qed.

(** The slice that [GetAllAssets] returns agrees with the registry, and the
    three hooks that mutate the slice in place keep it so: each writes to
    the registry what it writes to the slice.  (For the take-rate and the
    decay hook, whenever they return without an error.) *)
Theorem hooks_keep_slice_coherent (ctx : Ctx) (slice : list AllianceAsset) (s : State) :
  (keyedByDenom s -> coherent s (GetAllAssets s)) /\
  (coherent s slice ->
   coherent (InitializeAllianceAssets ctx slice s).2
     (InitializeAllianceAssets ctx slice s).1) /\
  (coherent s slice -> forall c slice' s',
   DeductAssetsHook ctx slice s = (Ok c, slice', s') -> coherent s' slice') /\
  (coherent s slice -> forall slice' s',
   RewardWeightChangeHook ctx slice s = (Ok tt, slice', s') -> coherent s' slice').
Proof.
  split_and!.
  - apply GetAllAssets_coherent.
  - intros [Hnd Hm].
    destruct (InitializeAllianceAssets_run ctx slice s)
      as (I0&I1&I2&I3&I4&I5&I6&I7&I8&I9&I10&I11&I12&I13&I14).
    rewrite I0. split.
    + rewrite <- list_fmap_compose.
      erewrite list_fmap_ext; [exact Hnd|]. intros i a _. apply initializeAsset_Denom.
    + intros b Hb. apply list_elem_of_fmap in Hb as (a & -> & Ha).
      rewrite initializeAsset_Denom. by apply I12, Hm.
  - intros [Hnd Hm] c slice' s' Hrun.
    apply DeductAssetsHook_Ok in Hrun as [[-> Ha]|(n & -> & Ha)].
    + split; [done|]. intros a Hin. unfold GetAssetByDenom. rewrite Ha. by apply Hm.
    + split.
      * rewrite <- list_fmap_compose.
        erewrite list_fmap_ext; [exact Hnd|]. intros i a _. apply taxAsset_Denom.
      * intros b Hb. apply list_elem_of_fmap in Hb as (a & -> & Hin).
        rewrite taxAsset_Denom. unfold GetAssetByDenom. rewrite Ha.
        by apply storeAfterTax_coherent.
  - intros [Hnd Hm] slice' s' Hrun.
    apply RewardWeightChangeHook_run in Hrun as (-> & Hreg & _); [|done..]. split.
    + rewrite <- list_fmap_compose.
      erewrite list_fmap_ext; [exact Hnd|]. intros i a _. apply decayAsset_Denom.
    + intros b Hb. apply list_elem_of_fmap in Hb as (a & -> & Hin).
      rewrite decayAsset_Denom. by apply Hreg.
Qed.

End Coherence.

(** *** Updates, take-rate edge cases and failures of the decay hook *)

Section Updates.

(** An update writes the whitelisted fields of the record it is given (take
    rate, reward weight, change rate, change interval, last change time) and
    keeps the denom, the totals, the start time, the weight range and the
    initialisation mark of the stored record; the last change time is the
    block time when a decay schedule is set up where none was running; no
    other denom is touched.  An update that keeps the reward weight of a
    registered asset, within the range it carries, always succeeds and
    changes the registry alone. *)
Theorem UpdateAllianceAsset_whitelist (ctx : Ctx) (newAsset : AllianceAsset) (s : State) :
  (forall s', UpdateAllianceAsset ctx newAsset s = (Ok tt, s') ->
   exists asset stored,
     GetAssetByDenom s (Denom newAsset) = Some asset /\
     GetAssetByDenom s' (Denom asset) = Some stored /\
     (forall d, d <> Denom asset -> GetAssetByDenom s' d = GetAssetByDenom s d) /\
     TakeRate stored = TakeRate newAsset /\
     RewardWeight stored = RewardWeight newAsset /\
     RewardChangeRate stored = RewardChangeRate newAsset /\
     RewardChangeInterval stored = RewardChangeInterval newAsset /\
     Denom stored = Denom asset /\
     TotalTokens stored = TotalTokens asset /\
     TotalValidatorShares stored = TotalValidatorShares asset /\
     RewardStartTime stored = RewardStartTime asset /\
     RewardWeightRange_ stored = RewardWeightRange_ asset /\
     IsInitialized stored = IsInitialized asset /\
     LastRewardChangeTime stored
     = (if bool_decide (RewardChangeRate newAsset = RewardChangeRate asset /\
                        RewardChangeInterval newAsset = RewardChangeInterval asset)
        then LastRewardChangeTime newAsset
        else if bool_decide (RewardChangeRate asset = LegacyOneDec \/
                             RewardChangeInterval asset = 0)
             then BlockTime ctx else LastRewardChangeTime newAsset)) /\
  (forall asset, GetAssetByDenom s (Denom newAsset) = Some asset ->
   Min (RewardWeightRange_ newAsset) <= RewardWeight newAsset
     <= Max (RewardWeightRange_ newAsset) ->
   RewardWeight newAsset = RewardWeight asset ->
   UpdateAllianceAsset ctx newAsset s
   = (Ok tt, SetAsset (mergeUpdate ctx asset newAsset) s)).
Proof.
  split.
  - intros s' Hrun.
    destruct (UpdateAllianceAsset_assets ctx newAsset s s' Hrun) as (asset & Hget & _ & Ha).
    exists asset, (mergeUpdate ctx asset newAsset). unfold GetAssetByDenom. rewrite Ha.
    split; [done|]. split; [apply lookup_insert_eq|].
    split; [intros d Hd; by apply lookup_insert_ne|].
    unfold mergeUpdate. simpl. split_and!; try done.
    destruct (Z.eqb_spec (RewardChangeRate newAsset) (RewardChangeRate asset)) as [E1|E1],
      (Z.eqb_spec (RewardChangeInterval newAsset) (RewardChangeInterval asset)) as [E2|E2];
      simpl;
      (rewrite bool_decide_eq_true_2 by done) || (rewrite bool_decide_eq_false_2 by tauto);
      try done;
      destruct (Z.eqb_spec (RewardChangeRate asset) LegacyOneDec) as [E3|E3],
        (Z.eqb_spec (RewardChangeInterval asset) 0) as [E4|E4]; simpl;
      (rewrite bool_decide_eq_true_2 by tauto) || (rewrite bool_decide_eq_false_2 by tauto);
      done.
  - intros asset Hget [Hlo Hhi] Hw. unfold UpdateAllianceAsset. rewrite Hget.
    destruct (Z.ltb_spec (RewardWeight newAsset) (Min (RewardWeightRange_ newAsset)));
      [lia|].
    destruct (Z.ltb_spec (Max (RewardWeightRange_ newAsset)) (RewardWeight newAsset));
      [lia|]. simpl.
    destruct (Z.eqb_spec (RewardWeight newAsset) (RewardWeight asset)); [|done]. done.
Qed.

(** The take-rate engine sets the last claim time to the block time, and
    deducts nothing, on its first run (no last claim time yet) and whenever
    no asset of the slice has positive tokens, a positive take rate and
    rewards started; a claim interval of zero makes the division of the
    elapsed time panic; and a run that is not yet due, the block time being
    at most one interval after the last claim, changes nothing. *)
Theorem DeductAssetsWithTakeRate_snaps_to_now (ctx : Ctx) (lastClaim : Time)
    (slice : list AllianceAsset) (s : State) :
  let snapped := set_params (mkParams (RewardDelayTime (params s))
                           (TakeRateClaimInterval (params s)) (BlockTime ctx)) s in
  (validParams s -> lastClaim = zeroTime ->
   DeductAssetsWithTakeRate ctx lastClaim slice s = (Ok ∅, slice, snapped)) /\
  (validParams s -> lastClaim <> zeroTime -> RewardClaimInterval s <> 0 ->
   (forall a, a ∈ slice -> taxable ctx a = false) ->
   DeductAssetsWithTakeRate ctx lastClaim slice s = (Ok ∅, slice, snapped)) /\
  (lastClaim <> zeroTime -> RewardClaimInterval s = 0 ->
   DeductAssetsWithTakeRate ctx lastClaim slice s = (Panic, slice, s)) /\
  (BlockTime ctx <= LastRewardClaimTime s + RewardClaimInterval s ->
   DeductAssetsHook ctx slice s = (Ok ∅, slice, s)).
Proof.
  intros snapped. unfold DeductAssetsHook, DeductAssetsWithTakeRate.
  unfold validParams, TimeEqual, TimeAfter, TimeAdd, zeroTime. split_and!.
  - intros [H1 H2] ->. simpl. by rewrite (SetLastRewardClaimTime_ok _ _ H1 H2).
  - intros [H1 H2] Hz Hi Hnone.
    destruct (Z.eqb_spec lastClaim 0); [done|].
    destruct (Z.eqb_spec (RewardClaimInterval s) 0); [done|].
    assert (Hloop : forall k l coins count t,
      (forall a, a ∈ l -> taxable ctx a = false) ->
      deductLoop ctx k l coins count t = (Ok (coins, count), l, t)).
    { intros k l. induction l as [|a rest IH]; intros coins count t Hl; [done|].
      simpl. rewrite (Hl a) by (by left). rewrite IH; [done|].
      intros b Hb. apply Hl. by right. }
    rewrite Hloop by done. simpl. by rewrite (SetLastRewardClaimTime_ok _ _ H1 H2).
  - intros Hz Hi. destruct (Z.eqb_spec lastClaim 0); [done|].
    by destruct (Z.eqb_spec (RewardClaimInterval s) 0).
  - intros Hdue. cbv zeta.
    by destruct (Z.ltb_spec (LastRewardClaimTime s + RewardClaimInterval s) (BlockTime ctx));
      [lia|].
Qed.

Lemma RewardWeightChangeHook_due (ctx : Ctx) (a : AllianceAsset)
    (rest : list AllianceAsset) (u : State) :
  RewardChangeInterval a <> 0 -> RewardChangeRate a <> LegacyOneDec ->
  LastRewardChangeTime a + RewardChangeInterval a <= BlockTime ctx ->
  RewardWeightChangeHook ctx (a :: rest) u
  = if decayOverflows ctx a then (Panic, a :: rest, u)
    else
      match UpdateAllianceAsset ctx (decayAsset ctx a) (QueueAssetRebalanceEvent u) with
      | (Ok _, s1) =>
        let '(r, rest', s') := RewardWeightChangeHook ctx rest s1 in
        (r, decayAsset ctx a :: rest', s')
      | (Err e, s1) => (Err e, decayAsset ctx a :: rest, s1)
      | (Panic, s1) => (Panic, decayAsset ctx a :: rest, s1)
      end.
Proof.
  intros Hi Hr Hdue. apply RewardWeightChangeHook_turn. by apply decayDue_true.
Qed.

Lemma decayAsset_fields (ctx : Ctx) (a : AllianceAsset) :
  Denom (decayAsset ctx a) = Denom a /\
  RewardWeightRange_ (decayAsset ctx a) = RewardWeightRange_ a /\
  (RewardChangeInterval a <> 0 -> RewardChangeRate a <> LegacyOneDec ->
   LastRewardChangeTime a + RewardChangeInterval a <= BlockTime ctx ->
   Max (RewardWeightRange_ a) < Min (RewardWeightRange_ a) ->
   RewardWeight (decayAsset ctx a) < Min (RewardWeightRange_ a)) /\
  (RewardWeight (decayAsset ctx a) <> RewardWeight a ->
   RewardChangeInterval a <> 0 /\ RewardChangeRate a <> LegacyOneDec /\
   LastRewardChangeTime a + RewardChangeInterval a <= BlockTime ctx).
Proof.
  unfold decayAsset, TimeAfter, TimeAdd.
  destruct (Z.eqb_spec (RewardChangeInterval a) 0); [done|].
  destruct (Z.eqb_spec (RewardChangeRate a) LegacyOneDec); [done|]. simpl.
  destruct (Z.ltb_spec (BlockTime ctx) (LastRewardChangeTime a + RewardChangeInterval a));
    [split_and!; try done; lia|].
  simpl. split_and!; try done. intros _ _ _ Hinv.
  match goal with |- context [DecMulRaw ?x ?y] => set (w0 := DecMulRaw x y) end.
  destruct (Z.ltb_spec w0 (Min (RewardWeightRange_ a))).
  - destruct (Z.ltb_spec (Max (RewardWeightRange_ a)) (Min (RewardWeightRange_ a)));
      lia.
  - destruct (Z.ltb_spec (Max (RewardWeightRange_ a)) w0); lia.
Qed.

(** The decay hook fails on the first asset of the slice that is due for a
    change in three ways.  When the power of the change rate, or its product
    with the reward weight, exceeds the bit-length limit of the decimals,
    the hook panics before it touches the asset, the store or the rebalance
    event.  Otherwise, when the registry no longer holds the asset, or when
    its weight range is inverted (the clamped weight then lies outside the
    range), the update is refused: the store is left with the rebalance
    event queued and nothing else changed, and the slice already holds the
    decayed record. *)
Theorem RewardWeightChangeHook_errors (ctx : Ctx) (a : AllianceAsset)
    (rest : list AllianceAsset) (s : State) :
  RewardChangeInterval a <> 0 -> RewardChangeRate a <> LegacyOneDec ->
  LastRewardChangeTime a + RewardChangeInterval a <= BlockTime ctx ->
  (decayOverflows ctx a = true ->
   RewardWeightChangeHook ctx (a :: rest) s = (Panic, a :: rest, s)) /\
  (decayOverflows ctx a = false -> GetAssetByDenom s (Denom a) = None ->
   RewardWeightChangeHook ctx (a :: rest) s
   = (Err ErrUnknownAsset, decayAsset ctx a :: rest, QueueAssetRebalanceEvent s)) /\
  (decayOverflows ctx a = false -> is_Some (GetAssetByDenom s (Denom a)) ->
   Max (RewardWeightRange_ a) < Min (RewardWeightRange_ a) ->
   RewardWeightChangeHook ctx (a :: rest) s
   = (Err ErrRewardWeightOutOfBound, decayAsset ctx a :: rest,
      QueueAssetRebalanceEvent s)).
Proof.
  intros Hi Hr Hdue. rewrite (RewardWeightChangeHook_due ctx a rest s Hi Hr Hdue).
  destruct (decayAsset_fields ctx a) as (Hd & Hrange & Hclamp & _).
  unfold UpdateAllianceAsset, GetAssetByDenom in *. rewrite Hd, Hrange. simpl.
  split; [by intros ->|]. split.
  - intros -> Hnone. by rewrite Hnone.
  - intros -> [x Hx] Hlt. rewrite Hx. specialize (Hclamp Hi Hr Hdue Hlt).
    by destruct (Z.ltb_spec (RewardWeight (decayAsset ctx a)) (Min (RewardWeightRange_ a)));
      [|lia].
Qed.

(** When an asset is initialised and decays in the same block, the
    snapshot that the decay writes for a validator takes the place of the
    zero-weight snapshot of the initialisation, which is stored at the same
    height: the log then holds the weight before the decay for that
    height. *)
Theorem initial_snapshot_replaced (ctx : Ctx) (a : AllianceAsset) (s s2 : State)
    (slice2 : list AllianceAsset) (v : string) :
  let r1 := InitializeAllianceAssets ctx [a] s in
  GetAssetByDenom s (Denom a) = Some a ->
  IsInitialized a = false -> RewardStartTime a <= BlockTime ctx ->
  is_Some (validatorInfos s !! v) ->
  RewardWeightChangeHook ctx r1.1 r1.2 = (Ok tt, slice2, s2) ->
  RewardWeight (decayAsset ctx (withIsInitialized a true)) <> RewardWeight a ->
  snapshots r1.2 !! (Denom a, v, toUint64 (BlockHeight ctx))
  = Some (mkSnapshot LegacyZeroDec (GlobalRewardHistory (InfoOf s v))) /\
  exists index,
    snapshots s2 !! (Denom a, v, toUint64 (BlockHeight ctx))
    = Some (mkSnapshot (RewardWeight a) index).
Proof.
  intros r1 Hget Hi Hs [info Hv] Hrun Hw. subst r1.
  destruct (InitializeAllianceAssets_run ctx [a] s)
    as (I0&I1&I2&I3&I4&I5&I6&I7&I8&I9&I10&I11&I12&I13&I14).
  destruct (initializeAsset_cases ctx a) as [Hinit _].
  destruct (Hinit Hi Hs) as [Ha' Hne].
  assert (Hnd : NoDup (Denom <$> [a])) by apply NoDup_singleton.
  assert (Hin : a ∈ [a]) by apply list_elem_of_singleton, eq_refl.
  specialize (I12 Hnd a Hin Hget). rewrite Ha' in I12.
  specialize (I13 Hnd a v info Hin Hne ltac:(by apply elem_of_map_to_list)).
  destruct (InitializeAllianceAssets ctx [a] s) as [l1 s1]. simpl in *.
  split; [unfold InfoOf; by rewrite Hv|].
  change (initializeAsset ctx <$> [a]) with [initializeAsset ctx a] in I0.
  rewrite I0, Ha' in Hrun. set (a' := withIsInitialized a true) in *.
  destruct (decayAsset_fields ctx a') as (Hd & _ & _ & Hdue).
  destruct (Hdue Hw) as (D1 & D2 & D3).
  rewrite (RewardWeightChangeHook_due ctx a' [] s1 D1 D2 D3) in Hrun.
  destruct (decayOverflows ctx a'); [done|].
  destruct (UpdateAllianceAsset ctx (decayAsset ctx a') (QueueAssetRebalanceEvent s1))
    as [[[]| |] s3] eqn:Hup; [|done..].
  simpl in Hrun. inversion Hrun; subst s2. clear Hrun.
  apply UpdateAllianceAsset_inv in Hup as (stored & Hst & _ & _ & Hchange).
  rewrite Hd in Hst. unfold GetAssetByDenom in *. simpl in Hst.
  change (Denom a') with (Denom a) in Hst. rewrite I12 in Hst. inversion Hst; subst stored.
  destruct (Hchange Hw) as (s4 & Hsettle & ->).
  apply settleValidators_run in Hsettle as (_ & _ & _ & Hsnap & _);
    [|apply NoDup_fst_map_to_list].
  destruct (Hsnap v) as [_ Hsn].
  { apply elem_of_validator_keys. simpl. rewrite I3. by exists info. }
  eexists. simpl. exact Hsn.
Qed.

End Updates.

(** *** The rebalance event and the rebalancer *)

Section RebalanceEvent.

Lemma expectedBondLoop_queue (ctx : Ctx) (n : Z) (u : gmap string Z)
    (val : AllianceValidatorInfo) (slice : list AllianceAsset) :
  forall (acc : Dec) (s : State),
  rebalanceQueued (expectedBondLoop ctx n u val slice acc s).2
  = rebalanceQueued s
    || existsb (fun a => negb (RewardsStarted a (BlockTime ctx))) slice.
Proof.
  induction slice as [|a rest IH]; intros acc s; simpl; [by rewrite orb_false_r|].
  destruct (RewardsStarted a (BlockTime ctx)); simpl.
  - destruct (_ && _); apply IH.
  - rewrite IH. simpl. by rewrite orb_true_r.
Qed.

Lemma rebalanceValidator_queue (ctx : Ctx) (n : Z) (u : gmap string Z)
    (slice : list AllianceAsset) (v : string) (val : AllianceValidatorInfo)
    (s : State) r s' :
  rebalanceValidator ctx n u slice v val s = (r, s') ->
  rebalanceQueued s'
  = rebalanceQueued s
    || existsb (fun a => negb (RewardsStarted a (BlockTime ctx))) slice.
Proof.
  unfold rebalanceValidator.
  pose proof (expectedBondLoop_queue ctx n u val slice LegacyZeroDec s) as Hq.
  destruct (expectedBondLoop ctx n u val slice LegacyZeroDec s) as [E s0]. simpl in Hq.
  rewrite <- Hq. clear Hq.
  destruct (_ <? E).
  - destruct (_ =? 0); [intros H; by inversion H|].
    match goal with |- context [ClaimValidatorRewards v ?t] =>
      destruct (ClaimValidatorRewards v t) as [[c| |] s2] eqn:Hclaim end;
      pose proof (ClaimValidatorRewards_frame _ _ _ _ Hclaim) as (_&_&F3&_);
      simpl in F3; try (intros H; inversion H; by subst).
    unfold Delegate.
    match goal with |- context [SendCoins ?f ?t ?c s2] =>
      destruct (SendCoins f t c s2) as [r3 s3] eqn:Hsend end.
    pose proof (SendCoins_frame _ _ _ _ _ _ Hsend) as (_&_&S3&_).
    destruct r3 as [[]| |]; intros H; inversion H; subst; simpl; congruence.
  - destruct (E <? _); [|intros H; by inversion H].
    destruct (_ =? 0); [intros H; by inversion H|].
    destruct (ValidateUnbondAmount _ _ _); try (intros H; inversion H; by subst).
    destruct (ClaimValidatorRewards v s0) as [[c| |] s1] eqn:Hclaim;
      pose proof (ClaimValidatorRewards_frame _ _ _ _ Hclaim) as (_&_&F3&_);
      try (intros H; inversion H; by subst).
    unfold Unbond. destruct (moduleDelegations s1 !! v); [|intros H; inversion H; by subst].
    destruct (_ <? _); [intros H; inversion H; by subst|].
    unfold BurnCoins. destruct (CoinsCovered _ _); intros H; inversion H; by subst.
Qed.

Lemma rebalanceLoop_queue (ctx : Ctx) (n : Z) (u : gmap string Z)
    (slice : list AllianceAsset) (L : list (string * AllianceValidatorInfo)) :
  forall (s : State) r s',
  rebalanceLoop ctx n u slice L s = (r, s') ->
  rebalanceQueued s'
  = match L with
    | [] => rebalanceQueued s
    | _ => rebalanceQueued s
           || existsb (fun a => negb (RewardsStarted a (BlockTime ctx))) slice
    end.
Proof.
  induction L as [|[v val] rest IH]; intros s r s' Hrun; simpl in Hrun.
  { by inversion Hrun. }
  destruct (rebalanceValidator ctx n u slice v val s) as [r1 s1] eqn:Hv.
  apply rebalanceValidator_queue in Hv.
  destruct r1 as [[]| |]; [|by inversion Hrun; subst..].
  apply IH in Hrun. rewrite Hrun. destruct rest; [done|]. rewrite Hv.
  by rewrite <- orb_assoc, orb_diag.
Qed.

(** The rebalance event is consumed by the hook that acts on it: without a
    pending event the hook does nothing; with one it runs the rebalancer on
    the store with the event cleared.  After a run over assets whose rewards
    have all started no event is pending and the next hook does nothing;
    when a bonded validator is in the ledger and the rewards of some asset
    have not started, the run queues the event again, whatever its
    outcome. *)
Theorem RebalanceHook_event (ctx : Ctx) (slice : list AllianceAsset) (s : State) :
  (rebalanceQueued s = false -> RebalanceHook ctx slice s = (Ok tt, s)) /\
  (rebalanceQueued s = true ->
   RebalanceHook ctx slice s
   = RebalanceBondTokenWeights ctx slice (set_rebalanceQueued false s)) /\
  ((forall a, a ∈ slice -> RewardsStarted a (BlockTime ctx) = true) ->
   rebalanceQueued (RebalanceHook ctx slice s).2 = false /\
   RebalanceHook ctx slice (RebalanceHook ctx slice s).2
   = (Ok tt, (RebalanceHook ctx slice s).2)) /\
  (rebalanceQueued s = true ->
   (exists a, a ∈ slice /\ RewardsStarted a (BlockTime ctx) = false) ->
   (exists v, is_Some (validatorInfos s !! v) /\ IsBonded s v = true) ->
   (forall v, is_Some (validatorInfos s !! v) -> is_Some (bondedStatus s !! v)) ->
   rebalanceQueued (RebalanceHook ctx slice s).2 = true).
Proof.
  assert (Hrun : forall t r t',
    RebalanceBondTokenWeights ctx slice t = (r, t') ->
    match partitionValidators t (AllianceValidatorInfos t) [] ∅ with
    | Ok (L, _) =>
      rebalanceQueued t'
      = match L with
        | [] => rebalanceQueued t
        | _ => rebalanceQueued t
               || existsb (fun a => negb (RewardsStarted a (BlockTime ctx))) slice
        end
    | _ => t' = t
    end).
  { intros t r t'. unfold RebalanceBondTokenWeights.
    destruct (partitionValidators t (AllianceValidatorInfos t) [] ∅) as [[L ul]|e|].
    - apply rebalanceLoop_queue.
    - intros H. by inversion H.
    - intros H. by inversion H. }
  assert (Hfalse : forall (l : list AllianceAsset),
    (forall a, a ∈ l -> RewardsStarted a (BlockTime ctx) = true) ->
    existsb (fun a => negb (RewardsStarted a (BlockTime ctx))) l = false).
  { intros l Hl. induction l as [|a l IH]; [done|]. simpl.
    rewrite (Hl a) by (by left). simpl. apply IH. intros b Hb. apply Hl. by right. }
  assert (Hflag : (forall a, a ∈ slice -> RewardsStarted a (BlockTime ctx) = true) ->
    rebalanceQueued (RebalanceHook ctx slice s).2 = false).
  { intros Hall. unfold RebalanceHook, ConsumeAssetRebalanceEvent.
    destruct (rebalanceQueued s) eqn:Hq; [|done].
    destruct (RebalanceBondTokenWeights ctx slice (set_rebalanceQueued false s))
      as [r t'] eqn:Hr.
    apply Hrun in Hr. simpl.
    destruct (partitionValidators _ _ _ _) as [[L ul]|e|]; [|by subst..].
    rewrite Hr, (Hfalse slice Hall). by destruct L. }
  split_and!.
  - intros Hq. unfold RebalanceHook, ConsumeAssetRebalanceEvent. by rewrite Hq.
  - intros Hq. unfold RebalanceHook, ConsumeAssetRebalanceEvent. by rewrite Hq.
  - intros Hall. split; [by apply Hflag|].
    unfold RebalanceHook at 1, ConsumeAssetRebalanceEvent at 1. by rewrite Hflag.
  - intros Hq (a & Ha & Hns) (v & Hv & Hb) Hknown.
    unfold RebalanceHook, ConsumeAssetRebalanceEvent. rewrite Hq.
    set (t := set_rebalanceQueued false s).
    destruct (RebalanceBondTokenWeights ctx slice t) as [r t'] eqn:Hr.
    apply Hrun in Hr. simpl.
    pose proof (partitionValidators_spec t (AllianceValidatorInfos t) [] ∅) as Hp.
    destruct (partitionValidators t (AllianceValidatorInfos t) [] ∅) as [[L ul]|e|].
    + destruct Hp as (_ & P2 & _). simpl in P2.
      assert (Hin : v ∈ L.*1).
      { rewrite P2. apply list_elem_of_filter. split; [exact Hb|].
        by apply elem_of_validator_keys. }
      rewrite Hr. destruct L; [by apply elem_of_nil in Hin|].
      simpl. apply existsb_exists. exists a. split; [by apply list_elem_of_In|].
      by rewrite Hns.
    + destruct Hp as (w & Hw & Hnone). apply elem_of_validator_keys in Hw.
      apply Hknown in Hw. simpl in Hnone. rewrite Hnone in Hw. by destruct Hw.
    + done.
Qed.


End RebalanceEvent.

(** *** Round trip between tokens and shares *)

Section RoundTrip.

Lemma chopPrecisionAndRound_bounds (d : Z) :
  0 <= d ->
  0 <= chopPrecisionAndRound d /\
  2 * d - precisionReuse <= 2 * chopPrecisionAndRound d * precisionReuse
    <= 2 * d + precisionReuse.
Proof.
  intros Hd. rewrite chopPrecisionAndRound_nonneg by done.
  split; [by apply chopRoundMag_nonneg|].
  destruct (chopRoundMag_spec d Hd) as (q & r & -> & Hr & Hq & Hcase).
  destruct Hcase as [[? ->]|[[? ->]|[(? & _ & ->)|(? & _ & ->)]]]; lia.
Qed.

Lemma DecQuoRaw_bounds (x y : Dec) :
  0 <= x -> 0 < y ->
  0 <= DecQuoRaw x y /\
  exists A,
    y * A <= x * precisionReuse * precisionReuse < y * A + y /\
    2 * A - precisionReuse <= 2 * DecQuoRaw x y * precisionReuse
      <= 2 * A + precisionReuse.
Proof.
  intros Hx Hy. unfold DecQuoRaw.
  assert (HP : 0 < precisionReuse) by reflexivity.
  assert (Hxx : 0 <= x * precisionReuse * precisionReuse).
  { apply Z.mul_nonneg_nonneg; [apply Z.mul_nonneg_nonneg|]; lia. }
  rewrite Z.quot_div_nonneg by lia.
  set (A := x * precisionReuse * precisionReuse / y).
  assert (HA : 0 <= A) by (apply Z.div_pos; lia).
  destruct (chopPrecisionAndRound_bounds A HA) as [H0 Hb].
  split; [exact H0|]. exists A. split; [|exact Hb]. split.
  - apply Z.mul_div_le. lia.
  - pose proof (Z.mul_succ_div_gt (x * precisionReuse * precisionReuse) y Hy).
    fold A in H. lia.
Qed.

(** The arithmetic of the round trip, over the bounds that rounding to 18
    decimals gives for the three quotients and products. *)
Lemma round_trip_arith (P E T S n A q B f tok : Z) :
  0 < P -> 0 < E -> 3 * E + 1 < 2 * P -> 2 * E + P <= E * P ->
  0 < T <= S -> 0 <= n -> n * P + T <= E * P ->
  T * A <= S * P * P < T * A + T ->
  2 * A - P <= 2 * q * P <= 2 * A + P ->
  S * B <= q * n * P * P < S * B + S ->
  2 * B - P <= 2 * f * P <= 2 * B + P ->
  2 * (f * T) - P <= 2 * tok * P <= 2 * (f * T) + P ->
  n * P <= tok + E < (n + 1) * P.
Proof.
  intros HP HE HE1 HE2 [HT HTS] Hn Hsize [H1a H1b] [H2a H2b] [H3a H3b] [H4a H4b]
    [H5a H5b].
  assert (HS : 0 < S) by lia.
  assert (HnP : 0 <= n * P) by (apply Z.mul_nonneg_nonneg; lia).
  assert (HnPP : 0 <= n * P * P) by (apply Z.mul_nonneg_nonneg; lia).
  assert (HPP : 0 < P * P) by (apply Z.mul_pos_pos; lia).
  assert (HTS0 : 0 < T * S) by (apply Z.mul_pos_pos; lia).
  assert (HPS0 : 0 < P * S) by (apply Z.mul_pos_pos; lia).
  pose proof (Z.mul_le_mono_nonneg_r _ _ P ltac:(lia) Hsize) as Hsz.
  pose proof (Z.mul_le_mono_nonneg_r _ _ P ltac:(lia) HE2) as HE3.
  split.
  - pose proof (Z.mul_le_mono_nonneg_r _ _ T ltac:(lia) H2a) as M1.
    assert (L1 : 2 * (S * P * P) <= 2 * q * P * T + P * T + 2 * T) by lia.
    pose proof (Z.mul_le_mono_nonneg_r _ _ (n * P) HnP L1) as L2.
    pose proof (proj1 (Z.mul_lt_mono_pos_l (2 * T) _ _ ltac:(lia)) H3b) as L3.
    pose proof (Z.mul_le_mono_nonneg_r _ _ (T * S) ltac:(lia) H4a) as L5.
    pose proof (Z.mul_le_mono_nonneg_r _ _ (P * S) ltac:(lia) H5a) as L6.
    pose proof (Z.mul_le_mono_nonneg_r _ _ (2 * (n * P) + n * P * P) ltac:(lia) HTS) as L8.
    assert (L9 : S * (2 * (n * P) * (P * P))
                 < S * (2 * tok * (P * P) + P * P + 2 * (n * P) + n * P * P + P * T + 2 * T))
      by lia.
    apply Z.mul_lt_mono_pos_l in L9; [|lia].
    assert (L12 : P * P * (2 * (n * P)) < P * P * (2 * (tok + E) + 1)) by lia.
    apply Z.mul_lt_mono_pos_l in L12; lia.
  - pose proof (Z.mul_le_mono_nonneg_r _ _ T ltac:(lia) H2b) as M1.
    assert (U1 : P * (2 * q * T) <= P * (2 * S * P + T)) by lia.
    apply Z.mul_le_mono_pos_l in U1; [|lia].
    pose proof (Z.mul_le_mono_nonneg_l _ _ (2 * T) ltac:(lia) H3a) as U2.
    pose proof (Z.mul_le_mono_nonneg_r _ _ (n * P * P) HnPP U1) as U3.
    pose proof (Z.mul_le_mono_nonneg_r _ _ (T * S) ltac:(lia) H4b) as U4.
    assert (U5a : 2 * f * P * (T * S) <= 2 * T * (q * n * P * P) + P * (T * S)) by lia.
    assert (U5b : 2 * T * (q * n * P * P) <= (2 * S * P + T) * (n * P * P))
      by (clear - U3; lia).
    assert (U5c : 2 * f * P * (T * S) <= (2 * S * P + T) * (n * P * P) + P * (T * S))
      by (clear - U5a U5b; lia).
    assert (U5 : P * (2 * f * T * S) <= P * ((2 * S * P + T) * (n * P) + T * S))
      by (clear - U5c; lia).
    apply Z.mul_le_mono_pos_l in U5; [|lia].
    pose proof (Z.mul_le_mono_nonneg_r _ _ S ltac:(lia) H5b) as U6.
    pose proof (Z.mul_le_mono_nonneg_r _ _ (n * P) HnP HTS) as U8.
    assert (U9 : S * (2 * tok * P) <= S * (2 * n * P * P + n * P + T + P))
      by (clear - U5 U6 U8; lia).
    apply Z.mul_le_mono_pos_l in U9; [|lia].
    pose proof (proj1 (Z.mul_lt_mono_pos_r P _ _ HP) HE1) as HE4.
    assert (U10 : P * (2 * (tok + E)) < P * (2 * ((n + 1) * P)))
      by (clear - U9 Hsize HE4; lia).
    apply Z.mul_lt_mono_pos_l in U10; lia.
Qed.

Lemma conversions_round_trip (T S : Dec) (n : Z) :
  0 < T <= S -> 0 <= n ->
  n * precisionReuse + T <= LegacyNewDec 1000000000000 ->
  exists shares tok,
    ConvertNewTokenToShares T S n = Some shares /\
    ConvertNewShareToDecToken T S shares = Some tok /\
    DecTruncateInt (tok + LegacyNewDecWithPrec 1 6) = n.
Proof.
  intros [HT HTS] Hn Hsize.
  assert (HP : 0 < precisionReuse) by reflexivity.
  rewrite ConvertNewTokenToShares_pool by done.
  destruct (Z.eqb_spec S 0); [lia|].
  destruct (DecQuoRaw_bounds S T ltac:(lia) HT) as (Hq & A & H1 & H2).
  set (q := DecQuoRaw S T) in *.
  eexists _, _. split; [reflexivity|].
  rewrite ConvertNewShareToDecToken_pool by lia. split; [reflexivity|].
  assert (Hqn : 0 <= q * n) by (apply Z.mul_nonneg_nonneg; lia).
  destruct (DecQuoRaw_bounds (q * n) S Hqn ltac:(lia)) as (Hf & B & H3 & H4).
  set (f := DecQuoRaw (q * n) S) in *.
  assert (HfT : 0 <= f * T) by (apply Z.mul_nonneg_nonneg; lia).
  destruct (chopPrecisionAndRound_bounds (f * T) HfT) as [Htok H5].
  unfold DecMulRaw. set (tok := chopPrecisionAndRound (f * T)) in *.
  unfold DecTruncateInt.
  change (LegacyNewDecWithPrec 1 6) with 1000000000000.
  change (LegacyNewDec 1000000000000) with (1000000000000 * precisionReuse) in Hsize.
  pose proof (round_trip_arith precisionReuse 1000000000000 T S n A q B f tok HP
                ltac:(lia) ltac:(reflexivity) ltac:(discriminate) (conj HT HTS) Hn
                Hsize H1 H2 H3 H4 H5) as [Hlo Hhi].
  symmetry. apply (Z.quot_unique _ _ n (tok + 1000000000000 - n * precisionReuse)); lia.
Qed.

(** In a pool with at least one whole share and at least as many shares as
    tokens, where the tokens bought and the tokens of the pool together are
    at most 10^12, the shares that [GetDelegationSharesFromTokens] gives for
    [n] tokens are worth exactly [n] tokens again: the rounding of the two
    quotients and of the product stays below the epsilon 10^-6 that is added
    before the amount is truncated. *)
Theorem delegation_tokens_round_trip (val : AllianceValidatorInfo)
    (asset : AllianceAsset) (n : Z) :
  let T := TotalTokensWithAsset val asset in
  let S := TotalDelegationSharesWithDenom val (Denom asset) in
  0 < T <= S -> precisionReuse <= S -> 0 <= n ->
  n * precisionReuse + T <= LegacyNewDec 1000000000000 ->
  exists shares,
    GetDelegationSharesFromTokens val asset n = Some shares /\
    ConvertNewTokenToShares T S n = Some shares /\
    GetDelegationTokensWithShares shares val asset = Some n /\
    forall history height,
      GetDelegationTokens (mkDelegation shares history height) val asset = Some n.
Proof.
  intros T S HTS HS Hn Hsize.
  destruct (conversions_round_trip T S n HTS Hn Hsize) as (shares & tok & H1 & H2 & H3).
  exists shares.
  assert (Htr : (DecTruncateInt S =? 0) = false).
  { apply Z.eqb_neq. unfold DecTruncateInt. intros Hz.
    assert (HP : 0 < precisionReuse) by reflexivity.
    pose proof (Z.quot_le_mono precisionReuse S precisionReuse HP HS) as Hq.
    rewrite Z.quot_same in Hq by lia. lia. }
  unfold GetDelegationSharesFromTokens, GetDelegationTokensWithShares, GetDelegationTokens.
  cbv zeta. fold T S. rewrite Htr. split; [exact H1|]. split; [exact H1|]. simpl.
  rewrite H2. simpl. by rewrite H3.
Qed.

End RoundTrip.

(** *** Iteration over the snapshot log *)

Section SnapshotLog.

Lemma elem_of_insertByHeight (e x : Z * RewardWeightChangeSnapshot)
    (l : list (Z * RewardWeightChangeSnapshot)) :
  x ∈ insertByHeight e l <-> x = e \/ x ∈ l.
Proof.
  induction l as [|e' l IH]; simpl.
  - rewrite list_elem_of_singleton. split; [by left|]. intros [?|H]; [done|].
    by apply elem_of_nil in H.
  - destruct (e.1 <=? e'.1).
    + by rewrite elem_of_cons.
    + rewrite !elem_of_cons, IH. tauto.
Qed.

Lemma insertByHeight_sorted (e : Z * RewardWeightChangeSnapshot)
    (l : list (Z * RewardWeightChangeSnapshot)) :
  StronglySorted (fun x y => x.1 <= y.1) l ->
  StronglySorted (fun x y => x.1 <= y.1) (insertByHeight e l).
Proof.
  induction l as [|e' l IH]; intros Hs; simpl.
  - by repeat constructor.
  - apply StronglySorted_inv in Hs as [Hs Hall].
    destruct (Z.leb_spec e.1 e'.1).
    + constructor; [by constructor|]. constructor; [done|].
      eapply Forall_impl; [exact Hall|]. simpl. intros. lia.
    + constructor; [by apply IH|]. apply Forall_forall. intros x Hx.
      apply elem_of_insertByHeight in Hx as [->|Hx]; [lia|].
      by apply (proj1 (Forall_forall _ _) Hall).
Qed.

(** The iteration from [lastClaimHeight] visits exactly the snapshots of the
    pair (denom, validator) stored at heights from [lastClaimHeight]
    (included) up to the largest 64-bit height (excluded), lowest height
    first; a snapshot written for a validator at the current height is
    visited by every iteration that starts at or below that height. *)
Theorem IterateWeightChangeSnapshot_range (s : State) (denom valAddr : string)
    (lastClaimHeight : Z) :
  (forall h snap,
     (h, snap) ∈ IterateWeightChangeSnapshot s denom valAddr lastClaimHeight <->
     snapshots s !! (denom, valAddr, h) = Some snap /\
     lastClaimHeight <= h < MaxUint64) /\
  StronglySorted (fun x y => x.1 <= y.1)
    (IterateWeightChangeSnapshot s denom valAddr lastClaimHeight) /\
  (forall ctx asset val,
     Denom asset = denom ->
     lastClaimHeight <= toUint64 (BlockHeight ctx) < MaxUint64 ->
     (toUint64 (BlockHeight ctx), mkSnapshot (RewardWeight asset) (GlobalRewardHistory val))
     ∈ IterateWeightChangeSnapshot
         (SetRewardWeightChangeSnapshot ctx asset valAddr val s) denom valAddr
         lastClaimHeight).
Proof.
  assert (Hmem : forall (t : State) h snap,
    (h, snap) ∈ IterateWeightChangeSnapshot t denom valAddr lastClaimHeight <->
    snapshots t !! (denom, valAddr, h) = Some snap /\ lastClaimHeight <= h < MaxUint64).
  { intros t h snap. unfold IterateWeightChangeSnapshot.
    set (f := fun '(d, v, h0, sn) => _).
    assert (Hfold : forall l (x : Z * RewardWeightChangeSnapshot),
      x ∈ foldr insertByHeight [] l <-> x ∈ l).
    { induction l as [|e l IH]; intros x; simpl; [done|].
      by rewrite elem_of_insertByHeight, elem_of_cons, IH. }
    rewrite Hfold, list_elem_of_omap. split.
    - intros ([[[d v] h0] sn] & Hin & Hf). apply elem_of_map_to_list in Hin.
      unfold f in Hf.
      destruct (bool_decide (d = denom)) eqn:Hd; [|done].
      destruct (bool_decide (v = valAddr)) eqn:Hv; [|done].
      destruct (Z.leb_spec lastClaimHeight h0); [|done].
      destruct (Z.ltb_spec h0 MaxUint64); [|done].
      simpl in Hf. inversion Hf; subst.
      apply bool_decide_eq_true in Hd, Hv. subst. done.
    - intros [Hs [Hlo Hhi]]. exists (denom, valAddr, h, snap). split.
      + by apply elem_of_map_to_list.
      + unfold f. rewrite !bool_decide_eq_true_2 by done.
        destruct (Z.leb_spec lastClaimHeight h); [|lia].
        by destruct (Z.ltb_spec h MaxUint64); [|lia]. }
  split_and!.
  - apply Hmem.
  - unfold IterateWeightChangeSnapshot.
    match goal with |- context [foldr insertByHeight [] ?l0] =>
      induction l0 as [|e l IH] end;
      simpl; [constructor|by apply insertByHeight_sorted].
  - intros ctx asset val Hd Hh. apply Hmem. split; [|done].
    unfold SetRewardWeightChangeSnapshot, setRewardWeightChangeSnapshot. simpl.
    rewrite Hd. apply lookup_insert_eq.
Qed.

End SnapshotLog.

(** *** End of block *)

Section EndOfBlock.

(** A block in which nothing is due: when, after the completion of the
    matured undelegations, every asset is initialised or has not started, the
    take-rate interval has not passed, no decay is due and no rebalance event
    is pending, [EndBlocker] leaves the store as that completion left it.
    An error of the completion or of a hook never comes back as an error:
    the block panics. *)
Theorem EndBlocker_quiet (ctx : Ctx) (s s1 : State) :
  CompleteUndelegations ctx (CompleteRedelegations ctx s) = (Ok tt, s1) ->
  (forall a, a ∈ GetAllAssets s1 ->
     IsInitialized a = true \/ BlockTime ctx < RewardStartTime a) ->
  BlockTime ctx <= LastRewardClaimTime s1 + RewardClaimInterval s1 ->
  (forall a, a ∈ GetAllAssets s1 ->
     RewardChangeInterval a = 0 \/ RewardChangeRate a = LegacyOneDec \/
     BlockTime ctx < LastRewardChangeTime a + RewardChangeInterval a) ->
  rebalanceQueued s1 = false ->
  EndBlocker ctx s = (Ok tt, s1) /\
  forall t e, (EndBlocker ctx t).1 <> Err e.
Proof.
  intros Hc Hinit Htax Hdecay Hq. split.
  - unfold EndBlocker. cbv zeta. rewrite Hc.
    rewrite InitializeAllianceAssets_idle.
    2:{ intros a Ha. destruct (initializeAsset_cases ctx a) as [_ Hid].
        specialize (Hid (Hinit a Ha)). unfold initializeAsset in Hid.
        destruct (IsInitialized a || negb (RewardsStarted a (BlockTime ctx))) eqn:E;
          [done|].
        apply (f_equal IsInitialized) in Hid. simpl in Hid.
        rewrite <- Hid in E. done. }
    unfold DeductAssetsHook. cbv zeta. unfold TimeAfter, TimeAdd.
    destruct (Z.ltb_spec (LastRewardClaimTime s1 + RewardClaimInterval s1) (BlockTime ctx));
      [lia|].
    rewrite RewardWeightChangeHook_idle by done.
    unfold RebalanceHook, ConsumeAssetRebalanceEvent. by rewrite Hq.
  - intros t e. unfold EndBlocker. cbv zeta.
    destruct (CompleteUndelegations ctx (CompleteRedelegations ctx t)) as [[[]| |] t1];
      [|done..].
    destruct (InitializeAllianceAssets ctx (GetAllAssets t1) t1) as [l1 t2].
    destruct (DeductAssetsHook ctx l1 t2) as [[[c| |] l2] t3]; [|done..].
    destruct (RewardWeightChangeHook ctx l2 t3) as [[[[]| |] l3] t4]; [|done..].
    by destruct (RebalanceHook ctx l3 t4) as [[[]| |] t5].
Qed.

End EndOfBlock.

End Keeper.

(** ** Instances *)


(** The first deposit of the reward-index test: 2,000,000 native tokens
    against a weighted value of 2,000,000. *)
Lemma AddAssetsToRewardPool_index_witness :
  let s := exampleStore (exampleAsset 1000000 0 LegacyOneDec 0) in
  totalAssetWeight s (InfoOf s exampleValidator) = LegacyNewDec 2000000 /\
  exists s',
    AddAssetsToRewardPool exampleDepositor exampleValidator
      {[exampleBondDenom := 2000000]} s = (Ok tt, s') /\
    GlobalRewardHistory (InfoOf s' exampleValidator) !! exampleBondDenom
    = Some (LegacyNewDec 1).
Proof.
  intros s.
  assert (HW : totalAssetWeight s (InfoOf s exampleValidator) = LegacyNewDec 2000000)
    by (vm_compute; reflexivity).
  split; [exact HW|].
  pose proof (AddAssetsToRewardPool_index exampleDepositor exampleValidator
                {[exampleBondDenom := 2000000]} s) as H.
  cbv zeta in H. destruct H as (s' & Hrun & _ & _ & Hone & _).
  - rewrite HW. vm_compute. discriminate.
  - vm_compute. discriminate.
  - intros D A HD. apply lookup_singleton_Some in HD as [<- <-].
    vm_compute. discriminate.
  - exists s'. split; [exact Hrun|].
    apply Hone; [exact HW| |]; vm_compute; reflexivity.
Defined.

(** A thousand tokens at a take rate of one half, two intervals after the
    last claim: 250 tokens stay, 750 are deducted, and the last claim time
    advances by two intervals, from 1000 to 1600 and not to 1700. *)
Lemma DeductAssetsHook_taxes_witness :
  let a := exampleAsset 1000 halfDec LegacyOneDec 0 in
  let s := exampleStore a in
  let ctx := mkCtx 1700 5 in
  (BlockTime ctx - LastRewardClaimTime s) / RewardClaimInterval s = 2 /\
  exists coins s',
    DeductAssetsHook nonNegativeDuration ctx [a] s
    = (Ok coins, [withTotalTokens a 250], s') /\
    AmountOf coins exampleDenom = 750 /\
    LastRewardClaimTime s' = 1600.
Proof.
  intros a s ctx. split; [vm_compute; reflexivity|].
  pose proof (DeductAssetsHook_taxes nonNegativeDuration ctx [a] s) as H.
  cbv zeta in H.
  destruct H as (coins & s' & Hrun & _ & _ & Hcoins & _ & Hadv).
  - vm_compute. discriminate.
  - vm_compute. reflexivity.
  - vm_compute. reflexivity.
  - vm_compute. discriminate.
  - vm_compute. reflexivity.
  - vm_compute. reflexivity.
  - apply NoDup_singleton.
  - intros b Hb. apply list_elem_of_singleton in Hb as ->. vm_compute. discriminate.
  - intros b Hb. apply list_elem_of_singleton in Hb as ->. vm_compute. discriminate.
  - exists coins, s'. split; [exact Hrun|]. split.
    + change (AmountOf coins exampleDenom) with (AmountOf coins (Denom a)).
      rewrite (Hcoins a) by apply list_elem_of_singleton, eq_refl.
      vm_compute. reflexivity.
    + destruct Hadv as [Hlast _].
      * exists a. split; [apply list_elem_of_singleton, eq_refl|].
        split; vm_compute; reflexivity.
      * rewrite Hlast. vm_compute. reflexivity.
Defined.

(** With two tokens and a take rate of one half, one interval after the
    last claim: the asset has positive tokens, a positive take rate and has
    started, the floor of its post-tax amount is 1, and the hook leaves it
    with its two tokens. *)
Lemma DeductAssetsHook_taxes_counterexample :
  let a := exampleAsset 2 halfDec LegacyOneDec 0 in
  let s := exampleStore a in
  let ctx := mkCtx 1400 5 in
  taxable ctx a = true /\
  LastRewardClaimTime s + RewardClaimInterval s < BlockTime ctx /\
  (BlockTime ctx - LastRewardClaimTime s) / RewardClaimInterval s = 1 /\
  DecTruncateInt (postTaxAmount 1 a) = 1 /\
  TotalTokens a = 2 /\
  DeductAssetsHook nonNegativeDuration ctx [a] s = (Ok ∅, [a], s).
Proof. vm_compute. repeat split. Qed.

(** Two tokens at a take rate of one half, taxed in three blocks in a row. *)
Lemma take_rate_floor_protection_witness :
  let a := exampleAsset 2 halfDec LegacyOneDec 0 in
  let s := exampleStore a in
  Forall (fun a => 1 <= TotalTokens a)
    (repeatDeductAssetsHook nonNegativeDuration
       [mkCtx 1400 5; mkCtx 1700 6; mkCtx 2000 7] [a] s).1.
Proof.
  intros a s.
  apply (take_rate_floor_protection nonNegativeDuration (mkCtx 1400 5) [a] s).
  - repeat constructor. vm_compute. discriminate.
  - intros d x Hx. unfold s, exampleStore in Hx. cbn [assets] in Hx.
    apply lookup_singleton_Some in Hx as [_ <-]. vm_compute. discriminate.
Defined.

(** With three tokens and a take rate of one half, one interval after the
    last claim: the floor of the post-tax amount 1.5 is 1, which is not more
    than 1, and the hook reduces the asset to one token all the same. *)
Lemma take_rate_floor_protection_counterexample :
  let a := exampleAsset 3 halfDec LegacyOneDec 0 in
  let s := exampleStore a in
  let ctx := mkCtx 1400 5 in
  taxable ctx a = true /\
  (BlockTime ctx - LastRewardClaimTime s) / RewardClaimInterval s = 1 /\
  DecTruncateInt (postTaxAmount 1 a) = 1 /\
  TotalTokens a = 3 /\
  (DeductAssetsHook nonNegativeDuration ctx [a] s).1.2 = [withTotalTokens a 1] /\
  GetAssetByDenom (DeductAssetsHook nonNegativeDuration ctx [a] s).2 exampleDenom
  = Some (withTotalTokens a 1).
Proof. vm_compute. repeat split. Qed.

(** The example store allows the settlement of its validator. *)
Lemma settles_exampleStore (asset : AllianceAsset) :
  0 <= TotalTokens asset -> settles (exampleStore asset).
Proof.
  intros Ht. unfold settles, exampleStore, BalanceOf. simpl. split_and!.
  - intros v [x Hx]. apply lookup_singleton_Some in Hx as [<- _].
    rewrite lookup_singleton_eq. by eexists.
  - intros v. by rewrite lookup_empty.
  - intros v c d. by rewrite lookup_empty.
  - intros d. rewrite lookup_insert_eq. simpl. unfold AmountOf.
    destruct (decide (d = Denom asset)) as [->|Hd].
    + by rewrite lookup_singleton_eq.
    + by rewrite lookup_singleton_ne.
Qed.

(** Weight 2 growing threefold every 100 units of time, 150 units after the
    last change, within the range [0, 5]: one interval has elapsed, the
    product 6 is clamped to the maximum 5, and the last change time moves
    from 1000 to 1100. *)
Lemma RewardWeightChangeHook_decay_witness :
  let a := exampleAsset 1000 0 (LegacyNewDec 3) 100 in
  let s := exampleStore a in
  let ctx := mkCtx 1150 5 in
  DecMulRaw (RewardWeight a) (DecPowerRaw (RewardChangeRate a) 1) = LegacyNewDec 6 /\
  exists slice' s' a',
    RewardWeightChangeHook ctx [a] s = (Ok tt, slice', s') /\
    slice' !! 0%nat = Some a' /\
    GetAssetByDenom s' exampleDenom = Some a' /\
    RewardWeight a' = LegacyNewDec 5 /\
    LastRewardChangeTime a' = 1100.
Proof.
  intros a s ctx. split; [vm_compute; reflexivity|].
  destruct (RewardWeightChangeHook_decay ctx [a] s) as [_ H].
  destruct H as (slice' & s' & Hrun & _ & Hin & _).
  - split; [apply NoDup_singleton|].
    intros b Hb. apply list_elem_of_singleton in Hb as ->. vm_compute. reflexivity.
  - apply settles_exampleStore. vm_compute. discriminate.
  - intros b Hb _. apply list_elem_of_singleton in Hb as ->.
    split; [vm_compute; discriminate|vm_compute; reflexivity].
  - destruct (Hin 0%nat a eq_refl) as (a' & Hs & Hreg & Hdue & _).
    exists slice', s', a'. split; [exact Hrun|]. split; [exact Hs|].
    split; [exact Hreg|].
    destruct Hdue as (_ & _ & Hw & Ht & _).
    + vm_compute. reflexivity.
    + vm_compute. discriminate.
    + vm_compute. discriminate.
    + vm_compute. discriminate.
    + rewrite Hw, Ht. split; vm_compute; reflexivity.
Defined.

(** C5 as stated fails when the compounded weight exceeds the bit-length
    limit of the decimals: with a threefold growth and 300 elapsed
    intervals the clamp of the product is the maximum of the range, 5, but
    the hook panics in the power and leaves the weight at 2 and the last
    change time at 1000, in the slice and in the registry. *)
Lemma RewardWeightChangeHook_decay_counterexample :
  let a := exampleAsset 1000 0 (LegacyNewDec 3) 1 in
  let s := exampleStore a in
  let ctx := mkCtx 1300 5 in
  let n := (BlockTime ctx - LastRewardChangeTime a) / RewardChangeInterval a in
  0 < RewardChangeInterval a /\ RewardChangeRate a <> LegacyOneDec /\
  LastRewardChangeTime a + RewardChangeInterval a <= BlockTime ctx /\
  n = 300 /\
  Z.min (Max (RewardWeightRange_ a))
    (Z.max (Min (RewardWeightRange_ a))
       (DecMulRaw (RewardWeight a) (DecPowerRaw (RewardChangeRate a) n)))
  = LegacyNewDec 5 /\
  DecPower (RewardChangeRate a) n = None /\
  RewardWeightChangeHook ctx [a] s = (Panic, [a], s) /\
  GetAssetByDenom s (Denom a) = Some a /\
  RewardWeight a = LegacyNewDec 2 /\ LastRewardChangeTime a = 1000.
Proof. vm_compute. split_and!; (reflexivity || discriminate). Qed.

(** A change of the weight from 2 to 10 at height 2: the validator is
    settled, and its snapshot holds the weight 2 and the index after the
    settlement. *)
Lemma UpdateAllianceAsset_snapshots_witness :
  let s' := (UpdateAllianceAsset (mkCtx 1400 2) (weightUpdate 10) rewardStore).2 in
  GetAssetByDenom rewardStore exampleDenom
  = Some (exampleAsset 1000000 0 LegacyOneDec 0) /\
  snapshots s' !! (exampleDenom, exampleValidator, 2)
  = Some (mkSnapshot (LegacyNewDec 2) {[exampleBondDenom := LegacyNewDec 1]}) /\
  rebalanceQueued s' = true.
Proof.
  intros s'. split; [vm_compute; reflexivity|].
  destruct (UpdateAllianceAsset_snapshots (mkCtx 1400 2) (weightUpdate 10)
              (exampleAsset 1000000 0 LegacyOneDec 0) rewardStore) as [_ Hchange].
  - vm_compute. reflexivity.
  - destruct (Hchange ltac:(vm_compute; discriminate) s') as (Hval & _ & Hq & _).
    + vm_compute. reflexivity.
    + split; [|exact Hq].
      destruct (Hval exampleValidator) as [Hinfo Hsnap].
      * vm_compute. eauto.
      * change (toUint64 (BlockHeight (mkCtx 1400 2))) with 2 in Hsnap.
        change (Denom (exampleAsset 1000000 0 LegacyOneDec 0)) with exampleDenom in Hsnap.
        rewrite Hsnap, Hinfo. vm_compute. reflexivity.
Defined.

(** Two tokens at a take rate of one half, one interval after the last
    claim: the asset is skipped and the last claim time stays 1000. *)
Lemma DeductAssetsWithTakeRate_all_skipped_witness :
  let a := exampleAsset 2 halfDec LegacyOneDec 0 in
  let s := exampleStore a in
  DeductAssetsWithTakeRate nonNegativeDuration (mkCtx 1400 5) 1000 [a] s
  = (Ok ∅, [a], s) /\
  LastRewardClaimTime s = 1000.
Proof.
  intros a s. split; [|vm_compute; reflexivity].
  pose proof (DeductAssetsWithTakeRate_all_skipped nonNegativeDuration
                (mkCtx 1400 5) 1000 [a] s) as H.
  cbv zeta in H. destruct H as (Hrun & _ & _).
  - vm_compute. discriminate.
  - vm_compute. discriminate.
  - exists a. split; [apply list_elem_of_singleton, eq_refl|vm_compute; reflexivity].
  - intros b Hb _. apply list_elem_of_singleton in Hb as ->. vm_compute. discriminate.
  - exact Hrun.
Defined.

(** A million tokens at weight 2 on a validator, with a million native
    tokens bonded: the first run bonds two million more, the second none. *)
Lemma RebalanceBondTokenWeights_idempotent_witness :
  let a := exampleAsset 1000000 0 LegacyOneDec 0 in
  let ctx := mkCtx 1400 5 in
  let s1 := (RebalanceBondTokenWeights ctx [a] (exampleStore a)).2 in
  TotalBondedTokens (exampleStore a) = 1000000 /\
  TotalBondedTokens s1 = 3000000 /\
  exists s2,
    RebalanceBondTokenWeights ctx [a] s1 = (Ok tt, s2) /\
    TotalBondedTokens s2 = 3000000 /\
    currentBondedAmount s2 exampleValidator = LegacyNewDec 2000000.
Proof.
  intros a ctx s1. split; [vm_compute; reflexivity|].
  assert (H1 : TotalBondedTokens s1 = 3000000) by (vm_compute; reflexivity).
  split; [exact H1|].
  destruct (RebalanceBondTokenWeights_idempotent ctx [a] (exampleStore a) s1)
    as (s2 & Hrun & _ & _ & _ & Hb & Hcur).
  - vm_compute. reflexivity.
  - exists s2. split; [exact Hrun|]. split; [by rewrite Hb|].
    rewrite Hcur. vm_compute. reflexivity.
Defined.

(** An update to weight 13 that carries the range [0, 12]. *)
Lemma UpdateAllianceAsset_rejects_witness :
  let s := exampleStore (exampleAsset 1000000 0 LegacyOneDec 0) in
  UpdateAllianceAsset (mkCtx 1400 2) (weightUpdate 13) s
  = (Err ErrRewardWeightOutOfBound, s).
Proof.
  intros s.
  destruct (UpdateAllianceAsset_rejects (mkCtx 1400 2) (weightUpdate 13) s) as [_ H].
  apply (H (exampleAsset 1000000 0 LegacyOneDec 0)).
  - vm_compute. reflexivity.
  - right. vm_compute. reflexivity.
Defined.

(** C9 as stated fails for the range configured for the stored asset: the
    registry holds the asset with the range [0, 5], and an update to the
    weight 10 that carries the range [0, 12] is accepted; the registry then
    holds the weight 10 with the range [0, 5]. *)
Lemma UpdateAllianceAsset_rejects_counterexample :
  let asset := exampleAsset 1000000 0 LegacyOneDec 0 in
  let s := exampleStore asset in
  let r := UpdateAllianceAsset (mkCtx 1400 2) (weightUpdate 10) s in
  GetAssetByDenom s (Denom (weightUpdate 10)) = Some asset /\
  RewardWeightRange_ asset = mkRange (LegacyNewDec 0) (LegacyNewDec 5) /\
  Max (RewardWeightRange_ asset) < RewardWeight (weightUpdate 10) /\
  r.1 = Ok tt /\
  exists stored, GetAssetByDenom r.2 exampleDenom = Some stored /\
    RewardWeight stored = LegacyNewDec 10 /\
    RewardWeightRange_ stored = mkRange (LegacyNewDec 0) (LegacyNewDec 5).
Proof.
  vm_compute. split_and!; try reflexivity. eexists. split_and!; reflexivity.
Qed.

(** A threefold growth that is due for 300 intervals, and a decay that is
    due on an asset whose range is inverted, [5, 1]. *)
Lemma RewardWeightChangeHook_errors_witness :
  let g := exampleAsset 1000 0 (LegacyNewDec 3) 1 in
  let a := mkAsset exampleDenom (LegacyNewDec 2) 0 1000 (LegacyNewDec 1000) 1 halfDec
             100 1000 (mkRange (LegacyNewDec 5) (LegacyNewDec 1)) true in
  let s := exampleStore a in
  RewardWeightChangeHook (mkCtx 1300 5) [g] (exampleStore g)
  = (Panic, [g], exampleStore g) /\
  RewardWeightChangeHook (mkCtx 1250 5) [a] s
  = (Err ErrRewardWeightOutOfBound, [decayAsset (mkCtx 1250 5) a],
     QueueAssetRebalanceEvent s).
Proof.
  intros g a s. split.
  - destruct (RewardWeightChangeHook_errors (mkCtx 1300 5) g [] (exampleStore g))
      as [H _].
    + vm_compute. discriminate.
    + vm_compute. discriminate.
    + vm_compute. discriminate.
    + apply H. vm_compute. reflexivity.
  - destruct (RewardWeightChangeHook_errors (mkCtx 1250 5) a [] s) as (_ & _ & H).
    + vm_compute. discriminate.
    + vm_compute. discriminate.
    + vm_compute. discriminate.
    + apply H; [vm_compute; reflexivity|vm_compute; eauto|vm_compute; reflexivity].
Defined.

(** An asset that starts and decays in one block, at height 5: the
    snapshot of the height holds the weight 2, not zero. *)
Lemma initial_snapshot_replaced_witness :
  let a := mkAsset exampleDenom (LegacyNewDec 2) 0 1000 (LegacyNewDec 1000) 1 halfDec
             100 1000 (mkRange (LegacyNewDec 0) (LegacyNewDec 5)) false in
  let ctx := mkCtx 1250 5 in
  let r1 := InitializeAllianceAssets ctx [a] (exampleStore a) in
  let r2 := RewardWeightChangeHook ctx r1.1 r1.2 in
  r2.1.1 = Ok tt /\
  exists index,
    snapshots r2.2 !! (exampleDenom, exampleValidator, 5)
    = Some (mkSnapshot (LegacyNewDec 2) index).
Proof.
  intros a ctx r1 r2. split; [vm_compute; reflexivity|].
  pose proof (initial_snapshot_replaced ctx a (exampleStore a) r2.2 r2.1.2
                exampleValidator) as H.
  cbv zeta in H. destruct H as [_ H].
  - vm_compute. reflexivity.
  - vm_compute. reflexivity.
  - vm_compute. discriminate.
  - vm_compute. eauto.
  - vm_compute. reflexivity.
  - vm_compute. discriminate.
  - exact H.
Defined.


(** A quarter of a pool of 1,000,000 tokens at one share per token. *)
Lemma delegation_tokens_round_trip_witness :
  let a := exampleAsset 1000000 0 LegacyOneDec 0 in
  let val := InfoOf (exampleStore a) exampleValidator in
  exists shares,
    GetDelegationSharesFromTokens val a 250000 = Some shares /\
    GetDelegationTokensWithShares shares val a = Some 250000.
Proof.
  intros a val.
  pose proof (delegation_tokens_round_trip val a 250000) as H. cbv zeta in H.
  destruct H as (shares & H1 & _ & H2 & _).
  - vm_compute. split; [reflexivity|discriminate].
  - vm_compute. discriminate.
  - lia.
  - vm_compute. discriminate.
  - exists shares. split; [exact H1|exact H2].
Defined.

(** A block at time 1200, before the first take-rate interval has passed,
    with no matured undelegation and no decay schedule. *)
Lemma EndBlocker_quiet_witness :
  let s := exampleStore (exampleAsset 1000 halfDec LegacyOneDec 0) in
  EndBlocker nonNegativeDuration (fun _ t => t) (fun _ t => (Ok tt, t)) (mkCtx 1200 5) s
  = (Ok tt, s).
Proof.
  intros s.
  assert (Hall : GetAllAssets s = [exampleAsset 1000 halfDec LegacyOneDec 0])
    by (vm_compute; reflexivity).
  apply (EndBlocker_quiet nonNegativeDuration (fun _ t => t) (fun _ t => (Ok tt, t))
           (mkCtx 1200 5) s s).
  - reflexivity.
  - intros b Hb. rewrite Hall in Hb. apply list_elem_of_singleton in Hb as ->. by left.
  - vm_compute. discriminate.
  - intros b Hb. rewrite Hall in Hb. apply list_elem_of_singleton in Hb as ->. by left.
  - reflexivity.
Defined.
